(** * Legal-Doc-AI: the LegalDocumentFinder retrieval pipeline

    A shallow embedding of [LegalDocumentFinder] (trainingModelDemo.ipynb
    and its notebook copies): corpus loading, batch encoding, the pickle
    cache, the FAISS index build and the two search strategies; of the
    script the class grew from (module [Script]) and of the notebook
    copies whose methods store their results themselves and which save
    and restore the state and the index (module [Notebook]).

    Files.  The CSV files, the pickle files and the index files are kept
    apart, each kind in a map of its own: a statement about a run that
    names files of two kinds assumes that the names are different, as
    they are in every copy of the program.

    Numbers.  The program computes in IEEE floating point (float32
    embeddings).  The embedding uses the real numbers [R] instead: every
    statement below is about the exact arithmetic the floating-point code
    approximates, and [astype(np.float32)] is the identity.  One
    floating-point value is kept: the NaN that the division of a zero
    query by its norm produces ([Numpy.frow]).

    Libraries.  numpy, pandas, scikit-learn, faiss and pickle are not part
    of the repository; each call the program makes is modelled by a small
    function written from the documented behaviour of that call, in the
    modules [Numpy], [Pandas], [Sklearn], [Faiss] and [Pickle]. *)

From Stdlib Require Import Reals Lra Lia ZArith List.
From Stdlib Require Import Sorting.Permutation Sorting.Sorted.
From stdpp Require Import base list sorting gmap strings.

Open Scope R_scope.

(* ================================================================= *)
(** ** Vectors *)

Abbreviation vec := (list R).
Abbreviation matrix := (list (list R)).

(** [np.dot] on two 1-D arrays. *)
Fixpoint dot (a b : vec) : R :=
  match a, b with
  | x :: a', y :: b' => x * y + dot a' b'
  | _, _ => 0
  end.

(** [np.linalg.norm]: the L2 norm. *)
Definition norm (a : vec) : R := sqrt (dot a a).

(** Cosine similarity as the specification defines it:
    cosine(a,b) = dot(a,b) / (||a|| * ||b||). *)
Definition cosine (a b : vec) : R := dot a b / (norm a * norm b).

(** Python exceptions the pipeline can raise. *)
Inductive exn : Type :=
| ValueError | KeyError | TypeError | AttributeError | IndexError
| AssertionError | UnicodeError.

(* ================================================================= *)
(** ** numpy *)

Module Numpy.

(** Insertion of index [i] in front of the first index whose key is not
    smaller. *)
Fixpoint insert_by (key : nat -> R) (i : nat) (l : list nat) : list nat :=
  match l with
  | [] => [i]
  | j :: l' =>
      if Rle_dec (key i) (key j) then i :: l else j :: insert_by key i l'
  end.

(** [a.argsort()]: the indices that sort [a] in ascending order.  numpy's
    default kind is not a stable sort: the order it gives to indices with
    equal keys is left open and changes with the build and the length of
    the array.  The model is one sorting function, an insertion sort; it
    stands for whatever function numpy computes.  What numpy promises of
    the result is [is_argsort] below; the order of the results by score
    follows from that promise alone, and the order the model gives to
    indices with equal keys is its own. *)
Definition argsort (a : list R) : list nat :=
  fold_right (insert_by (fun i => nth i a 0)) [] (seq 0 (length a)).

(** What numpy promises of [a.argsort()]: a permutation of the indices
    0 .. n-1 along which the keys do not decrease.  Nothing is said about
    the order of indices with equal keys. *)
Definition is_argsort (a : list R) (idx : list nat) : Prop :=
  Permutation idx (seq 0 (length a)) /\
  StronglySorted (fun i j => nth i a 0 <= nth j a 0) idx.

(** [a[::-1]]. *)
Definition flip {A} (a : list A) : list A := rev a.

(** [a[:k]] for a Python integer [k]: a negative stop counts from the
    end. *)
Definition slice_to {A} (k : Z) (a : list A) : list A :=
  if (0 <=? k)%Z then firstn (Z.to_nat k) a
  else firstn (length a - Z.to_nat (- k)) a.

(** [a[i : i + b]] for a non-negative [i] and a positive [b]. *)
Definition slice {A} (i : nat) (b : Z) (a : list A) : list A :=
  firstn (Z.to_nat b) (skipn i a).

(** [a[idx]] with an integer index array. *)
Definition take_idx (a : list R) (idx : list nat) : list R :=
  map (fun i => nth i a 0) idx.

(** [range(0, n, b)]: a zero step is an error, a negative step gives the
    empty range, a positive step gives 0, b, 2b, ... below [n]. *)
Definition range_step (n : nat) (b : Z) : exn + list nat :=
  if (b =? 0)%Z then inl ValueError
  else if (b <? 0)%Z then inr []
  else inr (map (fun j => (j * Z.to_nat b)%nat)
                (seq 0 ((n + Z.to_nat b - 1) / Z.to_nat b))).

(** [np.stack] of a sequence of 1-D arrays: they must be at least one and
    of one shape. *)
Definition stack (vs : list vec) : exn + matrix :=
  match vs with
  | [] => inl ValueError
  | v :: vs' =>
      if forallb (fun w => length w =? length v)%nat vs' then inr vs
      else inl ValueError
  end.

(** [np.concatenate(arrays, axis=0)]: at least one array is needed. *)
Definition concatenate (ms : list matrix) : exn + matrix :=
  match ms with
  | [] => inl ValueError
  | _ => inr (concat ms)
  end.

(** A float row as it reaches the index: finite components, or NaN in
    every component. *)
Inductive frow : Type :=
| Finite (x : vec)
| NaNs (n : nat).

Definition frow_dim (q : frow) : nat :=
  match q with
  | Finite x => length x
  | NaNs n => n
  end.

(** [x / np.linalg.norm(x, axis=1, keepdims=True)] for a single row: a
    row of norm zero is a zero row, and 0/0 is NaN in every component
    (numpy warns and raises nothing). *)
Definition divide_by_norm (x : vec) : frow :=
  match x with
  | [] => Finite []
  | _ :: _ =>
      if Req_dec_T (norm x) 0 then NaNs (length x)
      else Finite (map (fun c => c / norm x) x)
  end.

End Numpy.

(* ================================================================= *)
(** ** scikit-learn *)

Module Sklearn.

(** [sklearn.preprocessing.normalize]: a row is divided by its L2 norm,
    a zero norm being replaced by 1.  Over the reals the result is of
    norm exactly 1; in float32 it is so up to rounding, and a score can
    exceed 1 by an ulp. *)
Definition normalize (x : vec) : vec :=
  let n := norm x in
  let n' := if Req_dec_T n 0 then 1 else n in
  map (fun c => c / n') x.

(** [cosine_similarity(X, Y).flatten()] for a single-row [X]: both
    arguments are normalized and multiplied; the column counts must
    agree. *)
Definition cosine_similarity (x : vec) (Y : matrix) : exn + list R :=
  if forallb (fun y => length y =? length x)%nat Y
  then inr (map (fun y => dot (normalize x) (normalize y)) Y)
  else inl ValueError.

End Sklearn.

(* ================================================================= *)
(** ** faiss *)

Module Faiss.

(** [fvec_L2sqr]: the squared Euclidean distance [IndexFlatL2] reports. *)
Fixpoint l2sqr (a b : vec) : R :=
  match a, b with
  | x :: a', y :: b' => (x - y) * (x - y) + l2sqr a' b'
  | _, _ => 0
  end.

(** [fvec_renorm_L2] on one row: scaled to unit norm unless it is zero.
    Over the reals the result is of norm exactly 1 and a second call
    changes nothing; in float32 both hold up to rounding only. *)
Definition renorm (x : vec) : vec :=
  let nr := dot x x in
  if Rlt_dec 0 nr then map (fun c => c * (1 / sqrt nr)) x else x.

(** [faiss.normalize_L2(x)], as a function of the buffer contents; the
    caller writes the result back in place. *)
Definition normalize_L2 (x : matrix) : matrix := map renorm x.

(** An [IndexFlatL2]: its dimension and its own copy of the vectors. *)
Record IndexFlatL2 : Type := mkIndex { d : nat; xb : matrix }.

(** [index.add(x)]. *)
Definition add (idx : IndexFlatL2) (x : matrix) : IndexFlatL2 :=
  {| d := d idx; xb := xb idx ++ x |}.

(** The largest float32, the distance of a missing neighbour. *)
Definition FLT_MAX : R := (2 - / 2 ^ 23) * 2 ^ 127.

(** [index.search(q, k)] for a single query row: [k] must be positive
    and the query of the index' dimension.  The [k] nearest vectors come
    first, by ascending distance (faiss leaves the order of vectors at
    equal distance open; the model takes that of [Numpy.argsort]); when
    the index holds fewer than [k] vectors the result is filled up with
    label [-1] and distance [FLT_MAX].  No vector is near a NaN query:
    the whole result is such filling then. *)
Definition search (idx : IndexFlatL2) (q : Numpy.frow) (k : Z)
  : exn + (list R * list Z) :=
  if (k <=? 0)%Z then inl AssertionError
  else if negb (Numpy.frow_dim q =? d idx)%nat then inl AssertionError
  else
    match q with
    | Numpy.Finite x =>
        let dis := map (l2sqr x) (xb idx) in
        let order := firstn (Z.to_nat k) (Numpy.argsort dis) in
        let pad := (Z.to_nat k - length order)%nat in
        inr (Numpy.take_idx dis order ++ repeat FLT_MAX pad,
             map Z.of_nat order ++ repeat (-1)%Z pad)
    | Numpy.NaNs _ =>
        inr (repeat FLT_MAX (Z.to_nat k), repeat (-1)%Z (Z.to_nat k))
    end.

End Faiss.

(** The score the approximate strategy attaches to a distance:
    [similarities = 1 - distances.flatten() / 2]. *)
Definition faiss_similarity (distance : R) : R := 1 - distance / 2.

(* ================================================================= *)
(** ** pandas *)

Module Pandas.

(** A table cell; [None] is a missing value (NaN). *)
Definition cell : Type := option string.

(** A 1-D ndarray held in an object column: row [v_row] of the buffer at
    address [v_base]. *)
Record ndview : Type := mkView { v_base : nat; v_row : nat }.

(** One row of the corpus table.  The class reads the columns [dieu]
    (article identifier) and [truncated_text] and adds [embedding]; the
    embedding cell is absent until [main] assigns the column. *)
Record Article : Type := mkArticle {
  dieu : cell;
  truncated_text : cell;
  embedding : option ndview }.

(** A data frame whose index is 0 .. n-1: after [reset_index(drop=True)]
    the label of a row is its position. *)
Abbreviation DataFrame := (list Article).

Definition complete (r : Article) : bool :=
  match truncated_text r, dieu r with
  | Some _, Some _ => true
  | _, _ => false
  end.

(** [df.dropna(subset=["truncated_text", "dieu"])]. *)
Definition dropna (t : DataFrame) : DataFrame := filter (fun r => complete r = true) t.

(** [df.drop_duplicates(subset=["truncated_text"])], keep='first': a row
    is dropped when its text was seen in a row kept before. *)
Fixpoint drop_duplicates_from (seen : list cell) (t : DataFrame) : DataFrame :=
  match t with
  | [] => []
  | r :: t' =>
      if decide (truncated_text r ∈ seen) then drop_duplicates_from seen t'
      else r :: drop_duplicates_from (truncated_text r :: seen) t'
  end.

Definition drop_duplicates (t : DataFrame) : DataFrame :=
  drop_duplicates_from [] t.

(** One positional index of [df.iloc[...]] on a frame of [n] rows: a
    negative position counts from the end. *)
Definition iloc_pos (n : nat) (p : Z) : option nat :=
  if ((0 <=? p) && (p <? Z.of_nat n))%Z then Some (Z.to_nat p)
  else if ((- Z.of_nat n <=? p) && (p <? 0))%Z then Some (Z.to_nat (Z.of_nat n + p))
  else None.

(** [df.iloc[positions]]: the rows with their labels, or IndexError when
    a position is out of bounds. *)
Fixpoint iloc (t : DataFrame) (ps : list Z) : exn + list (nat * Article) :=
  match ps with
  | [] => inr []
  | p :: ps' =>
      match iloc_pos (length t) p with
      | None => inl IndexError
      | Some i =>
          match t !! i, iloc t ps' with
          | Some r, inr rs => inr ((i, r) :: rs)
          | None, _ => inl IndexError
          | _, inl e => inl e
          end
      end
  end.

End Pandas.
Export Pandas.

(* ================================================================= *)
(** ** Memory: numpy buffers *)

(** The arrays the finder holds are mutable buffers; [faiss.normalize_L2]
    writes into one, and the rows of [list(self.embeddings)] are views of
    it.  A buffer is addressed by its position in the heap. *)
Abbreviation heap := (list (list (list R))).

Definition read_view (h : heap) (v : ndview) : option vec :=
  match h !! v_base v with
  | Some m => m !! v_row v
  | None => None
  end.

(* ================================================================= *)
(** ** pickle *)

Module Pickle.

(** The pickled form of a row: the embedding cell is stored by value. *)
Record PArticle : Type := mkPArticle {
  p_dieu : cell;
  p_truncated_text : cell;
  p_embedding : option vec }.

(** What [pickle.dump({"df": ..., "embeddings": ...}, f)] writes: values
    only.  Views are written as arrays of their own. *)
Record blob : Type := mkBlob {
  b_df : option (list PArticle);
  b_embeddings : option matrix }.

Definition dump_row (h : heap) (r : Article) : PArticle :=
  {| p_dieu := dieu r;
     p_truncated_text := truncated_text r;
     p_embedding := match embedding r with
                    | Some v => read_view h v
                    | None => None
                    end |}.

Definition dump (h : heap) (df : option DataFrame) (emb : option nat) : blob :=
  {| b_df := option_map (map (dump_row h)) df;
     b_embeddings := match emb with Some l => h !! l | None => None end |}.

(** Loading allocates a fresh buffer for every array in the file. *)
Fixpoint load_rows (h : heap) (ps : list PArticle) : DataFrame * heap :=
  match ps with
  | [] => ([], h)
  | p :: ps' =>
      let '(c, h1) :=
        match p_embedding p with
        | Some v => (Some (mkView (length h) 0), h ++ [[v]])
        | None => (None, h)
        end in
      let '(rs, h2) := load_rows h1 ps' in
      (mkArticle (p_dieu p) (p_truncated_text p) c :: rs, h2)
  end.

Definition load (h : heap) (b : blob) : option DataFrame * option nat * heap :=
  let '(df, h1) :=
    match b_df b with
    | Some ps => let '(rs, h') := load_rows h ps in (Some rs, h')
    | None => (None, h)
    end in
  match b_embeddings b with
  | Some m => (df, Some (length h1), h1 ++ [m])
  | None => (df, None, h1)
  end.

End Pickle.

(* ================================================================= *)
(** ** The finder's state and the monad of its methods *)

Inductive encoding : Type := Utf8Sig | Utf16.

(** The fields of a [LegalDocumentFinder] together with the world it acts
    on: the numpy buffers, the pickle files on disk, and the log of
    [pd.read_csv] calls. *)
Record state : Type := mkState {
  mem : heap;
  files : gmap string Pickle.blob;
  reads : list (string * encoding);
  embeddings : option nat;
  df : option DataFrame;
  index : option Faiss.IndexFlatL2 }.

(** [LegalDocumentFinder.__init__]: no embeddings, no table, no index. *)
Definition init (h : heap) (fs : gmap string Pickle.blob) : state :=
  {| mem := h; files := fs; reads := [];
     embeddings := None; df := None; index := None |}.

(** A method either returns a value or raises, and leaves a state. *)
Definition M (A : Type) : Type := state -> (exn + A) * state.

Definition ret {A} (a : A) : M A := fun s => (inr a, s).
Definition raise {A} (e : exn) : M A := fun s => (inl e, s).
Definition bind {A B} (m : M A) (k : A -> M B) : M B :=
  fun s => match m s with
           | (inr a, s') => k a s'
           | (inl e, s') => (inl e, s')
           end.
Definition try_except {A} (m : M A) (handler : exn -> M A) : M A :=
  fun s => match m s with
           | (inl e, s') => handler e s'
           | r => r
           end.
Definition lift {A} (r : exn + A) : M A := fun s => (r, s).
Definition get : M state := fun s => (inr s, s).

Declare Scope finder_scope.
Delimit Scope finder_scope with finder.
Notation "x <- m ; k" := (bind m (fun x => k))
  (at level 20, m at level 100, k at level 200, only parsing) : finder_scope.
Notation "' p <- m ; k" := (bind m (fun p => k))
  (at level 20, p pattern, m at level 100, k at level 200, only parsing) : finder_scope.
Open Scope finder_scope.

Definition set_embeddings (l : option nat) (s : state) : state :=
  {| mem := mem s; files := files s; reads := reads s;
     embeddings := l; df := df s; index := index s |}.
Definition set_df (t : option DataFrame) (s : state) : state :=
  {| mem := mem s; files := files s; reads := reads s;
     embeddings := embeddings s; df := t; index := index s |}.
Definition set_index (i : option Faiss.IndexFlatL2) (s : state) : state :=
  {| mem := mem s; files := files s; reads := reads s;
     embeddings := embeddings s; df := df s; index := i |}.
Definition set_mem (h : heap) (s : state) : state :=
  {| mem := h; files := files s; reads := reads s;
     embeddings := embeddings s; df := df s; index := index s |}.
Definition set_files (fs : gmap string Pickle.blob) (s : state) : state :=
  {| mem := mem s; files := fs; reads := reads s;
     embeddings := embeddings s; df := df s; index := index s |}.
Definition log_read (p : string) (e : encoding) (s : state) : state :=
  {| mem := mem s; files := files s; reads := reads s ++ [(p, e)];
     embeddings := embeddings s; df := df s; index := index s |}.

Definition modify (f : state -> state) : M unit := fun s => (inr tt, f s).

(** [self.df] where a table is needed: on [None], subscripting raises a
    TypeError and [.iloc] an AttributeError. *)
Definition the_df (e : exn) : M DataFrame :=
  fun s => match df s with
           | Some t => (inr t, s)
           | None => (inl e, s)
           end.

(** A new numpy array: a fresh buffer at the end of the heap. *)
Definition alloc (m : matrix) : M nat :=
  fun s => (inr (length (mem s)), set_mem (mem s ++ [m]) s).

(** One row of the frame [find_similar_articles] returns: the label of the
    corpus row, its two text columns and the attached score. *)
Record Result : Type := mkResult {
  label : nat;
  res_dieu : cell;
  res_truncated_text : cell;
  similarity : R }.

(* ================================================================= *)
(** ** Rank orders *)

(** The order in which the sorting function of the model, [Numpy.argsort],
    leaves the indices: ascending key, equal keys by ascending index. *)
Definition asc_by (key : nat -> R) (i j : nat) : Prop :=
  key i < key j \/ (key i = key j /\ (i < j)%nat).

(** The order of its reversal: descending key, equal keys by descending
    index. *)
Definition desc_by (key : nat -> R) (i j : nat) : Prop := asc_by key j i.

(** A result ranked before another has a larger score, or the same score
    and a larger row label. *)
Definition ranked_before (r1 r2 : Result) : Prop :=
  similarity r1 > similarity r2 \/
  (similarity r1 = similarity r2 /\ (label r2 < label r1)%nat).

(** Tie-breaking as the specification words it: of two results with equal
    scores, the one ranked first has the smaller row label. *)
Definition ties_in_row_order (results : list Result) : Prop :=
  forall l1 r1 l2 r2 l3,
    results = l1 ++ r1 :: l2 ++ r2 :: l3 ->
    similarity r1 = similarity r2 -> (label r1 < label r2)%nat.

(* ================================================================= *)
(** ** LegalDocumentFinder *)

(** [results = self.df.iloc[top_indices][["dieu", "truncated_text"]].copy()]
    followed by [results["similarity"] = similarities]; the column must
    have as many entries as there are rows. *)
Definition assemble (t : DataFrame) (top_indices : list Z) (similarities : list R)
  : exn + list Result :=
  match Pandas.iloc t top_indices with
  | inl e => inl e
  | inr rs =>
      if (length rs =? length similarities)%nat
      then inr (zip_with (fun ir s => mkResult (fst ir) (dieu (snd ir))
                                        (truncated_text (snd ir)) s)
                         rs similarities)
      else inl ValueError
  end.

(** [self.df["embedding"].values] read through the heap: the column must
    exist.  Whether the column exists is read off the rows, so a table
    without rows is taken to have it, as an empty table read from a cache
    has; the search then fails in [np.vstack] with a ValueError.  An empty
    table without the column, on which pandas raises a KeyError, has no
    counterpart here, and no statement below is about the error of a
    search on a table without rows. *)
Fixpoint embedding_column (h : heap) (t : DataFrame) : exn + list vec :=
  match t with
  | [] => inr []
  | r :: t' =>
      match embedding r with
      | None => inl KeyError
      | Some v =>
          match read_view h v, embedding_column h t' with
          | Some x, inr xs => inr (x :: xs)
          | None, _ => inl KeyError
          | _, inl e => inl e
          end
      end
  end.

(** [finder.df["truncated_text"].tolist()] as the tokenizer accepts it: a
    missing text is not a string. *)
Fixpoint text_column (t : DataFrame) : exn + list string :=
  match t with
  | [] => inr []
  | r :: t' =>
      match truncated_text r, text_column t' with
      | Some x, inr xs => inr (x :: xs)
      | None, _ => inl ValueError
      | _, inl e => inl e
      end
  end.

(** [finder.df["embedding"] = list(finder.embeddings)]: row [i] of the
    frame receives the view [embeddings[i]] of the buffer at [l]; the
    lengths must agree. *)
Definition assign_embedding (l n : nat) (t : DataFrame) : exn + DataFrame :=
  if (length t =? n)%nat
  then inr (imap (fun i r => mkArticle (dieu r) (truncated_text r) (Some (mkView l i))) t)
  else inl ValueError.

(** Command-line arguments of [main]. *)
Record Args : Type := mkArgs {
  data_file : string;
  cache_file : string;
  batch_size : Z;
  use_faiss : bool }.

Section LegalDocumentFinder.

(** The tokenizer followed by the PhoBERT model in inference mode, on a
    batch of texts: [outputs.last_hidden_state[:, 0, :]], one [CLS] row
    per text.  A pretrained black box. *)
Variable forward : list string -> matrix.

(** The outcome of [pd.read_csv(path, encoding=...)] on the files at
    hand. *)
Variable pd_read_csv : string -> encoding -> exn + DataFrame.

(** Whether [import faiss] succeeded ([faiss] is the module, or [None]). *)
Variable faiss : bool.

Definition read_csv (file_path : string) (enc : encoding) : M DataFrame :=
  fun s => (pd_read_csv file_path enc, log_read file_path enc s).

(** [load_data]: utf-8-sig first, utf-16 when that raises; then the rows
    with a missing text or identifier are dropped and, of the rows left,
    those that repeat a text. *)
Definition load_data (file_path : string) : M DataFrame :=
  t <- try_except (read_csv file_path Utf8Sig)
                  (fun _ => read_csv file_path Utf16) ;
  ret (drop_duplicates (dropna t)).

(** [batch_encode_texts]: one forward pass per slice of [batch_size]
    texts, the results concatenated. *)
Definition batch_encode_texts (texts : list string) (batch_size : Z)
  : exn + matrix :=
  match Numpy.range_step (length texts) batch_size with
  | inl e => inl e
  | inr starts =>
      Numpy.concatenate
        (map (fun i => forward (Numpy.slice i batch_size texts)) starts)
  end.

(** [cache_embeddings]: the table and the embeddings are pickled to
    [cache_path]. *)
Definition cache_embeddings (cache_path : string) : M unit :=
  s <- get ;
  modify (set_files
            (<[cache_path := Pickle.dump (mem s) (df s) (embeddings s)]> (files s))).

(** [load_cached_embeddings]: when the file exists both fields are
    replaced by its contents. *)
Definition load_cached_embeddings (cache_path : string) : M bool :=
  s <- get ;
  match files s !! cache_path with
  | Some b =>
      let '(t, e, h) := Pickle.load (mem s) b in
      _ <- modify (set_mem h) ;
      _ <- modify (set_df t) ;
      _ <- modify (set_embeddings e) ;
      ret true
  | None => ret false
  end.

(** [build_index]: with faiss imported and embeddings present, a flat L2
    index is created, the embeddings buffer is normalized in place and
    a copy of it is added to the index; otherwise nothing happens. *)
Definition build_index : M unit :=
  s <- get ;
  match faiss, embeddings s with
  | true, Some l =>
      match mem s !! l with
      | None => raise TypeError   (* no such buffer: not a program state *)
      | Some m =>
          let idx := Faiss.mkIndex (length (hd [] m)) [] in
          _ <- modify (set_index (Some idx)) ;
          let m' := Faiss.normalize_L2 m in
          _ <- modify (set_mem (<[l := m']> (mem s))) ;
          modify (set_index (Some (Faiss.add idx m')))
      end
  | _, _ => ret tt
  end.

(** [encode_text]: the forward pass on the single text, squeezed to a
    1-D array. *)
Definition encode_text (text : string) : vec := hd [] (forward [text]).

(** The [else] branch of [find_similar_articles]: exact cosine search
    over the embedding column of the table. *)
Definition exact_search (input_embedding : vec) (top_k : Z)
  : M (list R * list Z) :=
  s <- get ;
  t <- the_df TypeError ;
  col <- lift (embedding_column (mem s) t) ;
  mat <- lift (Numpy.stack col) ;
  similarities <- lift (Sklearn.cosine_similarity input_embedding mat) ;
  let top_indices :=
    Numpy.slice_to top_k (Numpy.flip (Numpy.argsort similarities)) in
  ret (Numpy.take_idx similarities top_indices, map Z.of_nat top_indices).

(** The [if] branch: search of the FAISS index with the normalized
    query. *)
Definition index_search (idx : Faiss.IndexFlatL2) (input_norm : Numpy.frow)
    (top_k : Z)
  : M (list R * list Z) :=
  ' (distances, indices) <- lift (Faiss.search idx input_norm top_k) ;
  ret (map faiss_similarity distances, indices).

Definition find_similar_articles (input_text : string) (top_k : Z)
  : M (list Result) :=
  let input_embedding := encode_text input_text in
  let input_norm := Numpy.divide_by_norm input_embedding in
  s <- get ;
  ' (similarities, top_indices) <-
    match index s with
    | Some idx => index_search idx input_norm top_k
    | None => exact_search input_embedding top_k
    end ;
  t <- the_df AttributeError ;
  lift (assemble t top_indices similarities).

(** [main], with the demo query as an argument (each copy of [main] has
    its own constant); printing is left out and the results are
    returned. *)
Definition main (args : Args) (demo_text : string) : M (list Result) :=
  t <- load_data (data_file args) ;
  _ <- modify (set_df (Some t)) ;
  hit <- load_cached_embeddings (cache_file args) ;
  _ <- (if hit then ret tt
        else
          t <- the_df TypeError ;
          all_texts <- lift (text_column t) ;
          m <- lift (batch_encode_texts all_texts (batch_size args)) ;
          l <- alloc m ;
          _ <- modify (set_embeddings (Some l)) ;
          t' <- lift (assign_embedding l (length m) t) ;
          _ <- modify (set_df (Some t')) ;
          cache_embeddings (cache_file args)) ;
  _ <- (if use_faiss args then build_index else ret tt) ;
  find_similar_articles demo_text 5.

End LegalDocumentFinder.

(** The table of [s] has an embedding column that reads as [col] through
    the heap: at least one vector, all of dimension [dim]. *)
Definition corpus_rows (s : state) (t : DataFrame) (col : matrix) (dim : nat) : Prop :=
  df s = Some t /\
  embedding_column (mem s) t = inr col /\
  col <> [] /\
  Forall (fun v => length v = dim) col.

(** The scores of the exact strategy: the cosine similarity of the query
    with every row, in row order. *)
Definition exact_scores (q : vec) (col : matrix) : list R := map (cosine q) col.

(** The embedding cells of the table are rows of the buffer at [l], as
    [finder.df["embedding"] = list(finder.embeddings)] leaves them. *)
Definition views_into (l : nat) (t : DataFrame) : Prop :=
  Forall (fun r => exists i, embedding r = Some (mkView l i)) t.

(** The corpus a state holds, by value: the fields of every article with
    the embedding vector its cell reads, and the embedding matrix. *)
Definition corpus_value (s : state)
  : option (list (cell * cell * option vec)) * option matrix :=
  (option_map
     (map (fun r => (dieu r, truncated_text r,
                     match embedding r with
                     | Some v => read_view (mem s) v
                     | None => None
                     end)))
     (df s),
   match embeddings s with
   | Some l => mem s !! l
   | None => None
   end).

(** The two text columns of a table: what a result row shows of a corpus
    row. *)
Definition table_fields (t : DataFrame) : list (cell * cell) :=
  map (fun r => (dieu r, truncated_text r)) t.

(** The vectors that the embedding cells of a table read through the
    heap, row by row; [None] where a row has no cell. *)
Definition cell_values (h : heap) (t : DataFrame) : list (option vec) :=
  map (fun r => match embedding r with
                | Some v => read_view h v
                | None => None
                end) t.

(** The rows of a table that a rule keeps, the rule seeing the rows
    before the one it judges. *)
Fixpoint keep_rows (keep : list Article -> Article -> bool)
    (earlier : list Article) (t : DataFrame) : DataFrame :=
  match t with
  | [] => []
  | r :: t' =>
      if keep earlier r then r :: keep_rows keep (earlier ++ [r]) t'
      else keep_rows keep (earlier ++ [r]) t'
  end.

(** The rule as the claim words it: a row is kept when it has both fields
    and no earlier row of the table has its text. *)
Definition first_occurrence (earlier : list Article) (r : Article) : bool :=
  complete r &&
  negb (existsb (fun r' => bool_decide (truncated_text r' = truncated_text r)) earlier).

(** The rule of [dropna(...).drop_duplicates(...)]: a row is kept when it
    has both fields and no earlier row that has both fields has its
    text. *)
Definition first_complete_occurrence (earlier : list Article) (r : Article) : bool :=
  complete r &&
  negb (existsb (fun r' => complete r' &&
                           bool_decide (truncated_text r' = truncated_text r)) earlier).

(* ================================================================= *)
(** ** Small corpora used as examples *)

(** An encoder on two-dimensional vectors. *)
Definition demo_forward (batch : list string) : matrix :=
  map (fun text => if String.eqb text "a" then [1; 0] else [0; 1]) batch.

(** Two articles with different embeddings, no index. *)
Definition demo_state : state :=
  {| mem := [[[1; 0]; [0; 1]]];
     files := ∅;
     reads := [];
     embeddings := Some 0%nat;
     df := Some [mkArticle (Some "Dieu 1") (Some "a") (Some (mkView 0 0));
                 mkArticle (Some "Dieu 2") (Some "b") (Some (mkView 0 1))];
     index := None |}.

(** Two articles with the same embedding, no index. *)
Definition tie_state : state :=
  {| mem := [[[0; 1]; [0; 1]]];
     files := ∅;
     reads := [];
     embeddings := Some 0%nat;
     df := Some [mkArticle (Some "Dieu 1") (Some "x") (Some (mkView 0 0));
                 mkArticle (Some "Dieu 2") (Some "y") (Some (mkView 0 1))];
     index := None |}.

(** [demo_state] after [build_index] with faiss imported. *)
Definition indexed_state : state := snd (build_index true demo_state).

(** A table in which the second row repeats the text of the first, and
    the first has no identifier. *)
Definition dup_table : DataFrame :=
  [mkArticle None (Some "a") None;
   mkArticle (Some "Dieu 2") (Some "a") None].

(** A disk on which every file decodes as utf-8-sig to [dup_table]. *)
Definition dup_csv (file_path : string) (enc : encoding) : exn + DataFrame :=
  inr dup_table.

(** A file of three rows, the third repeating the text of the first, that
    decodes as utf-8-sig. *)
Definition demo_table : DataFrame :=
  [mkArticle (Some "Dieu 1") (Some "a") None;
   mkArticle (Some "Dieu 2") (Some "b") None;
   mkArticle (Some "Dieu 3") (Some "a") None].

Definition demo_csv (file_path : string) (enc : encoding) : exn + DataFrame :=
  inr demo_table.

(** One article whose embedding [2; 0] is not of unit norm, no index. *)
Definition raw_state : state :=
  {| mem := [[[2; 0]]];
     files := ∅;
     reads := [];
     embeddings := Some 0%nat;
     df := Some [mkArticle (Some "Dieu 1") (Some "a") (Some (mkView 0 0))];
     index := None |}.

(** A new finder that restores the cache written from [raw_state], as
    [main] does when the cache file exists. *)
Definition restored_state : state :=
  snd (load_cached_embeddings "cache.pkl"
         (set_files (files (snd (cache_embeddings "cache.pkl" raw_state)))
                    (init [] ∅))).

(** [restored_state] after [build_index] with faiss imported. *)
Definition restored_indexed_state : state := snd (build_index true restored_state).

(* ================================================================= *)
(** ** The script copy (first notebook) *)

Module Script.

(** [np.array(rows)] for a list of 1-D arrays: the rows must be of one
    shape; [np.array([])] is the empty array. *)
Definition np_array (rows : matrix) : exn + matrix :=
  match rows with
  | [] => inr []
  | v :: rows' =>
      if forallb (fun w => length w =? length v)%nat rows' then inr rows
      else inl ValueError
  end.

(** [batch_encode_texts] of the script: the rows of every batch are
    collected with [embeddings.extend] and turned into one array at the
    end. *)
Definition batch_encode_texts (forward : list string -> matrix)
    (texts : list string) (batch_size : Z) : exn + matrix :=
  match Numpy.range_step (length texts) batch_size with
  | inl e => inl e
  | inr starts =>
      np_array (concat (map (fun i => forward (Numpy.slice i batch_size texts)) starts))
  end.

(** [find_similar_articles] of the script: brute force over the embedding
    column of the global table. *)
Definition find_similar_articles (forward : list string -> matrix)
    (input_text : string) (top_k : Z) : M (list Result) :=
  ' (similarities, top_indices) <-
    exact_search (encode_text forward input_text) top_k ;
  t <- the_df AttributeError ;
  lift (assemble t top_indices similarities).

(** Steps 2 to 8 of the script: the table is loaded and cleaned, all
    texts are encoded with the batch size 32 and stored in the table, and
    the demo query is answered.  The globals [df] and [embeddings] are the
    fields of the state. *)
Definition run (forward : list string -> matrix)
    (read : string -> encoding -> exn + DataFrame)
    (file_path demo_text : string) : M (list Result) :=
  t <- load_data read file_path ;
  _ <- modify (set_df (Some t)) ;
  all_texts <- lift (text_column t) ;
  m <- lift (batch_encode_texts forward all_texts 32) ;
  l <- alloc m ;
  _ <- modify (set_embeddings (Some l)) ;
  t' <- lift (assign_embedding l (length m) t) ;
  _ <- modify (set_df (Some t')) ;
  find_similar_articles forward demo_text 5.

End Script.

(* ================================================================= *)
(** ** The notebook copies: the class whose methods set [self.df] and
    [self.embeddings], with saved state and saved index *)

Module Notebook.

(** The finder together with the faiss index files on disk, which are
    kept apart from the pickle files. *)
Record session : Type := mkSession {
  finder : state;
  index_files : gmap string Faiss.IndexFlatL2 }.

Definition Sess (A : Type) : Type := session -> (exn + A) * session.

Definition sret {A} (a : A) : Sess A := fun w => (inr a, w).
Definition sbind {A B} (m : Sess A) (k : A -> Sess B) : Sess B :=
  fun w => match m w with
           | (inr a, w') => k a w'
           | (inl e, w') => (inl e, w')
           end.

(** A method that acts on the finder and the pickle files only. *)
Definition on_finder {A} (m : M A) : Sess A :=
  fun w => (fst (m (finder w)), mkSession (snd (m (finder w))) (index_files w)).

Declare Scope session_scope.
Notation "x <- m ; k" := (sbind m (fun x => k))
  (at level 20, m at level 100, k at level 200, only parsing) : session_scope.

(** [load_data] of this copy: the cleaned table is also stored in
    [self.df]. *)
Definition load_data (read : string -> encoding -> exn + DataFrame)
    (file_path : string) : M DataFrame :=
  t <- load_data read file_path ;
  _ <- modify (set_df (Some t)) ;
  ret t.

(** [batch_encode_texts] of this copy: the result is also stored in
    [self.embeddings]; the address of the new array is returned. *)
Definition batch_encode_texts (forward : list string -> matrix)
    (texts : list string) (batch_size : Z) : M nat :=
  m <- lift (batch_encode_texts forward texts batch_size) ;
  l <- alloc m ;
  _ <- modify (set_embeddings (Some l)) ;
  ret l.

(** [save_state]: the table and the embeddings are pickled to
    [state_path]. *)
Definition save_state (state_path : string) : M unit :=
  s <- get ;
  modify (set_files
            (<[state_path := Pickle.dump (mem s) (df s) (embeddings s)]> (files s))).

(** [load_state]: when the file exists both fields are replaced by its
    contents; otherwise a warning is logged and nothing changes. *)
Definition load_state (state_path : string) : M unit :=
  s <- get ;
  match files s !! state_path with
  | Some b =>
      let '(t, e, h) := Pickle.load (mem s) b in
      _ <- modify (set_mem h) ;
      _ <- modify (set_df t) ;
      modify (set_embeddings e)
  | None => ret tt
  end.

(** [save_index]: with an index and with faiss imported the index is
    written to [index_path]; otherwise a warning is logged. *)
Definition save_index (faiss : bool) (index_path : string) : Sess unit :=
  fun w =>
    match index (finder w), faiss with
    | Some idx, true =>
        (inr tt, mkSession (finder w) (<[index_path := idx]> (index_files w)))
    | _, _ => (inr tt, w)
    end.

(** [load_index]: when the file exists and faiss is imported, [self.index]
    becomes the index read from it; otherwise a warning is logged. *)
Definition load_index (faiss : bool) (index_path : string) : Sess unit :=
  fun w =>
    match index_files w !! index_path, faiss with
    | Some idx, true =>
        (inr tt, mkSession (set_index (Some idx) (finder w)) (index_files w))
    | _, _ => (inr tt, w)
    end.

(** The first statement of cell 4: the embeddings are taken from the
    cache, or computed, stored in the table and cached. *)
Definition load_or_encode (forward : list string -> matrix)
    (cache_file : string) (batch_size : Z) : M unit :=
  hit <- load_cached_embeddings cache_file ;
  if hit then ret tt
  else
    t <- the_df TypeError ;
    texts <- lift (text_column t) ;
    l <- batch_encode_texts forward texts batch_size ;
    s <- get ;
    t' <- lift (assign_embedding l (length (default [] (mem s !! l))) t) ;
    _ <- modify (set_df (Some t')) ;
    cache_embeddings cache_file.

(** Cells 3 to 5 of the notebook without saved state: load the table,
    take or compute the embeddings, build the index when [use_faiss] is
    set, answer the demo query. *)
Definition search_cells (forward : list string -> matrix)
    (read : string -> encoding -> exn + DataFrame) (faiss : bool)
    (data_file cache_file : string) (batch_size : Z) (use_faiss : bool)
    (demo_text : string) : M (list Result) :=
  _ <- load_data read data_file ;
  _ <- load_or_encode forward cache_file batch_size ;
  _ <- (if use_faiss then build_index faiss else ret tt) ;
  find_similar_articles forward demo_text 5.

(** The files the notebook with saved state names in its third cell. *)
Record Paths : Type := mkPaths {
  p_data : string;
  p_cache : string;
  p_index : string;
  p_state : string }.

(** The four files are different files; the cache and the state, two
    pickle files, may be one. *)
Definition distinct_files (paths : Paths) : Prop :=
  p_data paths <> p_cache paths /\
  p_data paths <> p_index paths /\
  p_data paths <> p_state paths /\
  p_cache paths <> p_index paths /\
  p_state paths <> p_index paths.

Local Open Scope session_scope.

(** Cells 3 and 4 of the notebook with saved state: load the table, take
    or compute the embeddings, build and save the index when [use_faiss]
    is set, save the state. *)
Definition prepare (forward : list string -> matrix)
    (read : string -> encoding -> exn + DataFrame) (faiss : bool)
    (paths : Paths) (batch_size : Z) (use_faiss : bool) : Sess unit :=
  _ <- on_finder (load_data read (p_data paths)) ;
  _ <- on_finder (load_or_encode forward (p_cache paths) batch_size) ;
  _ <- (if use_faiss
        then _ <- on_finder (build_index faiss) ; save_index faiss (p_index paths)
        else sret tt) ;
  on_finder (save_state (p_state paths)).

End Notebook.

(** A session whose finder is [indexed_state], after [save_index] and
    [save_state] as in cell 4, and a new session on the files it left. *)
Definition saved_session : Notebook.session :=
  snd (Notebook.on_finder (Notebook.save_state "custom_state.pkl")
         (snd (Notebook.save_index true "faiss_index.bin"
                 (Notebook.mkSession indexed_state ∅)))).

Definition new_session : Notebook.session :=
  Notebook.mkSession
    (set_files (files (Notebook.finder saved_session)) (init [] ∅))
    (Notebook.index_files saved_session).

(** The session after cells 3 and 4 on the three-row file, with the file
    names of the notebook, and a new session on the files it left. *)
Definition demo_paths : Notebook.Paths :=
  Notebook.mkPaths "corpus.csv" "embeddings_cache.pkl" "faiss_index.bin"
    "custom_state.pkl".

Definition prepared_session : Notebook.session :=
  snd (Notebook.prepare demo_forward demo_csv true demo_paths 32 true
         (Notebook.mkSession (init [] ∅) ∅)).

Definition restoring_session : Notebook.session :=
  Notebook.mkSession
    (set_files (files (Notebook.finder prepared_session)) (init [] ∅))
    (Notebook.index_files prepared_session).

(* ================================================================= *)
(** ** The library models on small inputs *)

Example slice_to_positive : Numpy.slice_to 2 [7; 8; 9]%nat = [7; 8]%nat.
Proof. reflexivity. Qed.

Example slice_to_beyond : Numpy.slice_to 5 [7; 8; 9]%nat = [7; 8; 9]%nat.
Proof. reflexivity. Qed.

Example slice_to_negative : Numpy.slice_to (-1) [7; 8; 9]%nat = [7; 8]%nat.
Proof. reflexivity. Qed.

Example range_step_7_3 : Numpy.range_step 7 3 = inr [0; 3; 6]%nat.
Proof. reflexivity. Qed.

Example range_step_6_3 : Numpy.range_step 6 3 = inr [0; 3]%nat.
Proof. reflexivity. Qed.

Example range_step_zero : Numpy.range_step 7 0 = inl ValueError.
Proof. reflexivity. Qed.

Example iloc_pos_last_row : iloc_pos 2 (-1) = Some 1%nat.
Proof. reflexivity. Qed.

Example iloc_pos_out_of_bounds : iloc_pos 2 2 = None /\ iloc_pos 2 (-3) = None.
Proof. split; reflexivity. Qed.

Example drop_duplicates_keeps_first :
  drop_duplicates
    [mkArticle (Some "Dieu 1") (Some "a") None;
     mkArticle (Some "Dieu 2") (Some "b") None;
     mkArticle (Some "Dieu 3") (Some "a") None]
  = [mkArticle (Some "Dieu 1") (Some "a") None;
     mkArticle (Some "Dieu 2") (Some "b") None].
Proof. reflexivity. Qed.

Example batch_encode_two_by_two :
  batch_encode_texts demo_forward ["a"; "b"; "c"] 2 = inr [[1; 0]; [0; 1]; [0; 1]].
Proof. reflexivity. Qed.

Example batch_encode_no_texts :
  batch_encode_texts demo_forward [] 32 = inl ValueError.
Proof. reflexivity. Qed.

Example search_before_load :
  fst (find_similar_articles demo_forward "a" 5 (init [] ∅)) = inl TypeError.
Proof. reflexivity. Qed.

(* ================================================================= *)
(** ** Vector algebra *)




(* ================================================================= *)
(** ** Ranking: argsort, reversal, slicing *)

Section Ranking.

Variable key : nat -> R.

Lemma asc_by_trans i j k : asc_by key i j -> asc_by key j k -> asc_by key i k.
Proof. unfold asc_by. intros [H1|[H1 L1]] [H2|[H2 L2]]; try (left; lra). right. split; [lra|lia]. Qed.

Lemma insert_by_perm i l : Permutation (Numpy.insert_by key i l) (i :: l).
Proof.
  induction l as [|j l IH]; simpl; [reflexivity|].
  destruct (Rle_dec (key i) (key j)); [reflexivity|].
  rewrite IH. apply perm_swap.
Qed.

Lemma insert_by_sorted i l :
  StronglySorted (asc_by key) l ->
  Forall (fun j => (i < j)%nat) l ->
  StronglySorted (asc_by key) (Numpy.insert_by key i l).
Proof.
  induction l as [|j l IH]; simpl; intros Hs Hlt.
  - repeat constructor.
  - apply StronglySorted_inv in Hs as [Hs Hj].
    inversion Hlt as [|? ? Hij Hl]; subst.
    destruct (Rle_dec (key i) (key j)) as [Hle|Hnle].
    + assert (Hasc : asc_by key i j).
      { destruct Hle as [Hl'|He]; [left; exact Hl'|right; split; [exact He|exact Hij]]. }
      constructor; [constructor; assumption|].
      constructor; [exact Hasc|].
      eapply Forall_impl; [exact Hj|]. intros x Hx. simpl in Hx.
      eapply asc_by_trans; eassumption.
    + constructor; [apply IH; assumption|].
      eapply Permutation_Forall; [symmetry; apply insert_by_perm|].
      constructor; [left; lra|exact Hj].
Qed.

Lemma sort_seq_spec s n :
  Permutation (fold_right (Numpy.insert_by key) [] (seq s n)) (seq s n) /\
  StronglySorted (asc_by key) (fold_right (Numpy.insert_by key) [] (seq s n)).
Proof.
  revert s. induction n as [|n IH]; intros s; simpl.
  - split; [reflexivity|constructor].
  - destruct (IH (S s)) as [Hp Hs]. split.
    + rewrite insert_by_perm. constructor. exact Hp.
    + apply insert_by_sorted; [exact Hs|].
      eapply Permutation_Forall; [symmetry; exact Hp|].
      apply Forall_forall. intros x Hx. apply elem_of_seq in Hx. lia.
Qed.

End Ranking.

Lemma StronglySorted_rev {A} (Rel : A -> A -> Prop) (l : list A) :
  StronglySorted Rel l -> StronglySorted (fun x y => Rel y x) (rev l).
Proof.
  induction 1 as [|a l Hs IH Ha]; simpl; [constructor|].
  apply StronglySorted_app. split; [|split; [exact IH|]].
  2:{ constructor; constructor. }
  intros x1 x2 H1 H2. apply list_elem_of_singleton in H2 as ->.
  rewrite Forall_forall in Ha. apply Ha.
  apply list_elem_of_In, in_rev, list_elem_of_In. exact H1.
Qed.

Lemma StronglySorted_firstn {A} (Rel : A -> A -> Prop) (n : nat) (l : list A) :
  StronglySorted Rel l -> StronglySorted Rel (firstn n l).
Proof.
  intros H. rewrite <- (firstn_skipn n l) in H.
  eapply StronglySorted_app_1_l; exact H.
Qed.

Lemma StronglySorted_weaken {A} (R1 R2 : A -> A -> Prop) (l : list A) :
  (forall x y, R1 x y -> R2 x y) ->
  StronglySorted R1 l -> StronglySorted R2 l.
Proof.
  intros Himp. induction 1 as [|a l Hs IH Ha]; constructor; [exact IH|].
  eapply Forall_impl; [exact Ha|]. intros y. apply Himp.
Qed.

Lemma argsort_perm (a : list R) :
  Permutation (Numpy.argsort a) (seq 0 (length a)).
Proof. apply sort_seq_spec. Qed.

Lemma argsort_sorted (a : list R) :
  StronglySorted (asc_by (fun i => nth i a 0)) (Numpy.argsort a).
Proof. apply sort_seq_spec. Qed.

Lemma slice_to_firstn {A} (k : Z) (l : list A) :
  exists n, Numpy.slice_to k l = firstn n l.
Proof. unfold Numpy.slice_to. destruct (0 <=? k)%Z; eauto. Qed.

Lemma slice_to_all {A} (k : Z) (l : list A) :
  (Z.of_nat (length l) <= k)%Z -> Numpy.slice_to k l = l.
Proof.
  intros H. unfold Numpy.slice_to.
  destruct (Z.leb_spec 0 k); [|lia].
  apply firstn_all2. lia.
Qed.

Lemma slice_to_length {A} (k : Z) (l : list A) :
  (0 <= k)%Z -> length (Numpy.slice_to k l) = Nat.min (Z.to_nat k) (length l).
Proof.
  intros H. unfold Numpy.slice_to.
  destruct (Z.leb_spec 0 k); [|lia]. apply length_firstn.
Qed.

(** The top indices of the exact search are ranked by descending score,
    equal scores by descending index, and are distinct row indices. *)
Lemma top_indices_sorted (sims : list R) (k : Z) :
  StronglySorted (desc_by (fun i => nth i sims 0))
    (Numpy.slice_to k (Numpy.flip (Numpy.argsort sims))).
Proof.
  destruct (slice_to_firstn k (Numpy.flip (Numpy.argsort sims))) as [n ->].
  apply StronglySorted_firstn. unfold Numpy.flip, desc_by.
  apply (StronglySorted_rev (asc_by (fun i => nth i sims 0))).
  apply argsort_sorted.
Qed.

Lemma top_indices_in_range (sims : list R) (k : Z) :
  Forall (fun i => (i < length sims)%nat)
    (Numpy.slice_to k (Numpy.flip (Numpy.argsort sims))).
Proof.
  destruct (slice_to_firstn k (Numpy.flip (Numpy.argsort sims))) as [n ->].
  apply Forall_take. unfold Numpy.flip.
  apply Forall_forall. intros x Hx. apply list_elem_of_In, in_rev in Hx.
  eapply Permutation_in in Hx; [|apply argsort_perm].
  apply in_seq in Hx. lia.
Qed.

(* ================================================================= *)
(** ** Cosine similarity as scikit-learn computes it *)

Lemma dot_self_nonneg (x : vec) : 0 <= dot x x.
Proof. induction x as [|c x IH]; simpl; [lra|nra]. Qed.

Lemma dot_self_zero (x y : vec) : dot x x = 0 -> dot x y = 0.
Proof.
  revert y. induction x as [|c x IH]; intros y H; simpl in *; [reflexivity|].
  destruct y as [|e y]; [reflexivity|].
  pose proof (dot_self_nonneg x) as Hx.
  assert (Hc : c = 0) by nra.
  assert (Hd : dot x x = 0) by nra.
  rewrite (IH y Hd), Hc. ring.
Qed.

Lemma dot_comm (x y : vec) : dot x y = dot y x.
Proof.
  revert y. induction x as [|c x IH]; intros [|e y]; simpl; try reflexivity.
  rewrite (IH y). ring.
Qed.

Lemma norm_zero_dot (x y : vec) : norm x = 0 -> dot x y = 0.
Proof.
  unfold norm. intros H. apply dot_self_zero.
  apply sqrt_eq_0; [apply dot_self_nonneg|exact H].
Qed.

Lemma dot_div (n m : R) (x y : vec) :
  dot (map (fun c => c / n) x) (map (fun c => c / m) y) = dot x y * (/ n * / m).
Proof.
  revert y. induction x as [|c x IH]; intros [|e y]; simpl; try ring.
  rewrite IH. unfold Rdiv. ring.
Qed.

(** The entries of [cosine_similarity] are the cosine similarities of the
    specification, also for zero vectors (both sides are 0 there). *)
Lemma sklearn_cosine (x y : vec) :
  dot (Sklearn.normalize x) (Sklearn.normalize y) = cosine x y.
Proof.
  unfold Sklearn.normalize, cosine. rewrite dot_div.
  unfold Rdiv. rewrite Rinv_mult.
  destruct (Req_dec_T (norm x) 0) as [Hx|Hx].
  { rewrite (norm_zero_dot x y Hx). ring. }
  destruct (Req_dec_T (norm y) 0) as [Hy|Hy].
  { rewrite dot_comm, (norm_zero_dot y x Hy). ring. }
  reflexivity.
Qed.

(* ================================================================= *)
(** ** Result assembly *)

Lemma iloc_pos_lt (n : nat) (p : Z) (i : nat) :
  iloc_pos n p = Some i -> (i < n)%nat.
Proof.
  unfold iloc_pos.
  destruct ((0 <=? p)%Z && (p <? Z.of_nat n)%Z) eqn:E1.
  { intros [= <-]. apply andb_true_iff in E1 as [H1 H2]. lia. }
  destruct ((- Z.of_nat n <=? p)%Z && (p <? 0)%Z) eqn:E2; [|discriminate].
  intros [= <-]. apply andb_true_iff in E2 as [H1 H2]. lia.
Qed.

Lemma iloc_pos_of_nat (n i : nat) :
  (i < n)%nat -> iloc_pos n (Z.of_nat i) = Some i.
Proof.
  intros H. unfold iloc_pos.
  replace ((0 <=? Z.of_nat i)%Z && (Z.of_nat i <? Z.of_nat n)%Z) with true.
  - f_equal. lia.
  - symmetry. apply andb_true_iff. split; lia.
Qed.

Lemma iloc_ok (t : DataFrame) (ps : list Z) :
  Forall (fun p => is_Some (iloc_pos (length t) p)) ps ->
  exists rs,
    Pandas.iloc t ps = inr rs /\
    map (fun ir => Some (fst ir)) rs = map (iloc_pos (length t)) ps /\
    Forall (fun ir => t !! fst ir = Some (snd ir)) rs.
Proof.
  induction 1 as [|p ps [i Hi] _ (rs & Hrs & Hmap & Hall)]; cbn [Pandas.iloc].
  - exists []. repeat split; constructor.
  - rewrite Hi, Hrs.
    destruct (lookup_lt_is_Some_2 t i (iloc_pos_lt _ _ _ Hi)) as [r Hr].
    rewrite Hr. exists ((i, r) :: rs). simpl. rewrite Hmap, Hi.
    repeat split. constructor; [exact Hr|exact Hall].
Qed.

Lemma zip_results (rs : list (nat * Article)) (sims : list R) :
  length rs = length sims ->
  let results :=
    zip_with (fun ir s => mkResult (fst ir) (dieu (snd ir))
                            (truncated_text (snd ir)) s) rs sims in
  map label results = map fst rs /\
  map similarity results = sims /\
  Forall2 (fun r ir => res_dieu r = dieu (snd ir) /\
                       res_truncated_text r = truncated_text (snd ir))
          results rs.
Proof.
  revert sims. induction rs as [|ir rs IH]; intros [|x sims] Hlen;
    simpl in *; try discriminate.
  - repeat split; constructor.
  - destruct (IH sims) as (H1 & H2 & H3); [congruence|].
    rewrite H1, H2. repeat split. constructor; [split; reflexivity|exact H3].
Qed.

(** Assembly succeeds when every position is within bounds and the score
    column has the length of the selection; result [j] then carries the
    row at position [j] of the selection and score [j]. *)
Lemma assemble_ok (t : DataFrame) (ps : list Z) (sims : list R) :
  Forall (fun p => is_Some (iloc_pos (length t) p)) ps ->
  length sims = length ps ->
  exists results,
    assemble t ps sims = inr results /\
    map (fun r => Some (label r)) results = map (iloc_pos (length t)) ps /\
    map similarity results = sims /\
    Forall (fun r => exists a, t !! label r = Some a /\
                               res_dieu r = dieu a /\
                               res_truncated_text r = truncated_text a) results.
Proof.
  intros Hps Hlen.
  destruct (iloc_ok t ps Hps) as (rs & Hrs & Hmap & Hall).
  assert (Hl : length rs = length sims).
  { rewrite Hlen, <- (length_map (iloc_pos (length t)) ps), <- Hmap.
    symmetry. apply length_map. }
  unfold assemble. rewrite Hrs.
  rewrite (proj2 (Nat.eqb_eq _ _) Hl).
  destruct (zip_results rs sims Hl) as (H1 & H2 & H3).
  eexists. split; [reflexivity|]. repeat split.
  - rewrite <- Hmap, <- (map_map fst Some), <- H1, map_map. reflexivity.
  - exact H2.
  - clear - H3 Hall H1.
    revert H3 Hall H1. generalize (zip_with (fun ir s => mkResult (fst ir) (dieu (snd ir))
                            (truncated_text (snd ir)) s) rs sims).
    intros results H3. induction H3 as [|r ir results rs [Ha Hb] _ IH];
      intros Hall H1; [constructor|].
    inversion Hall; subst. simpl in H1. injection H1 as H1 H1'.
    constructor; [|apply IH; assumption].
    exists (snd ir). rewrite H1. auto.
Qed.

(* ================================================================= *)
(** ** The exact strategy *)

Lemma embedding_column_length (h : heap) (t : DataFrame) (col : matrix) :
  embedding_column h t = inr col -> length col = length t.
Proof.
  revert col. induction t as [|r t IH]; simpl; intros col H.
  - injection H as <-. reflexivity.
  - destruct (embedding r) as [v|]; [|discriminate].
    destruct (read_view h v) as [x|]; [|discriminate].
    destruct (embedding_column h t) as [e|xs]; [discriminate|].
    injection H as <-. simpl. f_equal. apply IH. reflexivity.
Qed.

Lemma forallb_length (dim : nat) (col : matrix) :
  Forall (fun v => length v = dim) col ->
  forallb (fun w => (length w =? dim)%nat) col = true.
Proof.
  induction 1 as [|v col Hv _ IH]; simpl; [reflexivity|].
  rewrite IH, (proj2 (Nat.eqb_eq _ _) Hv). reflexivity.
Qed.

Lemma stack_ok (dim : nat) (col : matrix) :
  col <> [] -> Forall (fun v => length v = dim) col -> Numpy.stack col = inr col.
Proof.
  intros Hne Hall. destruct col as [|v col]; [congruence|].
  inversion Hall as [|? ? Hv Hcol]; subst. simpl.
  rewrite forallb_length; [reflexivity|exact Hcol].
Qed.

Lemma cosine_similarity_ok (q : vec) (col : matrix) :
  Forall (fun v => length v = length q) col ->
  Sklearn.cosine_similarity q col = inr (exact_scores q col).
Proof.
  intros Hall. unfold Sklearn.cosine_similarity.
  rewrite forallb_length by exact Hall. f_equal.
  apply map_ext. intros y. apply sklearn_cosine.
Qed.

Lemma exact_search_run (q : vec) (k : Z) (s : state) (t : DataFrame) (col : matrix) :
  corpus_rows s t col (length q) ->
  let top := Numpy.slice_to k (Numpy.flip (Numpy.argsort (exact_scores q col))) in
  exact_search q k s =
    (inr (Numpy.take_idx (exact_scores q col) top, map Z.of_nat top), s).
Proof.
  intros (Hdf & Hcol & Hne & Hall) top.
  unfold exact_search, bind, get, the_df, lift, ret.
  rewrite Hdf, Hcol, (stack_ok (length q) col Hne Hall).
  rewrite (cosine_similarity_ok q col Hall). reflexivity.
Qed.

Lemma map_eq_Forall {A B} (f g : A -> B) (l : list A) :
  map f l = map g l -> Forall (fun x => f x = g x) l.
Proof.
  induction l as [|x l IH]; simpl; intros H; [constructor|].
  injection H as H1 H2. constructor; auto.
Qed.

Lemma sorted_results (key : nat -> R) (results : list Result) :
  map similarity results = map key (map label results) ->
  StronglySorted (desc_by key) (map label results) ->
  StronglySorted ranked_before results.
Proof.
  induction results as [|r rs IH]; simpl; intros Hsim Hs; [constructor|].
  injection Hsim as Hr Hrs.
  apply StronglySorted_inv in Hs as [Hs Hall].
  constructor; [apply IH; assumption|].
  rewrite map_map in Hrs. apply map_eq_Forall in Hrs.
  rewrite List.Forall_map in Hall.
  eapply Forall_impl; [apply Forall_and; split; [exact Hrs|exact Hall]|].
  intros r' [Hk Hd]. simpl in *. unfold ranked_before.
  rewrite Hr, Hk. destruct Hd as [Hd|[Hd Hl]]; [left; lra|right; split; [lra|lia]].
Qed.

(** What the exact strategy returns, for every [top_k]: the rows at the
    top indices, each with its cosine score, ranked by [ranked_before]. *)
Lemma find_similar_exact forward (text : string) (k : Z) (s : state)
    (t : DataFrame) (col : matrix) :
  index s = None ->
  corpus_rows s t col (length (encode_text forward text)) ->
  let scores := exact_scores (encode_text forward text) col in
  let top := Numpy.slice_to k (Numpy.flip (Numpy.argsort scores)) in
  exists results,
    find_similar_articles forward text k s = (inr results, s) /\
    map label results = top /\
    map similarity results = Numpy.take_idx scores top /\
    Forall (fun r => exists a, t !! label r = Some a /\
                               res_dieu r = dieu a /\
                               res_truncated_text r = truncated_text a) results.
Proof.
  intros Hidx Hc scores top.
  pose proof (exact_search_run _ k s t col Hc) as Hrun. cbv zeta in Hrun.
  destruct Hc as (Hdf & Hcol & Hne & Hall).
  assert (Hlen : length scores = length t).
  { unfold scores, exact_scores. rewrite length_map.
    eapply embedding_column_length; exact Hcol. }
  destruct (assemble_ok t (map Z.of_nat top) (Numpy.take_idx scores top))
    as (results & Hasm & Hlab & Hsim & Hrows).
  { apply Forall_fmap. eapply Forall_impl; [apply (top_indices_in_range scores k)|].
    intros i Hi. simpl in *. rewrite iloc_pos_of_nat; [eauto|]. lia. }
  { unfold Numpy.take_idx. rewrite !length_map. reflexivity. }
  exists results. split; [|split; [|split]]; [|..|exact Hrows].
  - unfold find_similar_articles, bind, get. rewrite Hidx.
    fold scores top in Hrun. rewrite Hrun.
    unfold the_df, lift. rewrite Hdf, Hasm. reflexivity.
  - rewrite map_map in Hlab.
    assert (Htop : map (fun i => iloc_pos (length t) (Z.of_nat i)) top = map Some top).
    { apply map_ext_in. intros i Hi. apply iloc_pos_of_nat.
      pose proof (top_indices_in_range scores k) as Hr. fold top in Hr.
      rewrite Forall_forall in Hr. rewrite <- Hlen. apply Hr.
      apply list_elem_of_In. exact Hi. }
    rewrite Htop, <- (map_map label Some) in Hlab.
    clear - Hlab. revert Hlab. generalize (map label results).
    induction top as [|i top IH]; intros [|j l] H; simpl in *;
      try discriminate; [reflexivity|].
    injection H as -> H. f_equal. apply IH. exact H.
  - exact Hsim.
Qed.

Lemma take_idx_scores (q : vec) (col : matrix) (results : list Result) :
  Forall (fun i => (i < length col)%nat) (map label results) ->
  map similarity results =
    Numpy.take_idx (exact_scores q col) (map label results) ->
  Forall (fun r => exists v, col !! label r = Some v /\
                             similarity r = cosine q v) results.
Proof.
  unfold Numpy.take_idx. rewrite map_map, List.Forall_map.
  intros Hin Hsim. apply map_eq_Forall in Hsim.
  eapply Forall_impl; [apply Forall_and; split; [exact Hin|exact Hsim]|].
  intros r [Hlt ->]. simpl in *.
  destruct (lookup_lt_is_Some_2 col (label r) Hlt) as [v Hv].
  exists v. split; [exact Hv|].
  unfold exact_scores.
  erewrite nth_lookup_Some; [reflexivity|].
  rewrite list_lookup_fmap, Hv. reflexivity.
Qed.

Lemma ranked_before_ge (results : list Result) :
  StronglySorted ranked_before results ->
  StronglySorted (fun r1 r2 => similarity r1 >= similarity r2) results.
Proof.
  induction 1 as [|r rs Hs IH Hr]; constructor; [exact IH|].
  eapply Forall_impl; [exact Hr|].
  intros r' [H|[H _]]; simpl; lra.
Qed.

(** The ranking of the exact strategy, for every [top_k]. *)
Lemma exact_results_ranked forward (text : string) (k : Z) (s : state)
    (t : DataFrame) (col : matrix) :
  index s = None ->
  corpus_rows s t col (length (encode_text forward text)) ->
  exists results,
    find_similar_articles forward text k s = (inr results, s) /\
    map label results =
      Numpy.slice_to k (Numpy.flip (Numpy.argsort
        (exact_scores (encode_text forward text) col))) /\
    Forall (fun r => exists a, t !! label r = Some a /\
                               res_dieu r = dieu a /\
                               res_truncated_text r = truncated_text a) results /\
    Forall (fun r => exists v, col !! label r = Some v /\
                               similarity r = cosine (encode_text forward text) v)
           results /\
    StronglySorted ranked_before results.
Proof.
  intros Hidx Hc.
  destruct (find_similar_exact forward text k s t col Hidx Hc)
    as (results & Hrun & Hlab & Hsim & Hrows).
  cbv zeta in Hlab, Hsim.
  exists results. split; [exact Hrun|]. split; [exact Hlab|].
  split; [exact Hrows|].
  rewrite <- Hlab in Hsim. split.
  - apply take_idx_scores; [|exact Hsim].
    rewrite Hlab.
    pose proof (top_indices_in_range (exact_scores (encode_text forward text) col) k) as H.
    unfold exact_scores in H at 1. rewrite length_map in H. exact H.
  - apply (sorted_results (fun i => nth i (exact_scores (encode_text forward text) col) 0)).
    + exact Hsim.
    + rewrite Hlab. apply top_indices_sorted.
Qed.

(** C1: without an index, on a corpus of N embedding rows and with
    [top_k >= N], [find_similar_articles] returns N results, the labels of
    which are the row indices 0 .. N-1, each once; every result carries
    the two text columns of its row and the cosine similarity of the query
    vector and the embedding of its row, and the results are in order of
    non-increasing similarity. *)
Theorem exact_search_full_ranking forward (text : string) (k : Z) (s : state)
    (t : DataFrame) (col : matrix) :
  index s = None ->
  corpus_rows s t col (length (encode_text forward text)) ->
  (Z.of_nat (length col) <= k)%Z ->
  exists results,
    find_similar_articles forward text k s = (inr results, s) /\
    length results = length col /\
    Permutation (map label results) (seq 0 (length col)) /\
    Forall (fun r => exists a, t !! label r = Some a /\
                               res_dieu r = dieu a /\
                               res_truncated_text r = truncated_text a) results /\
    Forall (fun r => exists v, col !! label r = Some v /\
                               similarity r = cosine (encode_text forward text) v)
           results /\
    StronglySorted (fun r1 r2 => similarity r1 >= similarity r2) results.
Proof.
  intros Hidx Hc Hk.
  destruct (exact_results_ranked forward text k s t col Hidx Hc)
    as (results & Hrun & Hlab & Hrows & Hsim & Hsorted).
  assert (Hperm : Permutation (map label results) (seq 0 (length col))).
  { rewrite Hlab, slice_to_all.
    - unfold Numpy.flip. rewrite <- Permutation_rev, argsort_perm.
      unfold exact_scores. rewrite length_map. reflexivity.
    - unfold Numpy.flip. rewrite length_rev, (Permutation_length (argsort_perm _)).
      rewrite length_seq. unfold exact_scores. rewrite length_map. exact Hk. }
  exists results. split; [exact Hrun|].
  split; [|split; [exact Hperm|split; [exact Hrows|split]]].
  - rewrite <- (length_map label results), (Permutation_length Hperm).
    apply length_seq.
  - exact Hsim.
  - apply ranked_before_ge. exact Hsorted.
Qed.

Lemma exact_search_full_ranking_witness :
  exists results,
    find_similar_articles demo_forward "a" 5 demo_state = (inr results, demo_state) /\
    length results = 2%nat /\
    Permutation (map label results) [0; 1]%nat /\
    Forall (fun r => exists a,
              [mkArticle (Some "Dieu 1") (Some "a") (Some (mkView 0 0));
               mkArticle (Some "Dieu 2") (Some "b") (Some (mkView 0 1))]
                !! label r = Some a /\
              res_dieu r = dieu a /\
              res_truncated_text r = truncated_text a) results /\
    Forall (fun r => exists v, [[1; 0]; [0; 1]] !! label r = Some v /\
                               similarity r = cosine [1; 0] v)
           results /\
    StronglySorted (fun r1 r2 => similarity r1 >= similarity r2) results.
Proof.
  apply (exact_search_full_ranking demo_forward "a" 5 demo_state
           [mkArticle (Some "Dieu 1") (Some "a") (Some (mkView 0 0));
            mkArticle (Some "Dieu 2") (Some "b") (Some (mkView 0 1))]
           [[1; 0]; [0; 1]]).
  - reflexivity.
  - split; [reflexivity|]. split; [reflexivity|]. split; [discriminate|].
    repeat constructor.
  - simpl. lia.
Defined.

(** C3 (as the code has it): [np.argsort] returns a permutation of the
    row indices along which the scores do not decrease, and leaves the
    order of equal scores open.  For every [top_k] the exact strategy
    returns results that carry the cosine similarity of their row, in
    order of non-increasing similarity; and whichever such permutation
    [np.argsort] returns, its reversal cut at [top_k] is in order of
    non-increasing score.  No order of the rows of equal similarity
    follows, and it is not the order of the rows. *)
Theorem exact_search_ranked_by_similarity forward (text : string) (k : Z)
    (s : state) (t : DataFrame) (col : matrix) :
  index s = None ->
  corpus_rows s t col (length (encode_text forward text)) ->
  let scores := exact_scores (encode_text forward text) col in
  Numpy.is_argsort scores (Numpy.argsort scores) /\
  (exists results,
     find_similar_articles forward text k s = (inr results, s) /\
     Forall (fun r => exists v, col !! label r = Some v /\
                                similarity r = cosine (encode_text forward text) v)
            results /\
     StronglySorted (fun r1 r2 => similarity r1 >= similarity r2) results) /\
  (forall idx, Numpy.is_argsort scores idx ->
     StronglySorted (fun i j => nth i scores 0 >= nth j scores 0)
       (Numpy.slice_to k (Numpy.flip idx))).
Proof.
  intros Hidx Hc scores. split; [|split].
  - split; [apply argsort_perm|].
    eapply StronglySorted_weaken; [|apply argsort_sorted].
    intros i j [H|[H _]]; simpl in *; fold scores in H; lra.
  - destruct (exact_results_ranked forward text k s t col Hidx Hc)
      as (results & Hrun & _ & _ & Hsim & Hsorted).
    exists results. split; [exact Hrun|]. split; [exact Hsim|].
    apply ranked_before_ge. exact Hsorted.
  - intros idx [_ Hasc].
    destruct (slice_to_firstn k (Numpy.flip idx)) as [n ->].
    apply StronglySorted_firstn. unfold Numpy.flip.
    eapply StronglySorted_weaken; [|apply StronglySorted_rev; exact Hasc].
    intros i j H. simpl in H. lra.
Qed.

Lemma exact_search_ranked_by_similarity_witness :
  let scores := exact_scores (encode_text demo_forward "q") [[0; 1]; [0; 1]] in
  Numpy.is_argsort scores (Numpy.argsort scores) /\
  (exists results,
     find_similar_articles demo_forward "q" 5 tie_state = (inr results, tie_state) /\
     Forall (fun r => exists v, [[0; 1]; [0; 1]] !! label r = Some v /\
                                similarity r = cosine (encode_text demo_forward "q") v)
            results /\
     StronglySorted (fun r1 r2 => similarity r1 >= similarity r2) results) /\
  (forall idx, Numpy.is_argsort scores idx ->
     StronglySorted (fun i j => nth i scores 0 >= nth j scores 0)
       (Numpy.slice_to 5 (Numpy.flip idx))).
Proof.
  apply (exact_search_ranked_by_similarity demo_forward "q" 5 tie_state
           [mkArticle (Some "Dieu 1") (Some "x") (Some (mkView 0 0));
            mkArticle (Some "Dieu 2") (Some "y") (Some (mkView 0 1))]
           [[0; 1]; [0; 1]]).
  - reflexivity.
  - split; [reflexivity|]. split; [reflexivity|]. split; [discriminate|].
    repeat constructor.
Defined.

(** C3 as stated fails: rows 0 and 1 of [tie_state] have the same
    embedding, hence the same cosine similarity to any query, and row 1 is
    ranked before row 0. *)
Lemma exact_search_tie_counterexample :
  exists r1 r0,
    find_similar_articles demo_forward "q" 5 tie_state = (inr [r1; r0], tie_state) /\
    similarity r1 = similarity r0 /\
    label r1 = 1%nat /\ label r0 = 0%nat /\
    ~ ties_in_row_order [r1; r0].
Proof.
  destruct (exact_results_ranked demo_forward "q" 5 tie_state
              [mkArticle (Some "Dieu 1") (Some "x") (Some (mkView 0 0));
               mkArticle (Some "Dieu 2") (Some "y") (Some (mkView 0 1))]
              [[0; 1]; [0; 1]])
    as (results & Hrun & Hlab & _ & Hsim & _).
  { reflexivity. }
  { split; [reflexivity|]. split; [reflexivity|]. split; [discriminate|].
    repeat constructor. }
  unfold exact_scores, Numpy.argsort in Hlab. simpl in Hlab.
  destruct (Rle_dec _ _) as [_|Hn] in Hlab; [|exfalso; apply Hn; lra].
  destruct results as [|r1 [|r0 [|]]]; try discriminate Hlab.
  injection Hlab as H1 H0.
  inversion Hsim as [|? ? (v1 & Hv1 & Hs1) Hsim']; subst.
  inversion Hsim' as [|? ? (v0 & Hv0 & Hs0) _]; subst.
  rewrite H1 in Hv1. rewrite H0 in Hv0.
  injection Hv1 as <-. injection Hv0 as <-.
  assert (Heq : similarity r1 = similarity r0) by congruence.
  exists r1, r0. repeat split; try assumption.
  intros Hclaim.
  specialize (Hclaim [] r1 [] r0 [] eq_refl Heq). lia.
Qed.

(* ================================================================= *)
(** ** The approximate strategy *)

Lemma argsort_length (a : list R) : length (Numpy.argsort a) = length a.
Proof. rewrite (Permutation_length (argsort_perm a)). apply length_seq. Qed.

Lemma iloc_pos_last (n : nat) :
  n <> 0%nat -> iloc_pos n (-1) = Some (n - 1)%nat.
Proof.
  intros Hn. unfold iloc_pos.
  replace ((0 <=? -1)%Z && (-1 <? Z.of_nat n)%Z) with false by reflexivity.
  replace ((- Z.of_nat n <=? -1)%Z && (-1 <? 0)%Z) with true.
  - f_equal. lia.
  - symmetry. apply andb_true_iff. split; lia.
Qed.

Lemma map_repeat_Forall {A B} (f : A -> B) (c : B) (n : nat) (l : list A) :
  map f l = repeat c n -> Forall (fun x => f x = c) l.
Proof.
  revert n. induction l as [|x l IH]; intros [|n] H; simpl in *;
    try discriminate; constructor.
  - congruence.
  - injection H as _ H. eapply IH, H.
Qed.

Lemma divide_by_norm_dim (x : vec) :
  Numpy.frow_dim (Numpy.divide_by_norm x) = length x.
Proof.
  destruct x as [|c x]; [reflexivity|]. unfold Numpy.divide_by_norm.
  destruct (Req_dec_T _ 0); simpl; [reflexivity|].
  rewrite length_map. reflexivity.
Qed.

(** A row that is not zero is divided by its norm. *)
Lemma divide_by_norm_finite (x : vec) :
  0 < dot x x ->
  Numpy.divide_by_norm x = Numpy.Finite (map (fun c => c / norm x) x).
Proof.
  intros H. destruct x as [|c x]; [reflexivity|]. unfold Numpy.divide_by_norm.
  destruct (Req_dec_T (norm (c :: x)) 0) as [Hz|_]; [|reflexivity].
  exfalso. unfold norm in Hz. pose proof (sqrt_lt_R0 _ H). lra.
Qed.

(** A zero row becomes a row of NaN. *)
Lemma divide_by_norm_nan (x : vec) :
  x <> [] -> dot x x = 0 -> Numpy.divide_by_norm x = Numpy.NaNs (length x).
Proof.
  intros Hne H. destruct x as [|c x]; [congruence|]. unfold Numpy.divide_by_norm.
  destruct (Req_dec_T (norm (c :: x)) 0) as [_|Hn]; [reflexivity|].
  exfalso. apply Hn. unfold norm. rewrite H. apply sqrt_0.
Qed.

Lemma divide_by_norm_Finite_inv (x q : vec) :
  Numpy.divide_by_norm x = Numpy.Finite q ->
  q = map (fun c => c / norm x) x /\ (x = [] \/ 0 < dot x x).
Proof.
  destruct x as [|c x]; [intros [= <-]; split; [reflexivity|left; reflexivity]|].
  unfold Numpy.divide_by_norm.
  destruct (Req_dec_T (norm (c :: x)) 0) as [Hz|Hn]; [discriminate|].
  intros [= <-]. split; [reflexivity|]. right.
  pose proof (dot_self_nonneg (c :: x)) as H0.
  destruct (Req_dec_T (dot (c :: x) (c :: x)) 0) as [Hd|Hd]; [|lra].
  exfalso. apply Hn. unfold norm. rewrite Hd. apply sqrt_0.
Qed.

Lemma divide_by_norm_cases (x : vec) :
  Numpy.divide_by_norm x = Numpy.Finite (map (fun c => c / norm x) x) \/
  Numpy.divide_by_norm x = Numpy.NaNs (length x).
Proof.
  destruct x as [|c x]; [left; reflexivity|]. unfold Numpy.divide_by_norm.
  destruct (Req_dec_T (norm (c :: x)) 0); [right|left]; reflexivity.
Qed.

Lemma faiss_search_ok (idx : Faiss.IndexFlatL2) (q : vec) (k : Z) :
  (0 < k)%Z -> length q = Faiss.d idx ->
  let dis := map (Faiss.l2sqr q) (Faiss.xb idx) in
  let order := firstn (Z.to_nat k) (Numpy.argsort dis) in
  let pad := (Z.to_nat k - length order)%nat in
  Faiss.search idx (Numpy.Finite q) k =
    inr (Numpy.take_idx dis order ++ repeat Faiss.FLT_MAX pad,
         map Z.of_nat order ++ repeat (-1)%Z pad).
Proof.
  intros Hk Hd. unfold Faiss.search.
  destruct (Z.leb_spec k 0); [lia|].
  cbn [Numpy.frow_dim].
  rewrite (proj2 (Nat.eqb_eq _ _) Hd). reflexivity.
Qed.

Lemma faiss_search_nan (idx : Faiss.IndexFlatL2) (n : nat) (k : Z) :
  (0 < k)%Z -> n = Faiss.d idx ->
  Faiss.search idx (Numpy.NaNs n) k =
    inr (repeat Faiss.FLT_MAX (Z.to_nat k), repeat (-1)%Z (Z.to_nat k)).
Proof.
  intros Hk Hd. unfold Faiss.search.
  destruct (Z.leb_spec k 0); [lia|].
  cbn [Numpy.frow_dim].
  rewrite (proj2 (Nat.eqb_eq _ _) Hd). reflexivity.
Qed.

(** What the approximate strategy returns for a positive [top_k]: the
    nearest rows by ascending distance, then, when the index holds fewer
    than [top_k] vectors, the last row of the table once for every missing
    neighbour. *)
Lemma find_similar_index forward (text : string) (k : Z) (s : state)
    (idx : Faiss.IndexFlatL2) (t : DataFrame) :
  index s = Some idx ->
  df s = Some t ->
  t <> [] ->
  (length (Faiss.xb idx) <= length t)%nat ->
  (0 < k)%Z ->
  length (encode_text forward text) = Faiss.d idx ->
  Numpy.divide_by_norm (encode_text forward text)
    = Numpy.Finite (map (fun c => c / norm (encode_text forward text))
                        (encode_text forward text)) ->
  let e := encode_text forward text in
  let dis := map (Faiss.l2sqr (map (fun c => c / norm e) e)) (Faiss.xb idx) in
  let order := firstn (Z.to_nat k) (Numpy.argsort dis) in
  let pad := (Z.to_nat k - length order)%nat in
  exists results,
    find_similar_articles forward text k s = (inr results, s) /\
    map (fun r => Some (label r)) results =
      map Some order ++ repeat (Some (length t - 1)%nat) pad /\
    map similarity results =
      map faiss_similarity (Numpy.take_idx dis order ++ repeat Faiss.FLT_MAX pad) /\
    Forall (fun r => exists a, t !! label r = Some a /\
                               res_dieu r = dieu a /\
                               res_truncated_text r = truncated_text a) results.
Proof.
  intros Hidx Hdf Hne Hxb Hk Hd Hfin e dis order pad.
  assert (Hq : length (map (fun c => c / norm e) e) = Faiss.d idx)
    by (rewrite length_map; exact Hd).
  pose proof (faiss_search_ok idx _ k Hk Hq) as Hsearch. cbv zeta in Hsearch.
  fold dis order pad in Hsearch.
  assert (Horder : Forall (fun i => (i < length t)%nat) order).
  { apply Forall_take, Forall_forall. intros i Hi.
    apply list_elem_of_In in Hi.
    eapply Permutation_in in Hi; [|apply argsort_perm].
    apply in_seq in Hi. unfold dis in Hi. rewrite length_map in Hi. lia. }
  assert (Hn : length t <> 0%nat) by (destruct t; [congruence|discriminate]).
  assert (Hpos : map (iloc_pos (length t)) (map Z.of_nat order ++ repeat (-1)%Z pad)
                 = map Some order ++ repeat (Some (length t - 1)%nat) pad).
  { rewrite map_app, map_map. f_equal.
    - apply map_ext_in. intros i Hi. apply iloc_pos_of_nat.
      rewrite Forall_forall in Horder. apply Horder, list_elem_of_In, Hi.
    - rewrite map_repeat, iloc_pos_last by exact Hn. reflexivity. }
  destruct (assemble_ok t (map Z.of_nat order ++ repeat (-1)%Z pad)
              (map faiss_similarity
                 (Numpy.take_idx dis order ++ repeat Faiss.FLT_MAX pad)))
    as (results & Hasm & Hlab & Hsim & Hrows).
  { rewrite Forall_forall. intros p Hp.
    apply list_elem_of_In, (in_map (iloc_pos (length t))) in Hp.
    rewrite Hpos in Hp. apply in_app_or in Hp as [Hp|Hp].
    - apply in_map_iff in Hp as (i & <- & _). eauto.
    - apply repeat_spec in Hp as ->. eauto. }
  { unfold Numpy.take_idx. rewrite length_map, !length_app, !length_map, !repeat_length.
    reflexivity. }
  exists results. split; [|split; [|split]].
  - unfold find_similar_articles, bind, get. rewrite Hidx.
    unfold index_search, bind, lift. rewrite Hfin. fold e. rewrite Hsearch.
    unfold ret, the_df. rewrite Hdf, Hasm. reflexivity.
  - rewrite Hlab. exact Hpos.
  - exact Hsim.
  - exact Hrows.
Qed.

(** For a query whose embedding is zero the index finds no neighbour:
    every result is the last row of the table, selected by the label
    [-1], with the score [1 - FLT_MAX / 2]. *)
Lemma find_similar_index_nan forward (text : string) (k : Z) (s : state)
    (idx : Faiss.IndexFlatL2) (t : DataFrame) :
  index s = Some idx ->
  df s = Some t ->
  t <> [] ->
  (0 < k)%Z ->
  length (encode_text forward text) = Faiss.d idx ->
  Numpy.divide_by_norm (encode_text forward text)
    = Numpy.NaNs (length (encode_text forward text)) ->
  exists results,
    find_similar_articles forward text k s = (inr results, s) /\
    length results = Z.to_nat k /\
    Forall (fun r => label r = (length t - 1)%nat /\
                     similarity r = faiss_similarity Faiss.FLT_MAX) results /\
    Forall (fun r => exists a, t !! label r = Some a /\
                               res_dieu r = dieu a /\
                               res_truncated_text r = truncated_text a) results.
Proof.
  intros Hidx Hdf Hne Hk Hd Hnan.
  pose proof (faiss_search_nan idx _ k Hk Hd) as Hsearch.
  assert (Hn : length t <> 0%nat) by (destruct t; [congruence|discriminate]).
  assert (Hpos : map (iloc_pos (length t)) (repeat (-1)%Z (Z.to_nat k))
                 = repeat (Some (length t - 1)%nat) (Z.to_nat k)).
  { rewrite map_repeat, iloc_pos_last by exact Hn. reflexivity. }
  destruct (assemble_ok t (repeat (-1)%Z (Z.to_nat k))
              (map faiss_similarity (repeat Faiss.FLT_MAX (Z.to_nat k))))
    as (results & Hasm & Hlab & Hsim & Hrows).
  { rewrite Forall_forall. intros p Hp.
    apply list_elem_of_In, repeat_spec in Hp as ->.
    rewrite iloc_pos_last by exact Hn. eauto. }
  { rewrite length_map, !repeat_length. reflexivity. }
  exists results. split; [|split; [|split]].
  - unfold find_similar_articles, bind, get. rewrite Hidx.
    unfold index_search, bind, lift. rewrite Hnan, Hsearch.
    unfold ret, the_df. rewrite Hdf, Hasm. reflexivity.
  - apply (f_equal (@length _)) in Hlab.
    rewrite !length_map, repeat_length in Hlab. exact Hlab.
  - rewrite Hpos in Hlab. rewrite map_repeat in Hsim.
    apply map_repeat_Forall in Hlab, Hsim.
    rewrite Forall_forall in Hlab, Hsim |- *. intros r Hr.
    split; [|apply Hsim, Hr].
    specialize (Hlab r Hr). simpl in Hlab. congruence.
  - exact Hrows.
Qed.


(** Without an index, a non-negative [top_k] yields min(top_k, N)
    results. *)
Lemma exact_search_length forward (text : string) (k : Z) (s : state)
    (t : DataFrame) (col : matrix) :
  index s = None ->
  corpus_rows s t col (length (encode_text forward text)) ->
  (0 <= k)%Z ->
  exists results,
    find_similar_articles forward text k s = (inr results, s) /\
    length results = Nat.min (Z.to_nat k) (length col).
Proof.
  intros Hidx Hc Hk.
  destruct (exact_results_ranked forward text k s t col Hidx Hc)
    as (results & Hrun & Hlab & _).
  exists results. split; [exact Hrun|].
  apply (f_equal (@length _)) in Hlab.
  rewrite length_map, slice_to_length in Hlab by exact Hk.
  unfold Numpy.flip in Hlab. rewrite length_rev, argsort_length in Hlab.
  unfold exact_scores in Hlab. rewrite length_map in Hlab. exact Hlab.
Qed.

Lemma indexed_state_index :
  index indexed_state =
    Some (Faiss.mkIndex 2 (Faiss.normalize_L2 [[1; 0]; [0; 1]])).
Proof. reflexivity. Qed.

Lemma indexed_state_df :
  df indexed_state =
    Some [mkArticle (Some "Dieu 1") (Some "a") (Some (mkView 0 0));
          mkArticle (Some "Dieu 2") (Some "b") (Some (mkView 0 1))].
Proof. reflexivity. Qed.

(** C2 at a failing input: a corpus of two rows with the index built, and
    the default [top_k = 5].  The search returns five rows, not
    min(5, 2) = 2: the three labels [-1] that faiss reports for the missing
    neighbours select the last row of the table, with the score
    [1 - FLT_MAX / 2]. *)
Theorem index_search_pads_beyond_corpus :
  exists r1 r2 r3 r4 r5,
    find_similar_articles demo_forward "a" 5 indexed_state
      = (inr [r1; r2; r3; r4; r5], indexed_state) /\
    option_map (@length Article) (df indexed_state) = Some 2%nat /\
    length [r1; r2; r3; r4; r5] <> Z.to_nat (Z.min 5 2) /\
    Forall (fun r => label r = 1%nat /\
                     res_dieu r = Some "Dieu 2" /\
                     similarity r = faiss_similarity Faiss.FLT_MAX)
           [r3; r4; r5].
Proof.
  destruct (find_similar_index demo_forward "a" 5 indexed_state _ _
              indexed_state_index indexed_state_df)
    as (results & Hrun & Hlab & Hsim & Hrows);
    [discriminate | simpl; lia | lia | reflexivity
     | apply divide_by_norm_finite; simpl; lra |].
  cbv zeta in Hlab, Hsim.
  remember (firstn (Z.to_nat 5) (Numpy.argsort _)) as order eqn:Horder in Hlab, Hsim.
  assert (Hlen : length order = 2%nat).
  { rewrite Horder, length_firstn, argsort_length. reflexivity. }
  destruct order as [|i [|j [|]]]; try discriminate Hlen.
  clear Horder Hlen. simpl in Hlab, Hsim.
  destruct results as [|r1 [|r2 [|r3 [|r4 [|r5 [|]]]]]]; try discriminate Hlab.
  simpl in Hlab. injection Hlab as _ _ H3 H4 H5.
  simpl in Hsim. injection Hsim as _ _ S3 S4 S5.
  exists r1, r2, r3, r4, r5.
  split; [exact Hrun|]. split; [reflexivity|]. split; [simpl; lia|].
  repeat match goal with H : Forall _ (_ :: _) |- _ => inversion H; clear H; subst end.
  repeat constructor; try assumption;
    match goal with
    | H : exists a, _ !! label ?r = Some a /\ _ |- res_dieu ?r = _ =>
        destruct H as (a & Ha & Hd & _); rewrite Hd
    end.
  - rewrite H3 in Ha. injection Ha as <-. reflexivity.
  - rewrite H4 in Ha. injection Ha as <-. reflexivity.
  - rewrite H5 in Ha. injection Ha as <-. reflexivity.
Qed.

(* ================================================================= *)
(** ** build_index *)

Lemma dot_scale (a : R) (x : vec) :
  dot (map (fun c => c * a) x) (map (fun c => c * a) x) = a * a * dot x x.
Proof. induction x as [|c x IH]; simpl; [ring|]. rewrite IH. ring. Qed.


Lemma renorm_unit (x : vec) : 0 < dot x x -> dot (Faiss.renorm x) (Faiss.renorm x) = 1.
Proof.
  intros H. unfold Faiss.renorm. destruct (Rlt_dec 0 (dot x x)); [|contradiction].
  rewrite dot_scale.
  pose proof (sqrt_sqrt (dot x x) (Rlt_le _ _ H)) as Hs.
  pose proof (sqrt_lt_R0 _ H) as Hp.
  replace (1 / sqrt (dot x x) * (1 / sqrt (dot x x)) * dot x x)
    with (dot x x / (sqrt (dot x x) * sqrt (dot x x))) by (field; lra).
  rewrite Hs. field. lra.
Qed.

Lemma renorm_zero (x : vec) : dot x x = 0 -> Faiss.renorm x = x.
Proof.
  intros H. unfold Faiss.renorm. rewrite H.
  destruct (Rlt_dec 0 0); [lra|reflexivity].
Qed.

Lemma build_index_run (s : state) (l : nat) (m : matrix) :
  embeddings s = Some l ->
  mem s !! l = Some m ->
  build_index true s =
    (inr tt,
     set_index (Some (Faiss.mkIndex (length (hd [] m)) (Faiss.normalize_L2 m)))
       (set_mem (<[l := Faiss.normalize_L2 m]> (mem s))
          (set_index (Some (Faiss.mkIndex (length (hd [] m)) [])) s))).
Proof.
  intros He Hm. unfold build_index, bind, get. rewrite He, Hm. reflexivity.
Qed.

Lemma build_index_skip (faiss : bool) (s : state) :
  faiss = false \/ embeddings s = None -> build_index faiss s = (inr tt, s).
Proof.
  intros [->|He]; unfold build_index, bind, get; simpl; [reflexivity|].
  rewrite He. destruct faiss; reflexivity.
Qed.

Lemma embedding_column_renorm (l : nat) (h : heap) (m : matrix) (t : DataFrame) (col : matrix) :
  h !! l = Some m ->
  views_into l t ->
  embedding_column h t = inr col ->
  embedding_column (<[l := Faiss.normalize_L2 m]> h) t = inr (map Faiss.renorm col).
Proof.
  intros Hm Hv. revert col. induction Hv as [|r t [i Hi] _ IH]; simpl; intros col Hcol.
  - injection Hcol as <-. reflexivity.
  - rewrite Hi in *. unfold read_view in *. simpl in *.
    rewrite Hm in Hcol.
    rewrite list_lookup_insert_eq by (eapply lookup_lt_Some; exact Hm).
    destruct (m !! i) as [x|] eqn:Hx; [|discriminate].
    destruct (embedding_column h t) as [e|xs]; [discriminate|].
    injection Hcol as <-. rewrite (IH xs eq_refl).
    unfold Faiss.normalize_L2. rewrite list_lookup_fmap, Hx. reflexivity.
Qed.

Lemma embedding_column_other (l : nat) (h : heap) (m : matrix) (t : DataFrame) :
  Forall (fun r => forall v, embedding r = Some v -> v_base v <> l) t ->
  embedding_column (<[l := m]> h) t = embedding_column h t.
Proof.
  induction 1 as [|r t Hr _ IH]; simpl; [reflexivity|].
  destruct (embedding r) as [v|]; [|reflexivity].
  rewrite IH. unfold read_view.
  rewrite list_lookup_insert_ne by (intros E; apply (Hr v eq_refl); auto).
  reflexivity.
Qed.

(** C10 (as the code has it): with faiss imported and embeddings
    present, [build_index] succeeds and overwrites the embeddings buffer
    with its row-wise L2-normalized contents (every non-zero row then has
    unit norm).  The index holds the normalized rows, and a later
    [cache_embeddings] pickles the normalized matrix.  Every view of the
    buffer reads the normalized row afterwards: a table whose embedding
    cells are such views, as [finder.df["embedding"] =
    list(finder.embeddings)] leaves them, stacks to the normalized matrix.
    A table whose embedding cells are arrays of their own, as
    [load_cached_embeddings] leaves them, reads what it read before. *)
Theorem build_index_normalizes_in_place (s : state) (l : nat) (m : matrix) :
  embeddings s = Some l ->
  mem s !! l = Some m ->
  let s' := snd (build_index true s) in
  fst (build_index true s) = inr tt /\
  embeddings s' = Some l /\
  df s' = df s /\
  mem s' !! l = Some (map Faiss.renorm m) /\
  index s' = Some (Faiss.mkIndex (length (hd [] m)) (map Faiss.renorm m)) /\
  Forall (fun x => 0 < dot x x -> dot (Faiss.renorm x) (Faiss.renorm x) = 1) m /\
  (forall i x, m !! i = Some x ->
     read_view (mem s) (mkView l i) = Some x /\
     read_view (mem s') (mkView l i) = Some (Faiss.renorm x)) /\
  (forall t col, views_into l t ->
     embedding_column (mem s) t = inr col ->
     embedding_column (mem s') t = inr (map Faiss.renorm col)) /\
  (forall t, Forall (fun r => forall v, embedding r = Some v -> v_base v <> l) t ->
     embedding_column (mem s') t = embedding_column (mem s) t) /\
  (forall path,
     Pickle.b_embeddings <$> files (snd (cache_embeddings path s')) !! path
       = Some (Some (map Faiss.renorm m))).
Proof.
  intros He Hm s'. unfold s'. rewrite (build_index_run s l m He Hm). simpl.
  assert (Hl : (l < length (mem s))%nat) by (eapply lookup_lt_Some; exact Hm).
  split; [reflexivity|]. split; [exact He|]. split; [reflexivity|].
  split; [apply list_lookup_insert_eq; exact Hl|]. split; [reflexivity|].
  split; [apply Forall_forall; intros x _; apply renorm_unit|].
  split; [|split; [|split]].
  - intros i x Hx. unfold read_view. simpl. rewrite Hm.
    split; [exact Hx|].
    rewrite list_lookup_insert_eq by exact Hl.
    unfold Faiss.normalize_L2. rewrite list_lookup_fmap, Hx. reflexivity.
  - intros t col Hv Hcol. apply embedding_column_renorm; assumption.
  - intros t Ht. apply embedding_column_other. exact Ht.
  - intros path. unfold cache_embeddings, bind, get, modify. simpl.
    rewrite lookup_insert_eq. simpl. rewrite He.
    rewrite list_lookup_insert_eq by exact Hl. reflexivity.
Qed.

Lemma build_index_normalizes_in_place_witness :
  let s' := snd (build_index true demo_state) in
  fst (build_index true demo_state) = inr tt /\
  embeddings s' = Some 0%nat /\
  df s' = df demo_state /\
  mem s' !! 0%nat = Some (map Faiss.renorm [[1; 0]; [0; 1]]) /\
  index s' = Some (Faiss.mkIndex 2 (map Faiss.renorm [[1; 0]; [0; 1]])) /\
  Forall (fun x => 0 < dot x x -> dot (Faiss.renorm x) (Faiss.renorm x) = 1)
         [[1; 0]; [0; 1]] /\
  (forall i x, [[1; 0]; [0; 1]] !! i = Some x ->
     read_view (mem demo_state) (mkView 0 i) = Some x /\
     read_view (mem s') (mkView 0 i) = Some (Faiss.renorm x)) /\
  (forall t col, views_into 0 t ->
     embedding_column (mem demo_state) t = inr col ->
     embedding_column (mem s') t = inr (map Faiss.renorm col)) /\
  (forall t, Forall (fun r => forall v, embedding r = Some v -> v_base v <> 0%nat) t ->
     embedding_column (mem s') t = embedding_column (mem demo_state) t) /\
  (forall path,
     Pickle.b_embeddings <$> files (snd (cache_embeddings path s')) !! path
       = Some (Some (map Faiss.renorm [[1; 0]; [0; 1]]))).
Proof.
  apply (build_index_normalizes_in_place demo_state 0 [[1; 0]; [0; 1]]).
  - reflexivity.
  - reflexivity.
Defined.

(** C10 as stated fails after a cache hit: the embedding cell of
    [restored_state] is an array of its own (buffer 0), not a view of the
    embeddings buffer (buffer 1).  [build_index] normalizes buffer 1; the
    cell still reads the raw vector [2; 0], which is not of unit norm and
    is not its normalized version. *)
Lemma build_index_after_cache_hit :
  embeddings restored_state = Some 1%nat /\
  df restored_state = Some [mkArticle (Some "Dieu 1") (Some "a") (Some (mkView 0 0))] /\
  fst (build_index true restored_state) = inr tt /\
  mem restored_indexed_state !! 1%nat = Some [Faiss.renorm [2; 0]] /\
  df restored_indexed_state
    = Some [mkArticle (Some "Dieu 1") (Some "a") (Some (mkView 0 0))] /\
  embedding_column (mem restored_indexed_state)
    [mkArticle (Some "Dieu 1") (Some "a") (Some (mkView 0 0))] = inr [[2; 0]] /\
  dot [2; 0] [2; 0] <> 1 /\
  Faiss.renorm [2; 0] <> [2; 0].
Proof.
  repeat (split; [reflexivity|]).
  assert (H4 : dot [2; 0] [2; 0] = 4) by (simpl; ring).
  split; [rewrite H4; lra|].
  intros Heq.
  assert (Hu : dot (Faiss.renorm [2; 0]) (Faiss.renorm [2; 0]) = 1)
    by (apply renorm_unit; rewrite H4; lra).
  rewrite Heq, H4 in Hu. lra.
Qed.

(* ================================================================= *)
(** ** The pickle cache *)

Lemma load_rows_spec (ps : list Pickle.PArticle) (h : heap) :
  exists ext,
    snd (Pickle.load_rows h ps) = h ++ ext /\
    forall ext',
      map (Pickle.dump_row ((h ++ ext) ++ ext')) (fst (Pickle.load_rows h ps)) = ps.
Proof.
  revert h. induction ps as [|p ps IH]; intros h; simpl.
  - exists []. split; [symmetry; apply app_nil_r|reflexivity].
  - destruct p as [pd pt [v|]]; simpl.
    + destruct (IH (h ++ [[v]])) as (ext & Hh & Hrows).
      destruct (Pickle.load_rows (h ++ [[v]]) ps) as [rs h2]. simpl in *.
      exists ([[v]] ++ ext). split; [rewrite Hh, <- app_assoc; reflexivity|].
      intros ext'. f_equal.
      * unfold Pickle.dump_row, read_view. simpl.
        rewrite <- !app_assoc.
        rewrite lookup_app_r by lia. rewrite Nat.sub_diag. reflexivity.
      * specialize (Hrows ext'). rewrite <- !app_assoc in Hrows.
        rewrite <- !app_assoc. exact Hrows.
    + destruct (IH h) as (ext & Hh & Hrows).
      destruct (Pickle.load_rows h ps) as [rs h2]. simpl in *.
      exists ext. split; [exact Hh|].
      intros ext'. f_equal. apply Hrows.
Qed.

(** Loading a blob yields arrays whose pickled form is that blob. *)
Lemma dump_load (h : heap) (b : Pickle.blob) :
  Pickle.dump (Pickle.load h b).2 (Pickle.load h b).1.1 (Pickle.load h b).1.2 = b.
Proof.
  destruct b as [[ps|] bemb]; unfold Pickle.load, Pickle.dump; simpl.
  - destruct (load_rows_spec ps h) as (ext & Hh & Hrows).
    destruct (Pickle.load_rows h ps) as [rs h1]. simpl in *. subst h1.
    destruct bemb as [m|]; simpl.
    + rewrite (Hrows [m]).
      rewrite lookup_app_r by lia. rewrite Nat.sub_diag. reflexivity.
    + specialize (Hrows []). rewrite app_nil_r in Hrows. rewrite Hrows. reflexivity.
  - destruct bemb as [m|]; simpl; [|reflexivity].
    rewrite lookup_app_r by lia. rewrite Nat.sub_diag. reflexivity.
Qed.

Lemma corpus_value_dump (s : state) :
  corpus_value s =
    (option_map
       (map (fun p => (Pickle.p_dieu p, Pickle.p_truncated_text p, Pickle.p_embedding p)))
       (Pickle.b_df (Pickle.dump (mem s) (df s) (embeddings s))),
     Pickle.b_embeddings (Pickle.dump (mem s) (df s) (embeddings s))).
Proof.
  unfold corpus_value, Pickle.dump. simpl. f_equal.
  destruct (df s) as [t|]; simpl; [|reflexivity].
  rewrite map_map. reflexivity.
Qed.

Lemma load_cached_run (path : string) (s : state) (b : Pickle.blob) :
  files s !! path = Some b ->
  load_cached_embeddings path s =
    (inr true,
     set_embeddings (Pickle.load (mem s) b).1.2
       (set_df (Pickle.load (mem s) b).1.1
          (set_mem (Pickle.load (mem s) b).2 s))).
Proof.
  intros Hb. unfold load_cached_embeddings, bind, get. rewrite Hb.
  destruct (Pickle.load (mem s) b) as [[t e] h]. reflexivity.
Qed.

Lemma load_cached_miss (path : string) (s : state) :
  files s !! path = None -> load_cached_embeddings path s = (inr false, s).
Proof.
  intros Hb. unfold load_cached_embeddings, bind, get. rewrite Hb. reflexivity.
Qed.

(** C7: after [cache_embeddings path] in state [s], a finder in any state
    [s0] that sees the written files finds the cache with
    [load_cached_embeddings path], and the corpus it then holds equals the
    corpus of [s] by value: the same [dieu] and [truncated_text] in every
    row, the same embedding vector in every embedding cell, and the same
    embedding matrix. *)
Theorem cache_round_trip (path : string) (s s0 : state) :
  let written := files (snd (cache_embeddings path s)) in
  let restored := load_cached_embeddings path (set_files written s0) in
  fst restored = inr true /\
  corpus_value (snd restored) = corpus_value s.
Proof.
  intros written restored.
  assert (Hb : files (set_files written s0) !! path
               = Some (Pickle.dump (mem s) (df s) (embeddings s))).
  { unfold written, cache_embeddings, bind, get, modify. simpl.
    apply lookup_insert_eq. }
  unfold restored. rewrite (load_cached_run _ _ _ Hb).
  split; [reflexivity|].
  rewrite (corpus_value_dump s), corpus_value_dump.
  cbn [snd mem df embeddings set_embeddings set_df set_mem set_files].
  rewrite dump_load. reflexivity.
Qed.

(* ================================================================= *)
(** ** load_data *)

Lemma load_data_run read (path : string) (s : state) :
  load_data read path s =
    match read path Utf8Sig with
    | inr t => (inr (drop_duplicates (dropna t)), log_read path Utf8Sig s)
    | inl _ =>
        match read path Utf16 with
        | inr t => (inr (drop_duplicates (dropna t)),
                    log_read path Utf16 (log_read path Utf8Sig s))
        | inl e => (inl e, log_read path Utf16 (log_read path Utf8Sig s))
        end
    end.
Proof.
  unfold load_data, bind, try_except, read_csv, ret.
  destruct (read path Utf8Sig) as [e1|t1]; [|reflexivity].
  destruct (read path Utf16) as [e2|t2]; reflexivity.
Qed.

Lemma existsb_seen (seen : list cell) (earlier : list Article) (r : Article) :
  (forall x, x ∈ seen <->
             exists r', r' ∈ earlier /\ complete r' = true /\ truncated_text r' = x) ->
  (truncated_text r ∈ seen <->
   existsb (fun r' => complete r' &&
                      bool_decide (truncated_text r' = truncated_text r)) earlier = true).
Proof.
  intros Hinv. rewrite Hinv, existsb_exists. split.
  - intros (r' & Hin & Hc & Ht). exists r'. split; [apply list_elem_of_In, Hin|].
    rewrite Hc. simpl. apply bool_decide_eq_true. exact Ht.
  - intros (r' & Hin & Hb). apply andb_true_iff in Hb as [Hc Ht].
    apply bool_decide_eq_true in Ht. exists r'.
    split; [apply list_elem_of_In, Hin|]. split; assumption.
Qed.

Lemma drop_duplicates_from_keep (t : DataFrame) (seen : list cell) (earlier : list Article) :
  (forall x, x ∈ seen <->
             exists r', r' ∈ earlier /\ complete r' = true /\ truncated_text r' = x) ->
  drop_duplicates_from seen (dropna t) =
    keep_rows first_complete_occurrence earlier t.
Proof.
  revert seen earlier. induction t as [|r t IH]; intros seen earlier Hinv;
    [reflexivity|].
  unfold dropna. rewrite filter_cons. fold (dropna t).
  cbn [keep_rows]. unfold first_complete_occurrence at 1.
  destruct (decide (complete r = true)) as [Hc|Hc].
  - rewrite Hc. cbn [andb drop_duplicates_from].
    pose proof (existsb_seen seen earlier r Hinv) as Hseen.
    destruct (decide (truncated_text r ∈ seen)) as [Hin|Hin].
    + rewrite (proj1 Hseen Hin). cbn [negb]. apply IH.
      intros x. rewrite Hinv. split.
      * intros (r' & H1 & H2). exists r'. split; [apply elem_of_app; auto|exact H2].
      * intros (r' & H1 & H2 & H3). apply elem_of_app in H1 as [H1|H1]; [eauto|].
        apply list_elem_of_singleton in H1 as ->.
        apply Hinv. rewrite <- H3. exact Hin.
    + destruct (existsb _ earlier) eqn:E; [exfalso; apply Hin, Hseen; reflexivity|].
      cbn [negb]. f_equal. apply IH.
      intros x. rewrite elem_of_cons, Hinv. split.
      * intros [->|(r' & H1 & H2)].
        -- exists r. split; [apply elem_of_app; right; left|auto].
        -- exists r'. split; [apply elem_of_app; auto|exact H2].
      * intros (r' & H1 & H2 & H3). apply elem_of_app in H1 as [H1|H1]; [eauto|].
        apply list_elem_of_singleton in H1 as ->. left. symmetry. exact H3.
  - apply not_true_is_false in Hc. rewrite Hc. cbn [andb]. apply IH.
    intros x. rewrite Hinv. split.
    + intros (r' & H1 & H2). exists r'. split; [apply elem_of_app; auto|exact H2].
    + intros (r' & H1 & H2 & H3). apply elem_of_app in H1 as [H1|H1]; [eauto|].
      apply list_elem_of_singleton in H1 as ->. congruence.
Qed.

Lemma keep_rows_sublist keep (earlier : list Article) (t : DataFrame) :
  keep_rows keep earlier t `sublist_of` t.
Proof.
  revert earlier. induction t as [|r t IH]; intros earlier; simpl; [constructor|].
  destruct (keep earlier r); [apply sublist_skip|apply sublist_cons]; apply IH.
Qed.

(** C5 (as the code has it): of the table that was read, [load_data]
    returns exactly the rows that have both the text and the identifier
    and whose text occurs in no earlier row that has both fields, in the
    order of the file. *)
Theorem load_data_keeps_first_complete_occurrences read (path : string)
    (s : state) (t : DataFrame) :
  fst (try_except (read_csv read path Utf8Sig)
                  (fun _ => read_csv read path Utf16) s) = inr t ->
  fst (load_data read path s) = inr (keep_rows first_complete_occurrence [] t) /\
  keep_rows first_complete_occurrence [] t `sublist_of` t.
Proof.
  intros Hread. split; [|apply keep_rows_sublist].
  unfold load_data, bind, ret.
  destruct (try_except _ _ s) as [[e|t'] s']; simpl in Hread; [discriminate|].
  injection Hread as ->. simpl. f_equal.
  apply drop_duplicates_from_keep.
  intros x. split.
  - intros H. inversion H.
  - intros (r' & H & _). inversion H.
Qed.

Lemma load_data_keeps_first_complete_occurrences_witness :
  fst (load_data dup_csv "corpus.csv" (init [] ∅))
    = inr (keep_rows first_complete_occurrence [] dup_table) /\
  keep_rows first_complete_occurrence [] dup_table `sublist_of` dup_table.
Proof.
  apply (load_data_keeps_first_complete_occurrences dup_csv "corpus.csv"
           (init [] ∅) dup_table).
  reflexivity.
Defined.

(** C5 as stated fails on [dup_table]: the text of the second row
    duplicates the text of the first row, which has no identifier.
    [dropna] removes the first row before [drop_duplicates] looks, so the
    second row is returned although an earlier row has its text. *)
Lemma load_data_duplicate_of_dropped_row :
  fst (load_data dup_csv "corpus.csv" (init [] ∅))
    = inr [mkArticle (Some "Dieu 2") (Some "a") None] /\
  keep_rows first_occurrence [] dup_table = [] /\
  fst (load_data dup_csv "corpus.csv" (init [] ∅))
    <> inr (keep_rows first_occurrence [] dup_table).
Proof.
  split; [reflexivity|]. split; [reflexivity|]. discriminate.
Qed.

(** C8: [load_data] first reads the file as utf-8-sig.  When that read
    raises, it reads the file once more, as utf-16, and no third time; when
    this second read raises too, its exception leaves [load_data].  Nothing
    but the log of reads changes in the state, and [main] started on a
    fresh finder then ends with that exception and without a table or
    embeddings. *)
Theorem load_data_encoding_fallback forward read (faiss : bool) (path : string)
    (s : state) (args : Args) (demo_text : string)
    (h : heap) (fs : gmap string Pickle.blob) :
  load_data read path s =
    match read path Utf8Sig with
    | inr t => (inr (drop_duplicates (dropna t)), log_read path Utf8Sig s)
    | inl _ =>
        match read path Utf16 with
        | inr t => (inr (drop_duplicates (dropna t)),
                    log_read path Utf16 (log_read path Utf8Sig s))
        | inl e => (inl e, log_read path Utf16 (log_read path Utf8Sig s))
        end
    end /\
  match read (data_file args) Utf8Sig, read (data_file args) Utf16 with
  | inl _, inl e =>
      let final := main forward read faiss args demo_text (init h fs) in
      fst final = inl e /\
      df (snd final) = None /\
      embeddings (snd final) = None /\
      index (snd final) = None /\
      reads (snd final) = [(data_file args, Utf8Sig); (data_file args, Utf16)]
  | _, _ => True
  end.
Proof.
  split; [apply load_data_run|].
  destruct (read (data_file args) Utf8Sig) as [e1|t1] eqn:E1; [|exact I].
  destruct (read (data_file args) Utf16) as [e2|t2] eqn:E2; [|exact I].
  unfold main, bind. rewrite load_data_run, E1, E2. simpl.
  repeat split.
Qed.

(* ================================================================= *)
(** ** batch_encode_texts *)

Lemma chunks_concat {A} (b m : nat) (l : list A) :
  (length l <= m * b)%nat ->
  concat (map (fun i => firstn b (skipn i l))
              (map (fun j => (j * b)%nat) (seq 0 m))) = l.
Proof.
  revert l. induction m as [|m IH]; intros l Hlen.
  - destruct l; [reflexivity|simpl in Hlen; lia].
  - cbn [seq map concat]. rewrite <- seq_shift, !map_map.
    transitivity (firstn b l ++ skipn b l); [|apply firstn_skipn].
    f_equal.
    etransitivity; [|apply (IH (skipn b l)); rewrite length_skipn; lia].
    rewrite map_map. f_equal. apply map_ext. intros j.
    rewrite skipn_skipn. do 2 f_equal. lia.
Qed.

Lemma range_step_covers (n : nat) (b : Z) :
  (1 <= b)%Z ->
  exists m, Numpy.range_step n b = inr (map (fun j => (j * Z.to_nat b)%nat) (seq 0 m)) /\
            (n <= m * Z.to_nat b)%nat /\ (n <> 0%nat -> m <> 0%nat).
Proof.
  intros Hb. unfold Numpy.range_step.
  destruct (Z.eqb_spec b 0); [lia|]. destruct (Z.ltb_spec b 0); [lia|].
  exists ((n + Z.to_nat b - 1) / Z.to_nat b)%nat.
  assert (HB : (0 < Z.to_nat b)%nat) by lia.
  split; [reflexivity|]. split.
  - pose proof (Nat.div_mod (n + Z.to_nat b - 1) (Z.to_nat b) ltac:(lia)) as Hd.
    pose proof (Nat.mod_upper_bound (n + Z.to_nat b - 1) (Z.to_nat b) ltac:(lia)) as Hm.
    nia.
  - intros Hn Hz. apply Nat.div_small_iff in Hz; lia.
Qed.

(** With a per-item encoder, every positive batch size gives the rows
    [encode_text] gives, text by text. *)
Lemma batch_encode_texts_map forward (texts : list string) (b : Z) :
  (forall batch, forward batch = map (encode_text forward) batch) ->
  (1 <= b)%Z ->
  texts <> [] ->
  batch_encode_texts forward texts b = inr (map (encode_text forward) texts).
Proof.
  intros Hitem Hb Hne. unfold batch_encode_texts.
  destruct (range_step_covers (length texts) b Hb) as (m & -> & Hcover & Hm).
  assert (Hm' : m <> 0%nat) by (apply Hm; destruct texts; [congruence|discriminate]).
  unfold Numpy.concatenate.
  destruct m as [|m]; [congruence|].
  remember (S m) as m' eqn:Em.
  replace (map (fun i => forward (Numpy.slice i b texts))
               (map (fun j => (j * Z.to_nat b)%nat) (seq 0 m')))
    with (map (map (encode_text forward))
              (map (fun i => firstn (Z.to_nat b) (skipn i texts))
                   (map (fun j => (j * Z.to_nat b)%nat) (seq 0 m')))).
  - rewrite <- concat_map, chunks_concat by exact Hcover.
    subst m'. reflexivity.
  - rewrite !map_map. apply map_ext. intros j. symmetry. apply Hitem.
Qed.

(** C6: when the forward pass treats the texts of a batch one by one (each
    row is what the pass gives for that text alone), [batch_encode_texts]
    returns, for every batch size [b >= 1], one and the same matrix; it has
    a row per text, and row [i] is [encode_text] of text [i]. *)
Theorem batch_encode_matches_encode_text forward (texts : list string)
    (i : nat) (text : string) :
  (forall batch, forward batch = map (encode_text forward) batch) ->
  texts !! i = Some text ->
  exists embeddings,
    (forall b, (1 <= b)%Z -> batch_encode_texts forward texts b = inr embeddings) /\
    length embeddings = length texts /\
    embeddings !! i = Some (encode_text forward text).
Proof.
  intros Hitem Hi.
  exists (map (encode_text forward) texts). split; [|split].
  - intros b Hb. apply batch_encode_texts_map; [exact Hitem|exact Hb|].
    intros ->. discriminate.
  - apply length_map.
  - rewrite list_lookup_fmap, Hi. reflexivity.
Qed.

Lemma batch_encode_matches_encode_text_witness :
  exists embeddings,
    (forall b, (1 <= b)%Z ->
       batch_encode_texts demo_forward ["a"; "b"; "c"] b = inr embeddings) /\
    length embeddings = 3%nat /\
    embeddings !! 1%nat = Some (encode_text demo_forward "b").
Proof.
  apply (batch_encode_matches_encode_text demo_forward ["a"; "b"; "c"] 1 "b").
  - intros batch. reflexivity.
  - reflexivity.
Defined.

(* ================================================================= *)
(** ** The scores of the approximate strategy *)



(* ================================================================= *)
(** ** Aliasing of the embedding column *)

(** After [finder.df["embedding"] = list(finder.embeddings)] every
    embedding cell is a view of the embeddings buffer. *)
Lemma assign_embedding_views (l n : nat) (t t' : DataFrame) :
  assign_embedding l n t = inr t' -> views_into l t'.
Proof.
  unfold assign_embedding. destruct (length t =? n)%nat; [|discriminate].
  intros [= <-]. unfold views_into.
  apply Forall_forall. intros r Hr.
  apply elem_of_lookup_imap in Hr as (i & r0 & -> & _).
  exists i. reflexivity.
Qed.

Lemma p_embedding_cases (p : Pickle.PArticle) :
  (exists v, Pickle.p_embedding p = Some v) \/ Pickle.p_embedding p = None.
Proof. destruct (Pickle.p_embedding p); eauto. Qed.

Lemma load_rows_bases (ps : list Pickle.PArticle) (h : heap) :
  Forall (fun r => forall v, embedding r = Some v ->
                             (v_base v < length (snd (Pickle.load_rows h ps)))%nat)
         (fst (Pickle.load_rows h ps)) /\
  (length h <= length (snd (Pickle.load_rows h ps)))%nat.
Proof.
  revert h. induction ps as [|p ps IH]; intros h; simpl.
  - split; [constructor|lia].
  - destruct (p_embedding_cases p) as [[v Hv]|Hv]; rewrite Hv.
    + destruct (IH (h ++ [[v]])) as [Hall Hlen].
      destruct (Pickle.load_rows (h ++ [[v]]) ps) as [rs h2]. simpl in *.
      rewrite length_app in Hlen. simpl in Hlen.
      split; [|lia]. constructor; [|exact Hall].
      simpl. intros v' [= <-]. simpl. lia.
    + destruct (IH h) as [Hall Hlen].
      destruct (Pickle.load_rows h ps) as [rs h2]. simpl in *.
      split; [|exact Hlen]. constructor; [|exact Hall].
      simpl. intros v' [=].
Qed.

(** The cells of a table restored from the cache are arrays of their own:
    none of them is a view of the restored embeddings buffer, and writing
    that buffer leaves what they read as it is. *)
Lemma restored_rows_not_aliased (h : heap) (b : Pickle.blob)
    (t : DataFrame) (l : nat) (m : matrix) :
  (Pickle.load h b).1.1 = Some t ->
  (Pickle.load h b).1.2 = Some l ->
  Forall (fun r => forall v, embedding r = Some v -> v_base v <> l) t /\
  embedding_column (<[l := m]> (Pickle.load h b).2) t
    = embedding_column (Pickle.load h b).2 t.
Proof.
  intros Ht Hl.
  assert (Hbase : Forall (fun r => forall v, embedding r = Some v -> v_base v <> l) t).
  { destruct b as [[ps|] [m0|]]; unfold Pickle.load in *; simpl in *;
      try discriminate.
    - pose proof (load_rows_bases ps h) as [Hall _].
      destruct (Pickle.load_rows h ps) as [rs h1]. simpl in *.
      injection Ht as <-. injection Hl as <-.
      eapply Forall_impl; [exact Hall|]. intros r Hr v Hv.
      specialize (Hr v Hv). lia.
    - destruct (Pickle.load_rows h ps) as [rs h1]. discriminate. }
  split; [exact Hbase|].
  apply embedding_column_other. exact Hbase.
Qed.

(* ================================================================= *)
(** ** main on a fresh cache *)

Lemma find_similar_articles_state forward (text : string) (k : Z) (s : state) :
  snd (find_similar_articles forward text k s) = s.
Proof.
  unfold find_similar_articles, bind, get. destruct (index s) as [idx|].
  - unfold index_search, bind, lift, ret.
    destruct (Faiss.search _ _ _) as [e|[distances indices]]; [reflexivity|].
    unfold the_df. cbn. destruct (df s); reflexivity.
  - unfold exact_search, bind, get, the_df, lift, ret.
    destruct (df s); [|reflexivity].
    destruct (embedding_column _ _); [reflexivity|].
    destruct (Numpy.stack _); [reflexivity|].
    destruct (Sklearn.cosine_similarity _ _); [reflexivity|].
    cbn. destruct (df s); reflexivity.
Qed.

Lemma dropna_complete (t : DataFrame) : Forall (fun r => complete r = true) (dropna t).
Proof.
  unfold dropna. apply Forall_forall. intros r Hr.
  apply list_elem_of_filter in Hr as [Hc _]. exact Hc.
Qed.

Lemma drop_duplicates_from_Forall (P : Article -> Prop) (seen : list cell) (t : DataFrame) :
  Forall P t -> Forall P (drop_duplicates_from seen t).
Proof.
  intros H. revert seen. induction H as [|r t Hr _ IH]; intros seen; simpl;
    [constructor|].
  destruct (decide (truncated_text r ∈ seen)); [apply IH|].
  constructor; [exact Hr|apply IH].
Qed.

Lemma text_column_complete (t : DataFrame) :
  Forall (fun r => complete r = true) t ->
  exists texts, text_column t = inr texts /\ length texts = length t.
Proof.
  induction 1 as [|r t Hr _ (texts & Ht & Hl)]; simpl.
  - exists []. split; reflexivity.
  - unfold complete in Hr. destruct (truncated_text r) as [x|]; [|discriminate].
    rewrite Ht. exists (x :: texts). simpl. split; [reflexivity|congruence].
Qed.

Lemma embedding_column_imap (l : nat) (h : heap) (m : matrix) (t : DataFrame) :
  h !! l = Some m ->
  length t = length m ->
  embedding_column h
    (imap (fun i r => mkArticle (dieu r) (truncated_text r) (Some (mkView l i))) t)
    = inr m.
Proof.
  intros Hm.
  assert (Hgen : forall (t : DataFrame) (k : nat) (rest : matrix),
             length t = length rest ->
             (forall i x, rest !! i = Some x -> m !! (k + i)%nat = Some x) ->
             embedding_column h
               (imap (fun i r => mkArticle (dieu r) (truncated_text r)
                                   (Some (mkView l (k + i)))) t)
               = inr rest).
  { clear t. induction t as [|r t IH]; intros k rest Hlen Hrest.
    - destruct rest; [reflexivity|discriminate].
    - destruct rest as [|x rest]; [discriminate|].
      simpl. unfold read_view. simpl. rewrite Hm.
      rewrite (Hrest 0%nat x eq_refl).
      rewrite (imap_ext _ (fun i r0 => mkArticle (dieu r0) (truncated_text r0)
                                         (Some (mkView l (S k + i)))) t).
      + rewrite (IH (S k) rest); [reflexivity|simpl in Hlen; lia|].
        intros i y Hy. replace (S k + i)%nat with (k + S i)%nat by lia.
        apply Hrest. exact Hy.
      + intros i r0 _. simpl. do 3 f_equal. lia. }
  intros Hlen. apply (Hgen t 0%nat m); auto.
Qed.

(** X24: [main] on a missing cache file, with the flag [--use_faiss] and
    faiss imported, the file decoding as utf-8-sig and the encoder working
    per item: at the end the cache file holds the raw encoder outputs, the
    embeddings buffer holds their normalized rows, and the embedding
    cells of the table, being views of that buffer, read the normalized
    rows too. *)
Lemma main_fresh_run forward read (args : Args) (demo_text : string)
    (h : heap) (fs : gmap string Pickle.blob) (t0 : DataFrame) :
  (forall batch, forward batch = map (encode_text forward) batch) ->
  read (data_file args) Utf8Sig = inr t0 ->
  drop_duplicates (dropna t0) <> [] ->
  fs !! cache_file args = None ->
  (1 <= batch_size args)%Z ->
  use_faiss args = true ->
  let final := snd (main forward read true args demo_text (init h fs)) in
  exists texts t',
    text_column (drop_duplicates (dropna t0)) = inr texts /\
    embeddings final = Some (length h) /\
    mem final !! length h
      = Some (Faiss.normalize_L2 (map (encode_text forward) texts)) /\
    df final = Some t' /\
    views_into (length h) t' /\
    embedding_column (mem final) t'
      = inr (Faiss.normalize_L2 (map (encode_text forward) texts)) /\
    Pickle.b_embeddings <$> files final !! cache_file args
      = Some (Some (map (encode_text forward) texts)).
Proof.
  intros Hitem Hread Hne Hmiss Hb Hflag final.
  set (t := drop_duplicates (dropna t0)) in *.
  destruct (text_column_complete t) as (texts & Htexts & Hlen).
  { apply drop_duplicates_from_Forall, dropna_complete. }
  assert (Hbatch : batch_encode_texts forward texts (batch_size args)
                   = inr (map (encode_text forward) texts)).
  { apply batch_encode_texts_map; [exact Hitem|exact Hb|].
    intros ->. destruct t; [congruence|discriminate]. }
  set (m := map (encode_text forward) texts) in *.
  assert (Hlm : length t = length m) by (unfold m; rewrite length_map; lia).
  set (t' := imap (fun i r => mkArticle (dieu r) (truncated_text r)
                                (Some (mkView (length h) i))) t).
  exists texts, t'.
  assert (Hfinal : final =
    set_index (Some (Faiss.mkIndex (length (hd [] m)) (Faiss.normalize_L2 m)))
      (set_mem (<[length h := Faiss.normalize_L2 m]> (h ++ [m]))
         {| mem := h ++ [m];
            files := <[cache_file args :=
                         Pickle.dump (h ++ [m]) (Some t') (Some (length h))]> fs;
            reads := [(data_file args, Utf8Sig)];
            embeddings := Some (length h);
            df := Some t';
            index := Some (Faiss.mkIndex (length (hd [] m)) []) |})).
  { unfold final, main, bind.
    rewrite load_data_run, Hread. fold t.
    unfold modify at 1. cbn [fst snd].
    rewrite load_cached_miss by exact Hmiss.
    unfold the_df, lift, alloc, modify, cache_embeddings, bind, get.
    cbn -[build_index find_similar_articles text_column batch_encode_texts
          assign_embedding Pickle.dump].
    rewrite Htexts, Hbatch.
    cbn -[build_index find_similar_articles Pickle.dump assign_embedding].
    unfold assign_embedding. rewrite (proj2 (Nat.eqb_eq _ _) Hlm). fold t'.
    cbn -[build_index find_similar_articles Pickle.dump].
    rewrite Hflag.
    match goal with
    | |- context [build_index true ?s] =>
        rewrite (build_index_run s (length h) m)
    end.
    - rewrite find_similar_articles_state. reflexivity.
    - reflexivity.
    - simpl. rewrite lookup_app_r by lia. rewrite Nat.sub_diag. reflexivity. }
  assert (Hlook : (h ++ [m]) !! length h = Some m).
  { rewrite lookup_app_r by lia. rewrite Nat.sub_diag. reflexivity. }
  assert (Hl : (length h < length (h ++ [m]))%nat)
    by (rewrite length_app; simpl; lia).
  rewrite Hfinal. simpl.
  split; [exact Htexts|]. split; [reflexivity|].
  split; [apply list_lookup_insert_eq; exact Hl|].
  split; [reflexivity|]. split; [|split].
  - eapply (assign_embedding_views (length h) (length m) t).
    unfold assign_embedding. rewrite (proj2 (Nat.eqb_eq _ _) Hlm). reflexivity.
  - apply embedding_column_imap; [|unfold Faiss.normalize_L2; rewrite length_map; exact Hlm].
    apply list_lookup_insert_eq. exact Hl.
  - rewrite lookup_insert_eq. simpl. rewrite Hlook. reflexivity.
Qed.

(** The fresh run on the three-row file, with faiss. *)
Example main_fresh_run_demo :
  let final := snd (main demo_forward demo_csv true
                      (mkArgs "corpus.csv" "cache.pkl" 32 true) "a" (init [] ∅)) in
  exists texts t',
    text_column (drop_duplicates (dropna demo_table)) = inr texts /\
    embeddings final = Some 0%nat /\
    mem final !! 0%nat
      = Some (Faiss.normalize_L2 (map (encode_text demo_forward) texts)) /\
    df final = Some t' /\
    views_into 0 t' /\
    embedding_column (mem final) t'
      = inr (Faiss.normalize_L2 (map (encode_text demo_forward) texts)) /\
    Pickle.b_embeddings <$> files final !! "cache.pkl"
      = Some (Some (map (encode_text demo_forward) texts)).
Proof.
  apply (main_fresh_run demo_forward demo_csv
           (mkArgs "corpus.csv" "cache.pkl" 32 true) "a" [] ∅ demo_table).
  - intros batch. reflexivity.
  - reflexivity.
  - discriminate.
  - reflexivity.
  - simpl. lia.
  - reflexivity.
Defined.

(* ================================================================= *)
(** ** Equal result lists *)

Lemma results_ext (t : DataFrame) (results1 results2 : list Result) :
  map label results1 = map label results2 ->
  map similarity results1 = map similarity results2 ->
  Forall (fun r => exists a, t !! label r = Some a /\
                             res_dieu r = dieu a /\
                             res_truncated_text r = truncated_text a) results1 ->
  Forall (fun r => exists a, t !! label r = Some a /\
                             res_dieu r = dieu a /\
                             res_truncated_text r = truncated_text a) results2 ->
  results1 = results2.
Proof.
  revert results2. induction results1 as [|r1 rs1 IH]; intros [|r2 rs2];
    simpl; try discriminate; [reflexivity|].
  intros [= Hl Hls] [= Hs Hss] H1 H2.
  inversion H1 as [|? ? (a1 & Ha1 & Hd1 & Ht1) H1']; subst.
  inversion H2 as [|? ? (a2 & Ha2 & Hd2 & Ht2) H2']; subst.
  f_equal; [|apply IH; assumption].
  rewrite Hl in Ha1. rewrite Ha1 in Ha2. injection Ha2 as <-.
  destruct r1, r2; simpl in *; congruence.
Qed.

Lemma map_Some_inj {A} (l1 l2 : list A) : map Some l1 = map Some l2 -> l1 = l2.
Proof.
  revert l2. induction l1 as [|x l1 IH]; intros [|y l2] H; simpl in *;
    try discriminate; [reflexivity|].
  injection H as -> H. f_equal. apply IH. exact H.
Qed.

(** X23: [main] on a missing cache file without an index (faiss missing,
    or the flag [--use_faiss] not given), the file decoding as utf-8-sig
    and the encoder working per item with one output dimension: the
    pipeline runs to its end and returns the min(5, N) best rows in order
    of non-increasing similarity. *)
Lemma main_exact_run forward read (faiss : bool) (args : Args) (demo_text : string)
    (h : heap) (fs : gmap string Pickle.blob) (t0 : DataFrame) :
  (forall batch, forward batch = map (encode_text forward) batch) ->
  (forall text, length (encode_text forward text)
                = length (encode_text forward demo_text)) ->
  read (data_file args) Utf8Sig = inr t0 ->
  drop_duplicates (dropna t0) <> [] ->
  fs !! cache_file args = None ->
  (1 <= batch_size args)%Z ->
  faiss = false \/ use_faiss args = false ->
  exists results,
    fst (main forward read faiss args demo_text (init h fs)) = inr results /\
    length results = Nat.min 5 (length (drop_duplicates (dropna t0))) /\
    StronglySorted (fun r1 r2 => similarity r1 >= similarity r2) results.
Proof.
  intros Hitem Hdim Hread Hne Hmiss Hb Hnoindex.
  set (t := drop_duplicates (dropna t0)) in *.
  destruct (text_column_complete t) as (texts & Htexts & Hlen).
  { apply drop_duplicates_from_Forall, dropna_complete. }
  assert (Hbatch : batch_encode_texts forward texts (batch_size args)
                   = inr (map (encode_text forward) texts)).
  { apply batch_encode_texts_map; [exact Hitem|exact Hb|].
    intros ->. destruct t; [congruence|discriminate]. }
  set (m := map (encode_text forward) texts) in *.
  assert (Hlm : length t = length m) by (unfold m; rewrite length_map; lia).
  set (t' := imap (fun i r => mkArticle (dieu r) (truncated_text r)
                                (Some (mkView (length h) i))) t).
  set (pre := {| mem := h ++ [m];
                 files := <[cache_file args :=
                              Pickle.dump (h ++ [m]) (Some t') (Some (length h))]> fs;
                 reads := [(data_file args, Utf8Sig)];
                 embeddings := Some (length h);
                 df := Some t';
                 index := None |}).
  assert (Hmain : main forward read faiss args demo_text (init h fs)
                  = find_similar_articles forward demo_text 5 pre).
  { unfold main, bind.
    rewrite load_data_run, Hread. fold t.
    unfold modify at 1. cbn [fst snd].
    rewrite load_cached_miss by exact Hmiss.
    unfold the_df, lift, alloc, modify, cache_embeddings, bind, get.
    cbn -[build_index find_similar_articles text_column batch_encode_texts
          assign_embedding Pickle.dump].
    rewrite Htexts, Hbatch.
    cbn -[build_index find_similar_articles Pickle.dump assign_embedding].
    unfold assign_embedding. rewrite (proj2 (Nat.eqb_eq _ _) Hlm). fold t'.
    cbn -[build_index find_similar_articles Pickle.dump].
    fold pre.
    destruct Hnoindex as [->| ->].
    - destruct (use_faiss args).
      + rewrite build_index_skip by (left; reflexivity). reflexivity.
      + reflexivity.
    - reflexivity. }
  assert (Hrows : corpus_rows pre t' m (length (encode_text forward demo_text))).
  { split; [reflexivity|]. split; [|split].
    - apply embedding_column_imap; [|exact Hlm].
      simpl. rewrite lookup_app_r by lia. rewrite Nat.sub_diag. reflexivity.
    - intros E. rewrite E in Hlm. destruct t; [congruence|discriminate].
    - unfold m. apply Forall_fmap, Forall_forall. intros text _. apply Hdim. }
  destruct (exact_results_ranked forward demo_text 5 pre t' m eq_refl Hrows)
    as (results & Hrun & _ & _ & _ & Hsorted).
  destruct (exact_search_length forward demo_text 5 pre t' m eq_refl Hrows)
    as (results' & Hrun' & Hlen'); [lia|].
  rewrite Hrun in Hrun'. injection Hrun' as <-.
  exists results. rewrite Hmain, Hrun. split; [reflexivity|].
  split; [rewrite Hlen', <- Hlm; reflexivity|].
  apply ranked_before_ge. exact Hsorted.
Qed.

(** The whole pipeline on the three-row file, without faiss. *)
Example main_exact_run_demo :
  exists results,
    fst (main demo_forward demo_csv false
           (mkArgs "corpus.csv" "cache.pkl" 32 true) "a" (init [] ∅))
      = inr results /\
    length results = 2%nat /\
    StronglySorted (fun r1 r2 => similarity r1 >= similarity r2) results.
Proof.
  apply (main_exact_run demo_forward demo_csv false
           (mkArgs "corpus.csv" "cache.pkl" 32 true) "a" [] ∅ demo_table).
  - intros batch. reflexivity.
  - intros text. unfold encode_text, demo_forward. simpl.
    destruct (String.eqb text "a"); reflexivity.
  - reflexivity.
  - discriminate.
  - reflexivity.
  - simpl. lia.
  - left. reflexivity.
Defined.

(* ================================================================= *)
(** ** Fallback when faiss is missing *)




(* ================================================================= *)
(** ** Further properties of the search *)

(** X1: a search never changes the finder, whether it returns or raises;
    asking the same question again gives the same answer. *)
Theorem search_is_read_only forward (text : string) (k : Z) (s : state) :
  snd (find_similar_articles forward text k s) = s /\
  (_ <- find_similar_articles forward text k ;
   find_similar_articles forward text k) s
    = find_similar_articles forward text k s.
Proof.
  pose proof (find_similar_articles_state forward text k s) as Hs.
  split; [exact Hs|].
  unfold bind at 1.
  destruct (find_similar_articles forward text k s) as [[e|results] s'] eqn:E;
    simpl in Hs; subst s'; [reflexivity|exact E].
Qed.

Lemma flip_argsort_NoDup (a : list R) : NoDup (Numpy.flip (Numpy.argsort a)).
Proof.
  unfold Numpy.flip. rewrite <- Permutation_rev, argsort_perm. apply NoDup_seq.
Qed.

Lemma slice_to_sublist {A} (k : Z) (l : list A) : Numpy.slice_to k l `sublist_of` l.
Proof. destruct (slice_to_firstn k l) as [n ->]. apply sublist_take. Qed.

Lemma slice_to_length_any {A} (k : Z) (l : list A) :
  length (Numpy.slice_to k l)
    = if (0 <=? k)%Z then Nat.min (Z.to_nat k) (length l)
      else (length l - Z.to_nat (- k))%nat.
Proof.
  unfold Numpy.slice_to. destruct (0 <=? k)%Z; rewrite length_firstn; lia.
Qed.

(** X2: without an index, for every [top_k], also a negative one, the
    search returns min(top_k, N) rows when [top_k >= 0] and N - |top_k|
    rows (none when that is negative) otherwise.  No article is returned
    twice, and every result carries the two text columns of the row its
    label names. *)
Theorem exact_search_any_top_k forward (text : string) (k : Z) (s : state)
    (t : DataFrame) (col : matrix) :
  index s = None ->
  corpus_rows s t col (length (encode_text forward text)) ->
  exists results,
    find_similar_articles forward text k s = (inr results, s) /\
    length results
      = (if (0 <=? k)%Z then Nat.min (Z.to_nat k) (length col)
         else (length col - Z.to_nat (- k))%nat) /\
    NoDup (map label results) /\
    Forall (fun r => (label r < length col)%nat) results /\
    Forall (fun r => exists a, t !! label r = Some a /\
                               res_dieu r = dieu a /\
                               res_truncated_text r = truncated_text a) results.
Proof.
  intros Hidx Hc.
  destruct (exact_results_ranked forward text k s t col Hidx Hc)
    as (results & Hrun & Hlab & Hrows & _ & _).
  exists results. split; [exact Hrun|]. split; [|split; [|split; [|exact Hrows]]].
  - rewrite <- (length_map label results), Hlab, slice_to_length_any.
    unfold Numpy.flip. rewrite length_rev, argsort_length.
    unfold exact_scores. rewrite length_map. reflexivity.
  - rewrite Hlab. eapply sublist_NoDup; [apply flip_argsort_NoDup|].
    apply slice_to_sublist.
  - apply (proj1 (List.Forall_map label (fun i => (i < length col)%nat) results)).
    rewrite Hlab.
    pose proof (top_indices_in_range (exact_scores (encode_text forward text) col) k) as H.
    unfold exact_scores in H at 1. rewrite length_map in H. exact H.
Qed.

Lemma exact_search_any_top_k_witness :
  exists results,
    find_similar_articles demo_forward "a" (-1) demo_state = (inr results, demo_state) /\
    length results
      = (if (0 <=? -1)%Z then Nat.min (Z.to_nat (-1)) 2 else (2 - Z.to_nat (- -1))%nat) /\
    NoDup (map label results) /\
    Forall (fun r => (label r < 2)%nat) results /\
    Forall (fun r => exists a,
              [mkArticle (Some "Dieu 1") (Some "a") (Some (mkView 0 0));
               mkArticle (Some "Dieu 2") (Some "b") (Some (mkView 0 1))]
                !! label r = Some a /\
              res_dieu r = dieu a /\
              res_truncated_text r = truncated_text a) results.
Proof.
  apply (exact_search_any_top_k demo_forward "a" (-1) demo_state
           [mkArticle (Some "Dieu 1") (Some "a") (Some (mkView 0 0));
            mkArticle (Some "Dieu 2") (Some "b") (Some (mkView 0 1))]
           [[1; 0]; [0; 1]]).
  - reflexivity.
  - split; [reflexivity|]. split; [reflexivity|]. split; [discriminate|].
    repeat constructor.
Defined.

(** X3: without an index the answer for a smaller [top_k] is the beginning
    of the answer for a larger one. *)
Theorem exact_search_prefix forward (text : string) (k k' : Z) (s : state)
    (t : DataFrame) (col : matrix) :
  index s = None ->
  corpus_rows s t col (length (encode_text forward text)) ->
  (0 <= k <= k')%Z ->
  exists results results',
    find_similar_articles forward text k s = (inr results, s) /\
    find_similar_articles forward text k' s = (inr results', s) /\
    results = firstn (Z.to_nat k) results'.
Proof.
  intros Hidx Hc Hk.
  destruct (find_similar_exact forward text k s t col Hidx Hc)
    as (results & Hrun & Hlab & Hsim & Hrows).
  destruct (find_similar_exact forward text k' s t col Hidx Hc)
    as (results' & Hrun' & Hlab' & Hsim' & Hrows').
  cbv zeta in *.
  exists results, results'. split; [exact Hrun|]. split; [exact Hrun'|].
  set (ranking := Numpy.flip (Numpy.argsort
                    (exact_scores (encode_text forward text) col))) in *.
  assert (Hs : Numpy.slice_to k ranking = firstn (Z.to_nat k) (Numpy.slice_to k' ranking)).
  { unfold Numpy.slice_to.
    destruct (Z.leb_spec 0 k); [|lia]. destruct (Z.leb_spec 0 k'); [|lia].
    rewrite take_take. f_equal. lia. }
  apply (results_ext t).
  - rewrite Hlab, Hs, <- Hlab'. apply firstn_map.
  - rewrite Hsim, Hs, <- firstn_map, Hsim'. unfold Numpy.take_idx.
    symmetry. apply firstn_map.
  - exact Hrows.
  - apply Forall_take. exact Hrows'.
Qed.

Lemma exact_search_prefix_witness :
  exists results results',
    find_similar_articles demo_forward "a" 1 demo_state = (inr results, demo_state) /\
    find_similar_articles demo_forward "a" 2 demo_state = (inr results', demo_state) /\
    results = firstn (Z.to_nat 1) results'.
Proof.
  apply (exact_search_prefix demo_forward "a" 1 2 demo_state
           [mkArticle (Some "Dieu 1") (Some "a") (Some (mkView 0 0));
            mkArticle (Some "Dieu 2") (Some "b") (Some (mkView 0 1))]
           [[1; 0]; [0; 1]]).
  - reflexivity.
  - split; [reflexivity|]. split; [reflexivity|]. split; [discriminate|].
    repeat constructor.
  - lia.
Defined.

(** X5: without an index the rows returned are the best ones: a row of
    the corpus that is not among the results has a cosine similarity to
    the query that is at most the similarity of every result. *)
Theorem exact_search_returns_best forward (text : string) (k : Z) (s : state)
    (t : DataFrame) (col : matrix) :
  index s = None ->
  corpus_rows s t col (length (encode_text forward text)) ->
  exists results,
    find_similar_articles forward text k s = (inr results, s) /\
    forall i v, col !! i = Some v -> i ∉ map label results ->
      Forall (fun r => cosine (encode_text forward text) v <= similarity r) results.
Proof.
  intros Hidx Hc.
  destruct (exact_results_ranked forward text k s t col Hidx Hc)
    as (results & Hrun & Hlab & _ & Hcos & _).
  exists results. split; [exact Hrun|].
  intros i v Hi Hnot.
  set (q := encode_text forward text) in *.
  set (scores := exact_scores q col) in *.
  set (ranking := Numpy.flip (Numpy.argsort scores)) in *.
  assert (Hkey : forall j w, col !! j = Some w -> nth j scores 0 = cosine q w).
  { intros j w Hj. apply nth_lookup_Some. unfold scores, exact_scores.
    rewrite list_lookup_fmap, Hj. reflexivity. }
  pose proof (top_indices_sorted scores (Z.of_nat (length ranking))) as Hsorted.
  fold ranking in Hsorted. rewrite slice_to_all in Hsorted by lia.
  destruct (slice_to_firstn k ranking) as [n Hn].
  rewrite Hn in Hlab. rewrite Hlab in Hnot.
  rewrite <- (take_drop n ranking) in Hsorted.
  assert (Hin : i ∈ drop n ranking).
  { assert (Hall : i ∈ ranking).
    { unfold ranking, Numpy.flip. apply list_elem_of_In.
      apply (proj1 (in_rev (Numpy.argsort scores) i)).
      eapply Permutation_in; [symmetry; apply argsort_perm|].
      apply in_seq. apply lookup_lt_Some in Hi.
      unfold scores, exact_scores. rewrite length_map. lia. }
    rewrite <- (take_drop n ranking) in Hall.
    apply elem_of_app in Hall as [Hall|Hall]; [contradiction|exact Hall]. }
  rewrite Forall_forall in Hcos |- *. intros r Hr.
  destruct (Hcos r Hr) as (w & Hw & ->).
  assert (Hlr : label r ∈ take n ranking).
  { rewrite <- Hlab. apply list_elem_of_fmap. exists r. split; [reflexivity|exact Hr]. }
  pose proof (StronglySorted_app_1_elem_of _ _ _ _ _ Hsorted Hlr Hin) as Hd.
  unfold desc_by, asc_by in Hd.
  rewrite (Hkey i v Hi), (Hkey (label r) w Hw) in Hd.
  destruct Hd as [Hd|[Hd _]]; lra.
Qed.

Lemma exact_search_returns_best_witness :
  exists results,
    find_similar_articles demo_forward "a" 1 demo_state = (inr results, demo_state) /\
    forall i v, [[1; 0]; [0; 1]] !! i = Some v -> i ∉ map label results ->
      Forall (fun r => cosine (encode_text demo_forward "a") v <= similarity r) results.
Proof.
  apply (exact_search_returns_best demo_forward "a" 1 demo_state
           [mkArticle (Some "Dieu 1") (Some "a") (Some (mkView 0 0));
            mkArticle (Some "Dieu 2") (Some "b") (Some (mkView 0 1))]
           [[1; 0]; [0; 1]]).
  - reflexivity.
  - split; [reflexivity|]. split; [reflexivity|]. split; [discriminate|].
    repeat constructor.
Defined.

(* ================================================================= *)
(** ** Further properties of the search through the index *)

(** X6: with an index, a [top_k] that is not positive, or a query whose
    dimension is not the dimension of the index, makes the search raise
    an AssertionError, whatever the table holds; the finder is left as it
    was. *)
Theorem index_search_rejects forward (text : string) (k : Z) (s : state)
    (idx : Faiss.IndexFlatL2) :
  index s = Some idx ->
  (k <= 0)%Z \/ length (encode_text forward text) <> Faiss.d idx ->
  find_similar_articles forward text k s = (inl AssertionError, s).
Proof.
  intros Hidx Hbad.
  unfold find_similar_articles, bind, get. rewrite Hidx.
  unfold index_search, bind, lift, Faiss.search. rewrite divide_by_norm_dim.
  destruct (Z.leb_spec k 0) as [Hk|Hk]; [reflexivity|].
  destruct Hbad as [Hbad|Hbad]; [lia|].
  apply Nat.eqb_neq in Hbad. rewrite Hbad. reflexivity.
Qed.

Lemma index_search_rejects_witness :
  find_similar_articles demo_forward "a" 0 indexed_state
    = (inl AssertionError, indexed_state).
Proof.
  apply (index_search_rejects demo_forward "a" 0 indexed_state
           (Faiss.mkIndex 2 (Faiss.normalize_L2 [[1; 0]; [0; 1]]))).
  - reflexivity.
  - left. lia.
Defined.

(** The results of the search through the index for a query that is
    divided by a norm other than zero. *)
Lemma find_similar_index_shape forward (text : string) (k : Z) (s : state)
    (idx : Faiss.IndexFlatL2) (t : DataFrame) :
  index s = Some idx ->
  df s = Some t ->
  t <> [] ->
  (length (Faiss.xb idx) <= length t)%nat ->
  (0 < k)%Z ->
  length (encode_text forward text) = Faiss.d idx ->
  Numpy.divide_by_norm (encode_text forward text)
    = Numpy.Finite (map (fun c => c / norm (encode_text forward text))
                        (encode_text forward text)) ->
  let e := encode_text forward text in
  let found := Nat.min (Z.to_nat k) (length (Faiss.xb idx)) in
  exists results,
    find_similar_articles forward text k s = (inr results, s) /\
    length results = Z.to_nat k /\
    NoDup (map label (take found results)) /\
    Forall (fun r => exists x,
              Faiss.xb idx !! label r = Some x /\
              similarity r
                = faiss_similarity (Faiss.l2sqr (map (fun c => c / norm e) e) x))
           (take found results) /\
    Forall (fun r => label r = (length t - 1)%nat /\
                     similarity r = faiss_similarity Faiss.FLT_MAX)
           (drop found results).
Proof.
  intros Hidx Hdf Hne Hxb Hk Hd Hfin e found.
  destruct (find_similar_index forward text k s idx t Hidx Hdf Hne Hxb Hk Hd Hfin)
    as (results & Hrun & Hlab & Hsim & _).
  cbv zeta in Hlab, Hsim. fold e in Hlab, Hsim.
  set (dis := map (Faiss.l2sqr (map (fun c => c / norm e) e)) (Faiss.xb idx)) in *.
  set (order := take (Z.to_nat k) (Numpy.argsort dis)) in *.
  set (pad := (Z.to_nat k - length order)%nat) in *.
  assert (Hlo : length order = found).
  { unfold order, found. rewrite length_take, argsort_length.
    unfold dis. rewrite length_map. reflexivity. }
  assert (Hlen : length results = Z.to_nat k).
  { apply (f_equal (@length _)) in Hlab.
    rewrite length_map, length_app, length_map, repeat_length in Hlab.
    unfold pad in Hlab. rewrite Hlab, Hlo. unfold found. lia. }
  assert (Hlt : map label (take found results) = order).
  { apply map_Some_inj. rewrite map_map.
    change (map (fun r => Some (label r)) (take found results))
      with ((fun r => Some (label r)) <$> take found results).
    rewrite fmap_take.
    change ((fun r => Some (label r)) <$> results)
      with (map (fun r => Some (label r)) results).
    rewrite Hlab. apply take_app_length'. rewrite length_map. symmetry. exact Hlo. }
  exists results. split; [exact Hrun|]. split; [exact Hlen|].
  split; [|split].
  - rewrite Hlt. unfold order. eapply sublist_NoDup; [|apply sublist_take].
    rewrite argsort_perm. apply NoDup_seq.
  - assert (Hst : map similarity (take found results)
                  = map (fun r => faiss_similarity (nth (label r) dis 0))
                        (take found results)).
    { change (map similarity (take found results))
        with (similarity <$> take found results).
      rewrite fmap_take.
      change (similarity <$> results) with (map similarity results).
      rewrite Hsim, map_app.
      rewrite take_app_length'
        by (unfold Numpy.take_idx; rewrite !length_map; symmetry; exact Hlo).
      unfold Numpy.take_idx. rewrite <- Hlt, !map_map. reflexivity. }
    apply map_eq_Forall in Hst.
    assert (Hin : Forall (fun r => (label r < length (Faiss.xb idx))%nat)
                         (take found results)).
    { apply (proj1 (List.Forall_map label
                      (fun i => (i < length (Faiss.xb idx))%nat) _)).
      rewrite Hlt. unfold order. apply Forall_take, Forall_forall.
      intros i Hi. apply list_elem_of_In in Hi.
      eapply Permutation_in in Hi; [|apply argsort_perm].
      apply in_seq in Hi. unfold dis in Hi. rewrite length_map in Hi. lia. }
    rewrite Forall_forall in Hst, Hin |- *. intros r Hr.
    destruct (lookup_lt_is_Some_2 (Faiss.xb idx) (label r) (Hin r Hr)) as [x Hx].
    exists x. split; [exact Hx|]. rewrite (Hst r Hr). f_equal.
    apply nth_lookup_Some. unfold dis. rewrite list_lookup_fmap, Hx. reflexivity.
  - assert (Hld : map (fun r => Some (label r)) (drop found results)
                  = repeat (Some (length t - 1)%nat) pad).
    { change (map (fun r => Some (label r)) (drop found results))
        with ((fun r => Some (label r)) <$> drop found results).
      rewrite fmap_drop.
      change ((fun r => Some (label r)) <$> results)
        with (map (fun r => Some (label r)) results).
      rewrite Hlab. apply drop_app_length'. rewrite length_map. symmetry. exact Hlo. }
    assert (Hsd : map similarity (drop found results)
                  = repeat (faiss_similarity Faiss.FLT_MAX) pad).
    { change (map similarity (drop found results))
        with (similarity <$> drop found results).
      rewrite fmap_drop.
      change (similarity <$> results) with (map similarity results).
      rewrite Hsim, map_app.
      rewrite drop_app_length'
        by (unfold Numpy.take_idx; rewrite !length_map; symmetry; exact Hlo).
      apply map_repeat. }
    apply map_repeat_Forall in Hld, Hsd.
    rewrite Forall_forall in Hld, Hsd |- *. intros r Hr.
    split; [|apply Hsd, Hr].
    specialize (Hld r Hr). simpl in Hld. congruence.
Qed.



(** X7: with an index and a positive [top_k] the search returns exactly
    [top_k] rows.  When the embedding of the query is not zero, the first
    min(top_k, ntotal) of them are distinct rows of the index, each
    scored [1 - distance / 2] for the squared distance of its stored
    vector from the normalized query, and every row after them is the
    last row of the table with the score [1 - FLT_MAX / 2].  When the
    embedding of the query is zero, the division by its norm gives NaN,
    the index finds no neighbour, and every one of the [top_k] rows is
    the last row of the table with that score. *)
Theorem index_search_result_shape forward (text : string) (k : Z) (s : state)
    (idx : Faiss.IndexFlatL2) (t : DataFrame) :
  index s = Some idx ->
  df s = Some t ->
  t <> [] ->
  (length (Faiss.xb idx) <= length t)%nat ->
  (0 < k)%Z ->
  length (encode_text forward text) = Faiss.d idx ->
  exists results,
    find_similar_articles forward text k s = (inr results, s) /\
    length results = Z.to_nat k /\
    match Numpy.divide_by_norm (encode_text forward text) with
    | Numpy.Finite q =>
        let found := Nat.min (Z.to_nat k) (length (Faiss.xb idx)) in
        NoDup (map label (take found results)) /\
        Forall (fun r => exists x,
                  Faiss.xb idx !! label r = Some x /\
                  similarity r = faiss_similarity (Faiss.l2sqr q x))
               (take found results) /\
        Forall (fun r => label r = (length t - 1)%nat /\
                         similarity r = faiss_similarity Faiss.FLT_MAX)
               (drop found results)
    | Numpy.NaNs _ =>
        Forall (fun r => label r = (length t - 1)%nat /\
                         similarity r = faiss_similarity Faiss.FLT_MAX)
               results
    end.
Proof.
  intros Hidx Hdf Hne Hxb Hk Hd.
  destruct (divide_by_norm_cases (encode_text forward text)) as [Hfin|Hnan].
  - destruct (find_similar_index_shape forward text k s idx t
                Hidx Hdf Hne Hxb Hk Hd Hfin)
      as (results & Hrun & Hlen & Hnd & Hgen & Hpad).
    exists results. split; [exact Hrun|]. split; [exact Hlen|].
    rewrite Hfin. cbv zeta. split; [exact Hnd|]. split; [exact Hgen|exact Hpad].
  - destruct (find_similar_index_nan forward text k s idx t Hidx Hdf Hne Hk Hd Hnan)
      as (results & Hrun & Hlen & Hall & _).
    exists results. split; [exact Hrun|]. split; [exact Hlen|].
    rewrite Hnan. exact Hall.
Qed.

Lemma index_search_result_shape_witness :
  exists results,
    find_similar_articles demo_forward "a" 3 indexed_state
      = (inr results, indexed_state) /\
    length results = Z.to_nat 3 /\
    match Numpy.divide_by_norm (encode_text demo_forward "a") with
    | Numpy.Finite q =>
        let found := Nat.min (Z.to_nat 3) 2 in
        NoDup (map label (take found results)) /\
        Forall (fun r => exists x,
                  Faiss.normalize_L2 [[1; 0]; [0; 1]] !! label r = Some x /\
                  similarity r = faiss_similarity (Faiss.l2sqr q x))
               (take found results) /\
        Forall (fun r => label r = (2 - 1)%nat /\
                         similarity r = faiss_similarity Faiss.FLT_MAX)
               (drop found results)
    | Numpy.NaNs _ =>
        Forall (fun r => label r = (2 - 1)%nat /\
                         similarity r = faiss_similarity Faiss.FLT_MAX)
               results
    end.
Proof.
  apply (index_search_result_shape demo_forward "a" 3 indexed_state
           (Faiss.mkIndex 2 (Faiss.normalize_L2 [[1; 0]; [0; 1]]))
           [mkArticle (Some "Dieu 1") (Some "a") (Some (mkView 0 0));
            mkArticle (Some "Dieu 2") (Some "b") (Some (mkView 0 1))]).
  - reflexivity.
  - reflexivity.
  - discriminate.
  - simpl. lia.
  - lia.
  - reflexivity.
Defined.

(* ================================================================= *)
(** ** Further properties of encoding, loading and indexing *)

(** X8: an empty list of texts, or a batch size that is not positive,
    makes [batch_encode_texts] of the class raise a ValueError (from
    [range] for a zero step, from [np.concatenate] of no arrays
    otherwise).  The script copy, which collects the rows in a list and
    calls [np.array], raises for a zero step only and returns the empty
    array in the other cases. *)
Theorem batch_encode_texts_rejects forward (texts : list string) (b : Z) :
  texts = [] \/ (b <= 0)%Z ->
  batch_encode_texts forward texts b = inl ValueError /\
  Script.batch_encode_texts forward texts b
    = if (b =? 0)%Z then inl ValueError else inr [].
Proof.
  intros Hbad. unfold batch_encode_texts, Script.batch_encode_texts, Numpy.range_step.
  destruct (Z.eqb_spec b 0) as [Hz|Hz]; [split; reflexivity|].
  destruct (Z.ltb_spec b 0) as [Hn|Hn]; [split; reflexivity|].
  destruct Hbad as [->|Hb]; [|lia].
  cbn [length Nat.add].
  rewrite (Nat.div_small (Z.to_nat b - 1) (Z.to_nat b)) by lia.
  split; reflexivity.
Qed.

Lemma batch_encode_texts_rejects_witness :
  batch_encode_texts demo_forward [] 32 = inl ValueError /\
  Script.batch_encode_texts demo_forward [] 32
    = if (32 =? 0)%Z then inl ValueError else inr [].
Proof.
  apply (batch_encode_texts_rejects demo_forward [] 32).
  left. reflexivity.
Defined.

Lemma np_array_ok (dim : nat) (rows : matrix) :
  Forall (fun v => length v = dim) rows -> Script.np_array rows = inr rows.
Proof.
  intros Hall. destruct rows as [|v rows]; [reflexivity|].
  inversion Hall as [|? ? Hv Hrows]; subst. simpl.
  rewrite forallb_length; [reflexivity|exact Hrows].
Qed.

Lemma script_batch_encode_texts_map forward (texts : list string) (b : Z) :
  (forall batch, forward batch = map (encode_text forward) batch) ->
  (forall t1 t2, length (encode_text forward t1) = length (encode_text forward t2)) ->
  texts <> [] ->
  (1 <= b)%Z ->
  Script.batch_encode_texts forward texts b = inr (map (encode_text forward) texts).
Proof.
  intros Hitem Hdim Hne Hb.
  pose proof (batch_encode_texts_map forward texts b Hitem Hb Hne) as Hclass.
  unfold batch_encode_texts in Hclass. unfold Script.batch_encode_texts.
  destruct (Numpy.range_step (length texts) b) as [e|starts]; [discriminate|].
  unfold Numpy.concatenate in Hclass.
  destruct (map (fun i => forward (Numpy.slice i b texts)) starts) as [|m0 ms] eqn:E;
    [discriminate|].
  assert (Hc : concat (m0 :: ms) = map (encode_text forward) texts) by congruence.
  rewrite Hc.
  destruct texts as [|text0 texts]; [congruence|].
  apply (np_array_ok (length (encode_text forward text0))).
  apply Forall_forall. intros v Hv.
  apply list_elem_of_fmap in Hv as (text & -> & _). apply Hdim.
Qed.

(** X9: with an encoder that works per item and gives vectors of one
    dimension, on a non-empty list of texts and for a positive batch size
    the script copy of [batch_encode_texts] returns what the method of
    the class returns: one row per text, row [i] being [encode_text] of
    text [i]. *)
Theorem script_batch_encode_texts_agrees forward (texts : list string) (b : Z) :
  (forall batch, forward batch = map (encode_text forward) batch) ->
  (forall t1 t2, length (encode_text forward t1) = length (encode_text forward t2)) ->
  texts <> [] ->
  (1 <= b)%Z ->
  Script.batch_encode_texts forward texts b = batch_encode_texts forward texts b /\
  Script.batch_encode_texts forward texts b = inr (map (encode_text forward) texts).
Proof.
  intros Hitem Hdim Hne Hb.
  rewrite (batch_encode_texts_map forward texts b Hitem Hb Hne).
  assert (Hs : Script.batch_encode_texts forward texts b
               = inr (map (encode_text forward) texts)).
  { apply script_batch_encode_texts_map; assumption. }
  split; exact Hs.
Qed.

Lemma script_batch_encode_texts_agrees_witness :
  Script.batch_encode_texts demo_forward ["a"; "b"; "c"] 2
    = batch_encode_texts demo_forward ["a"; "b"; "c"] 2 /\
  Script.batch_encode_texts demo_forward ["a"; "b"; "c"] 2
    = inr (map (encode_text demo_forward) ["a"; "b"; "c"]).
Proof.
  apply (script_batch_encode_texts_agrees demo_forward ["a"; "b"; "c"] 2).
  - intros batch. reflexivity.
  - intros t1 t2. unfold encode_text, demo_forward. simpl.
    destruct (String.eqb t1 "a"), (String.eqb t2 "a"); reflexivity.
  - discriminate.
  - lia.
Defined.

Lemma drop_duplicates_from_fresh (seen : list cell) (t : DataFrame) :
  Forall (fun r => truncated_text r ∉ seen) (drop_duplicates_from seen t) /\
  NoDup (map truncated_text (drop_duplicates_from seen t)).
Proof.
  revert seen. induction t as [|r t IH]; intros seen; simpl.
  - split; constructor.
  - destruct (decide (truncated_text r ∈ seen)) as [Hin|Hin]; [apply IH|].
    destruct (IH (truncated_text r :: seen)) as [Hf Hnd].
    split.
    + constructor; [exact Hin|].
      eapply Forall_impl; [exact Hf|]. intros r' Hr' Hc.
      apply Hr'. right. exact Hc.
    + simpl. apply NoDup_cons. split; [|exact Hnd].
      intros Hc. apply list_elem_of_fmap in Hc as (r' & Heq & Hr').
      rewrite Forall_forall in Hf. apply (Hf r' Hr'). rewrite <- Heq. left.
Qed.

Lemma drop_duplicates_from_id (seen : list cell) (t : DataFrame) :
  Forall (fun r => truncated_text r ∉ seen) t ->
  NoDup (map truncated_text t) ->
  drop_duplicates_from seen t = t.
Proof.
  revert seen. induction t as [|r t IH]; intros seen Hf Hnd; simpl; [reflexivity|].
  inversion Hf as [|? ? Hr Hf']; subst.
  simpl in Hnd. apply NoDup_cons in Hnd as [Hnot Hnd].
  destruct (decide (truncated_text r ∈ seen)); [contradiction|].
  f_equal. apply IH; [|exact Hnd].
  rewrite Forall_forall in Hf' |- *. intros r' Hr' Hc.
  apply elem_of_cons in Hc as [Hc|Hc]; [|apply (Hf' r' Hr' Hc)].
  apply Hnot. rewrite <- Hc. apply list_elem_of_fmap. exists r'. split; [reflexivity|exact Hr'].
Qed.

Lemma dropna_id (t : DataFrame) :
  Forall (fun r => complete r = true) t -> dropna t = t.
Proof.
  induction 1 as [|r t Hr _ IH]; [reflexivity|].
  unfold dropna in *. rewrite filter_cons.
  destruct (decide (complete r = true)); [|contradiction].
  f_equal. exact IH.
Qed.

(** X10: whatever the file holds, a table that [load_data] returns is
    clean: every row has a text and an identifier, no text occurs twice,
    and cleaning it once more changes nothing. *)
Theorem load_data_result_clean read (path : string) (s : state) (t : DataFrame) :
  fst (load_data read path s) = inr t ->
  Forall (fun r => complete r = true) t /\
  NoDup (map truncated_text t) /\
  drop_duplicates (dropna t) = t.
Proof.
  intros Hrun. rewrite load_data_run in Hrun.
  assert (Hraw : exists t0, t = drop_duplicates (dropna t0)).
  { destruct (read path Utf8Sig) as [e1|t1]; simpl in Hrun.
    - destruct (read path Utf16) as [e2|t2]; simpl in Hrun; [discriminate|].
      injection Hrun as <-. eauto.
    - injection Hrun as <-. eauto. }
  destruct Hraw as [t0 ->].
  assert (Hc : Forall (fun r => complete r = true) (drop_duplicates (dropna t0))).
  { apply drop_duplicates_from_Forall, dropna_complete. }
  destruct (drop_duplicates_from_fresh [] (dropna t0)) as [Hf Hnd].
  split; [exact Hc|]. split; [exact Hnd|].
  rewrite (dropna_id _ Hc). apply drop_duplicates_from_id; [exact Hf|exact Hnd].
Qed.

Lemma load_data_result_clean_witness :
  Forall (fun r => complete r = true)
    [mkArticle (Some "Dieu 1") (Some "a") None;
     mkArticle (Some "Dieu 2") (Some "b") None] /\
  NoDup (map truncated_text
    [mkArticle (Some "Dieu 1") (Some "a") None;
     mkArticle (Some "Dieu 2") (Some "b") None]) /\
  drop_duplicates (dropna
    [mkArticle (Some "Dieu 1") (Some "a") None;
     mkArticle (Some "Dieu 2") (Some "b") None])
    = [mkArticle (Some "Dieu 1") (Some "a") None;
       mkArticle (Some "Dieu 2") (Some "b") None].
Proof.
  apply (load_data_result_clean demo_csv "corpus.csv" (init [] ∅)).
  reflexivity.
Defined.

(* ================================================================= *)
(** ** What a search depends on *)

Lemma table_fields_lookup (t1 t2 : DataFrame) (i : nat) :
  table_fields t1 = table_fields t2 ->
  match t1 !! i, t2 !! i with
  | Some r1, Some r2 => dieu r1 = dieu r2 /\ truncated_text r1 = truncated_text r2
  | None, None => True
  | _, _ => False
  end.
Proof.
  intros Hf. apply (f_equal (fun l => l !! i)) in Hf.
  unfold table_fields in Hf. rewrite !list_lookup_fmap in Hf.
  destruct (t1 !! i), (t2 !! i); simpl in Hf; try discriminate; [|exact I].
  injection Hf as H1 H2. split; assumption.
Qed.

Lemma iloc_fields (t1 t2 : DataFrame) (ps : list Z) :
  table_fields t1 = table_fields t2 ->
  match Pandas.iloc t1 ps, Pandas.iloc t2 ps with
  | inr rs1, inr rs2 =>
      Forall2 (fun ir1 ir2 => fst ir1 = fst ir2 /\
                              dieu (snd ir1) = dieu (snd ir2) /\
                              truncated_text (snd ir1) = truncated_text (snd ir2))
              rs1 rs2
  | inl e1, inl e2 => e1 = e2
  | _, _ => False
  end.
Proof.
  intros Hf.
  assert (Hlen : length t1 = length t2).
  { apply (f_equal (@length _)) in Hf. unfold table_fields in Hf.
    rewrite !length_map in Hf. exact Hf. }
  induction ps as [|p ps IH]; cbn [Pandas.iloc]; [constructor|].
  rewrite <- Hlen. destruct (iloc_pos (length t1) p) as [i|]; [|reflexivity].
  pose proof (table_fields_lookup t1 t2 i Hf) as Hi.
  destruct (t1 !! i) as [r1|], (t2 !! i) as [r2|]; try contradiction; [|reflexivity].
  destruct (Pandas.iloc t1 ps) as [e1|rs1], (Pandas.iloc t2 ps) as [e2|rs2];
    try contradiction; [exact IH|].
  constructor; [|exact IH]. simpl. split; [reflexivity|exact Hi].
Qed.

(** The rows a search returns show the text columns of the table only. *)
Lemma assemble_ext (t1 t2 : DataFrame) (ps : list Z) (sims : list R) :
  table_fields t1 = table_fields t2 ->
  assemble t1 ps sims = assemble t2 ps sims.
Proof.
  intros Hf. unfold assemble.
  pose proof (iloc_fields t1 t2 ps Hf) as Hi.
  destruct (Pandas.iloc t1 ps) as [e1|rs1], (Pandas.iloc t2 ps) as [e2|rs2];
    try contradiction; [congruence|].
  rewrite (Forall2_length _ _ _ Hi).
  destruct (length rs2 =? length sims)%nat; [|reflexivity].
  f_equal. clear -Hi. revert sims.
  induction Hi as [|ir1 ir2 rs1 rs2 (H1 & H2 & H3) _ IH]; intros [|x sims];
    simpl; try reflexivity.
  rewrite H1, H2, H3, IH. reflexivity.
Qed.

(** The embedding column is read through the cells' values. *)
Lemma embedding_column_values (h1 h2 : heap) (t1 t2 : DataFrame) :
  cell_values h1 t1 = cell_values h2 t2 ->
  embedding_column h1 t1 = embedding_column h2 t2.
Proof.
  revert t2. induction t1 as [|r1 t1 IH]; intros [|r2 t2] H;
    simpl in *; try discriminate; [reflexivity|].
  injection H as Hc Hrest. rewrite (IH t2 Hrest).
  destruct (embedding r1) as [v1|], (embedding r2) as [v2|].
  - rewrite Hc. reflexivity.
  - rewrite Hc. reflexivity.
  - rewrite <- Hc. reflexivity.
  - reflexivity.
Qed.

(** A search depends on the index and on the text columns of the table;
    without an index it depends on the vectors in the embedding cells
    too, and on nothing else. *)
Lemma search_ext forward (text : string) (k : Z) (s1 s2 : state) :
  index s1 = index s2 ->
  option_map table_fields (df s1) = option_map table_fields (df s2) ->
  (index s1 = None ->
   option_map (cell_values (mem s1)) (df s1)
     = option_map (cell_values (mem s2)) (df s2)) ->
  fst (find_similar_articles forward text k s1)
    = fst (find_similar_articles forward text k s2).
Proof.
  intros Hidx Hf Hv.
  unfold find_similar_articles, bind, get. rewrite <- Hidx.
  destruct (index s1) as [idx|].
  - unfold index_search, bind, lift, ret.
    destruct (Faiss.search _ _ _) as [e|[distances indices]]; [reflexivity|].
    unfold the_df.
    destruct (df s1) as [t1|], (df s2) as [t2|]; try discriminate; [|reflexivity].
    simpl. apply assemble_ext. simpl in Hf. congruence.
  - specialize (Hv eq_refl).
    unfold exact_search, bind, get, the_df, lift, ret.
    destruct (df s1) as [t1|] eqn:E1, (df s2) as [t2|] eqn:E2;
      try discriminate; [|reflexivity].
    simpl in Hf, Hv.
    rewrite (embedding_column_values (mem s1) (mem s2) t1 t2) by congruence.
    destruct (embedding_column (mem s2) t2) as [e|col]; [reflexivity|].
    destruct (Numpy.stack col) as [e|mat]; [reflexivity|].
    destruct (Sklearn.cosine_similarity _ mat) as [e|sims]; [reflexivity|].
    rewrite E1, E2. simpl. apply assemble_ext. congruence.
Qed.

Lemma corpus_value_fields (s1 s2 : state) :
  fst (corpus_value s1) = fst (corpus_value s2) ->
  option_map table_fields (df s1) = option_map table_fields (df s2) /\
  option_map (cell_values (mem s1)) (df s1)
    = option_map (cell_values (mem s2)) (df s2).
Proof.
  unfold corpus_value. cbn [fst].
  destruct (df s1) as [t1|], (df s2) as [t2|]; simpl; try discriminate;
    [|intros _; split; reflexivity].
  intros [= H]. split; f_equal.
  - apply (f_equal (map (fun x => (fst (fst x), snd (fst x))))) in H.
    rewrite !map_map in H. exact H.
  - apply (f_equal (map snd)) in H. rewrite !map_map in H. exact H.
Qed.

(** The corpus a finder holds after a cache hit is the one the file
    holds, whatever the finder held before. *)
Lemma load_cached_corpus_value (path : string) (s0 : state) (b : Pickle.blob) :
  files s0 !! path = Some b ->
  corpus_value (snd (load_cached_embeddings path s0))
    = (option_map
         (map (fun p => (Pickle.p_dieu p, Pickle.p_truncated_text p,
                         Pickle.p_embedding p)))
         (Pickle.b_df b),
       Pickle.b_embeddings b).
Proof.
  intros Hb. rewrite (load_cached_run path s0 b Hb). cbn [snd].
  rewrite corpus_value_dump.
  cbn [mem df embeddings set_embeddings set_df set_mem].
  rewrite dump_load. reflexivity.
Qed.

(** X12: a finder without an index that restores the cache written by
    [cache_embeddings] answers every query, for every [top_k], as the
    finder that wrote the cache does without an index: the same rows,
    the same scores, or the same exception. *)
Theorem cache_restores_answers forward (path text : string) (k : Z) (s s0 : state) :
  index s = None ->
  index s0 = None ->
  files s0 = files (snd (cache_embeddings path s)) ->
  fst (find_similar_articles forward text k (snd (load_cached_embeddings path s0)))
    = fst (find_similar_articles forward text k s).
Proof.
  intros Hidx Hidx0 Hfiles.
  assert (Hb : files s0 !! path = Some (Pickle.dump (mem s) (df s) (embeddings s))).
  { rewrite Hfiles. unfold cache_embeddings, bind, get, modify. cbn [snd files set_files].
    apply lookup_insert_eq. }
  pose proof (load_cached_corpus_value path s0 _ Hb) as Hcv.
  rewrite <- corpus_value_dump in Hcv.
  destruct (corpus_value_fields _ _ (f_equal fst Hcv)) as [Hf Hc].
  apply search_ext; [|exact Hf|intros _; exact Hc].
  rewrite (load_cached_run path s0 _ Hb). cbn [snd index set_embeddings set_df set_mem].
  congruence.
Qed.

Lemma cache_restores_answers_witness :
  fst (find_similar_articles demo_forward "a" 5
         (snd (load_cached_embeddings "cache.pkl"
                 (set_files (files (snd (cache_embeddings "cache.pkl" demo_state)))
                            (init [] ∅)))))
    = fst (find_similar_articles demo_forward "a" 5 demo_state).
Proof.
  apply (cache_restores_answers demo_forward "cache.pkl" "a" 5 demo_state
           (set_files (files (snd (cache_embeddings "cache.pkl" demo_state)))
                      (init [] ∅))).
  - reflexivity.
  - reflexivity.
  - reflexivity.
Defined.

Lemma build_index_keeps (faiss : bool) (s : state) :
  files (snd (build_index faiss s)) = files s /\
  df (snd (build_index faiss s)) = df s /\
  reads (snd (build_index faiss s)) = reads s /\
  embeddings (snd (build_index faiss s)) = embeddings s.
Proof.
  unfold build_index, bind, get, raise, modify, ret.
  destruct faiss; [|repeat split].
  destruct (embeddings s) as [l|] eqn:He; [|repeat split; exact He].
  destruct (mem s !! l); repeat split; exact He.
Qed.

(** The end of [main]: the index is built when asked for, then the demo
    query is answered.  The outcome depends on the corpus by value
    only. *)
Lemma build_then_search_ext forward (faiss flag : bool) (text : string) (k : Z)
    (s1 s2 : state) :
  corpus_value s1 = corpus_value s2 ->
  index s1 = None -> index s2 = None ->
  (forall l, embeddings s1 = Some l -> is_Some (mem s1 !! l)) ->
  (forall l, embeddings s2 = Some l -> is_Some (mem s2 !! l)) ->
  fst ((_ <- (if flag then build_index faiss else ret tt) ;
        find_similar_articles forward text k) s1)
    = fst ((_ <- (if flag then build_index faiss else ret tt) ;
            find_similar_articles forward text k) s2).
Proof.
  intros Hcv Hi1 Hi2 Hv1 Hv2.
  destruct (corpus_value_fields s1 s2 (f_equal fst Hcv)) as [Hf Hc].
  assert (Hplain : fst (find_similar_articles forward text k s1)
                   = fst (find_similar_articles forward text k s2)).
  { apply search_ext; [congruence|exact Hf|intros _; exact Hc]. }
  unfold bind.
  destruct flag; [|exact Hplain].
  destruct faiss; [|exact Hplain].
  apply (f_equal snd) in Hcv. unfold corpus_value in Hcv. cbn [snd] in Hcv.
  destruct (embeddings s1) as [l1|] eqn:E1, (embeddings s2) as [l2|] eqn:E2.
  - destruct (Hv1 l1 eq_refl) as [m1 Hm1]. destruct (Hv2 l2 eq_refl) as [m2 Hm2].
    assert (m1 = m2) by congruence. subst m2.
    rewrite (build_index_run s1 l1 m1 E1 Hm1), (build_index_run s2 l2 m1 E2 Hm2).
    apply search_ext.
    + reflexivity.
    + exact Hf.
    + discriminate.
  - destruct (Hv1 l1 eq_refl) as [m1 Hm1]. congruence.
  - destruct (Hv2 l2 eq_refl) as [m2 Hm2]. congruence.
  - rewrite !build_index_skip by (right; assumption). exact Hplain.
Qed.

Lemma build_then_search_files forward (faiss flag : bool) (text : string) (k : Z)
    (s : state) :
  files (snd ((_ <- (if flag then build_index faiss else ret tt) ;
               find_similar_articles forward text k) s)) = files s.
Proof.
  unfold bind.
  destruct flag.
  - pose proof (build_index_keeps faiss s) as [Hfiles _].
    destruct (build_index faiss s) as [[e|[]] s'] eqn:E; cbn [snd] in *; [exact Hfiles|].
    rewrite find_similar_articles_state. exact Hfiles.
  - unfold ret. rewrite find_similar_articles_state. reflexivity.
Qed.

Lemma load_valid (h : heap) (b : Pickle.blob) (l : nat) :
  (Pickle.load h b).1.2 = Some l -> is_Some ((Pickle.load h b).2 !! l).
Proof.
  unfold Pickle.load.
  destruct (Pickle.b_df b) as [ps|].
  - destruct (Pickle.load_rows h ps) as [rs h1].
    destruct (Pickle.b_embeddings b) as [m|]; cbn [fst snd]; [|discriminate].
    intros [= <-]. rewrite lookup_app_r by lia. rewrite Nat.sub_diag. eauto.
  - destruct (Pickle.b_embeddings b) as [m|]; cbn [fst snd]; [|discriminate].
    intros [= <-]. rewrite lookup_app_r by lia. rewrite Nat.sub_diag. eauto.
Qed.

(* ================================================================= *)
(** ** Running [main] again *)

(** [main], stage by stage. *)
Lemma main_unfold forward read (faiss : bool) (args : Args) (demo_text : string)
    (s : state) :
  main forward read faiss args demo_text s =
    match load_data read (data_file args) s with
    | (inl e, sa) => (inl e, sa)
    | (inr t, sa) =>
        let sb := set_df (Some t) sa in
        let finish :=
          (_ <- (if use_faiss args then build_index faiss else ret tt) ;
           find_similar_articles forward demo_text 5) in
        match files sb !! cache_file args with
        | Some b => finish (snd (load_cached_embeddings (cache_file args) sb))
        | None =>
            match text_column t with
            | inl e => (inl e, sb)
            | inr texts =>
                match batch_encode_texts forward texts (batch_size args) with
                | inl e => (inl e, sb)
                | inr m =>
                    let sc := set_embeddings (Some (length (mem sb)))
                                (set_mem (mem sb ++ [m]) sb) in
                    match assign_embedding (length (mem sb)) (length m) t with
                    | inl e => (inl e, sc)
                    | inr t' =>
                        finish (snd (cache_embeddings (cache_file args)
                                       (set_df (Some t') sc)))
                    end
                end
            end
        end
    end.
Proof.
  unfold main. unfold bind at 1.
  destruct (load_data read (data_file args) s) as [[e|t] sa]; [reflexivity|].
  unfold bind at 1. unfold modify at 1. unfold bind at 1.
  cbv zeta.
  destruct (files (set_df (Some t) sa) !! cache_file args) as [b|] eqn:Hb.
  - rewrite (load_cached_run _ _ b Hb). cbn [snd]. unfold bind at 1. reflexivity.
  - rewrite (load_cached_miss _ _ Hb).
    unfold bind at 1. unfold bind at 1. unfold the_df at 1.
    cbn [df set_df]. unfold bind at 1. unfold lift at 1.
    destruct (text_column t) as [e|texts]; [reflexivity|].
    unfold bind at 1. unfold lift at 1.
    destruct (batch_encode_texts forward texts (batch_size args)) as [e|m];
      [reflexivity|].
    unfold bind at 1. unfold alloc at 1.
    unfold bind at 1. unfold modify at 1.
    unfold bind at 1. unfold lift at 1.
    destruct (assign_embedding _ (length m) t) as [e|t']; [reflexivity|].
    unfold bind at 1. unfold modify at 1.
    destruct (cache_embeddings (cache_file args) _) as [[e|[]] sd] eqn:Hc.
    + unfold cache_embeddings, bind, get, modify in Hc. discriminate.
    + reflexivity.
Qed.

Lemma load_data_frame read (path : string) (s : state) :
  fst (load_data read path s) = fst (load_data read path (init [] ∅)) /\
  files (snd (load_data read path s)) = files s /\
  mem (snd (load_data read path s)) = mem s /\
  index (snd (load_data read path s)) = index s /\
  embeddings (snd (load_data read path s)) = embeddings s.
Proof.
  rewrite !load_data_run.
  destruct (read path Utf8Sig) as [e1|t1]; [|repeat split].
  destruct (read path Utf16) as [e2|t2]; repeat split.
Qed.

Lemma assign_embedding_outcome (l1 l2 n : nat) (t : DataFrame) (e : exn) :
  assign_embedding l1 n t = inl e -> assign_embedding l2 n t = inl e.
Proof.
  unfold assign_embedding. destruct (length t =? n)%nat; [discriminate|auto].
Qed.

(** X13: running [main] again on the files that a run of [main] left
    behind gives the outcome of that run: the same result rows with the
    same scores, or the same exception.  This holds for every encoder,
    every data file, every content of the cache file before the first
    run, with and without faiss and with and without [--use_faiss]; the
    cache that the first run wrote stands for the encoding it replaces.
    The data file and the cache file are different files. *)
Theorem main_rerun_same_outcome forward read (faiss : bool) (args : Args)
    (demo_text : string) (h h2 : heap) (fs : gmap string Pickle.blob) :
  data_file args <> cache_file args ->
  fst (main forward read faiss args demo_text
         (init h2 (files (snd (main forward read faiss args demo_text (init h fs))))))
    = fst (main forward read faiss args demo_text (init h fs)).
Proof.
  intros _.
  destruct (load_data_frame read (data_file args) (init h fs))
    as (Hr1 & Hf1 & Hm1 & Hi1 & He1).
  assert (Hsecond : forall fs',
             fst (load_data read (data_file args) (init h2 fs'))
               = fst (load_data read (data_file args) (init h fs)) /\
             files (snd (load_data read (data_file args) (init h2 fs'))) = fs' /\
             index (snd (load_data read (data_file args) (init h2 fs'))) = None).
  { intros fs'.
    destruct (load_data_frame read (data_file args) (init h2 fs'))
      as (Hr2 & Hf2 & _ & Hi2 & _).
    split; [congruence|]. split; assumption. }
  rewrite (main_unfold forward read faiss args demo_text (init h fs)).
  destruct (load_data read (data_file args) (init h fs)) as [[e|t] sa] eqn:E1;
    cbn [fst snd] in Hf1, Hm1, Hi1, He1, Hsecond; cbn [files init] in Hf1.
  - (* the data file cannot be read *)
    cbn [snd fst]. rewrite Hf1.
    rewrite main_unfold. destruct (Hsecond fs) as (Hr2 & _).
    destruct (load_data read (data_file args) (init h2 fs)) as [[e'|t'] sa2];
      cbn [fst] in Hr2 |- *; congruence.
  - cbv zeta. cbn [files set_df]. rewrite Hf1.
    assert (Hrun2 : forall fs',
               main forward read faiss args demo_text (init h2 fs') =
               let sa2 := snd (load_data read (data_file args) (init h2 fs')) in
               let sb := set_df (Some t) sa2 in
               let finish :=
                 (_ <- (if use_faiss args then build_index faiss else ret tt) ;
                  find_similar_articles forward demo_text 5) in
               match fs' !! cache_file args with
               | Some b => finish (snd (load_cached_embeddings (cache_file args) sb))
               | None =>
                   match text_column t with
                   | inl e => (inl e, sb)
                   | inr texts =>
                       match batch_encode_texts forward texts (batch_size args) with
                       | inl e => (inl e, sb)
                       | inr m =>
                           let sc := set_embeddings (Some (length (mem sb)))
                                       (set_mem (mem sb ++ [m]) sb) in
                           match assign_embedding (length (mem sb)) (length m) t with
                           | inl e => (inl e, sc)
                           | inr t' =>
                               finish (snd (cache_embeddings (cache_file args)
                                              (set_df (Some t') sc)))
                           end
                       end
                   end
               end).
    { intros fs'. rewrite main_unfold. destruct (Hsecond fs') as (Hr2 & Hf2 & _).
      destruct (load_data read (data_file args) (init h2 fs')) as [[e'|t'] sa2];
        cbn [fst snd] in Hr2, Hf2 |- *; [discriminate|].
      injection Hr2 as ->. cbv zeta. cbn [files set_df]. rewrite Hf2. reflexivity. }
    destruct (fs !! cache_file args) as [b|] eqn:Hb.
    + (* the first run found a cache file *)
      rewrite build_then_search_files.
      assert (Hb1 : files (set_df (Some t) sa) !! cache_file args = Some b)
        by (cbn [files set_df]; rewrite Hf1; exact Hb).
      rewrite (load_cached_run _ _ b Hb1) at 1.
      cbn [snd files set_embeddings set_df set_mem]. rewrite Hf1.
      rewrite (Hrun2 fs). cbv zeta. rewrite Hb.
      destruct (Hsecond fs) as (_ & Hf2 & Hi2).
      set (sa2 := snd (load_data read (data_file args) (init h2 fs))) in *.
      assert (Hb2 : files (set_df (Some t) sa2) !! cache_file args = Some b)
        by (cbn [files set_df]; rewrite Hf2; exact Hb).
      apply build_then_search_ext.
      * rewrite (load_cached_corpus_value _ _ b Hb2),
          (load_cached_corpus_value _ _ b Hb1). reflexivity.
      * rewrite (load_cached_run _ _ b Hb2).
        cbn [snd index set_embeddings set_df set_mem]. exact Hi2.
      * rewrite (load_cached_run _ _ b Hb1).
        cbn [snd index set_embeddings set_df set_mem]. exact Hi1.
      * rewrite (load_cached_run _ _ b Hb2).
        cbn [snd mem embeddings set_embeddings set_df set_mem]. apply load_valid.
      * rewrite (load_cached_run _ _ b Hb1).
        cbn [snd mem embeddings set_embeddings set_df set_mem]. apply load_valid.
    + (* the first run found no cache file *)
      destruct (text_column t) as [e|texts] eqn:Et.
      { cbn [snd fst files set_df]. rewrite Hf1, (Hrun2 fs). cbv zeta.
        rewrite Hb. reflexivity. }
      destruct (batch_encode_texts forward texts (batch_size args)) as [e|m] eqn:Em.
      { cbn [snd fst files set_df]. rewrite Hf1, (Hrun2 fs). cbv zeta.
        rewrite Hb. reflexivity. }
      destruct (assign_embedding (length (mem (set_df (Some t) sa))) (length m) t)
        as [e|t'] eqn:Ea.
      { cbn [snd fst files set_df set_embeddings set_mem]. rewrite Hf1, (Hrun2 fs).
        cbv zeta. rewrite Hb.
        rewrite (assign_embedding_outcome _ _ _ _ _ Ea). reflexivity. }
      rewrite build_then_search_files.
      set (sc := set_df (Some t')
                   (set_embeddings (Some (length (mem (set_df (Some t) sa))))
                      (set_mem (mem (set_df (Some t) sa) ++ [m])
                         (set_df (Some t) sa)))) in *.
      set (pre := snd (cache_embeddings (cache_file args) sc)).
      assert (Hpre : pre = set_files
                (<[cache_file args := Pickle.dump (mem sc) (df sc) (embeddings sc)]>
                   (files sc)) sc) by reflexivity.
      assert (Hfiles : files pre !! cache_file args
                       = Some (Pickle.dump (mem pre) (df pre) (embeddings pre))).
      { rewrite Hpre. cbn [files mem df embeddings set_files]. apply lookup_insert_eq. }
      rewrite (Hrun2 (files pre)). cbv zeta. rewrite Hfiles.
      destruct (Hsecond (files pre)) as (_ & Hf2 & Hi2).
      set (sa2 := snd (load_data read (data_file args) (init h2 (files pre)))) in *.
      assert (Hb2 : files (set_df (Some t) sa2) !! cache_file args
                    = Some (Pickle.dump (mem pre) (df pre) (embeddings pre)))
        by (cbn [files set_df]; rewrite Hf2; exact Hfiles).
      apply build_then_search_ext.
      * rewrite (load_cached_corpus_value _ _ _ Hb2). symmetry.
        apply corpus_value_dump.
      * rewrite (load_cached_run _ _ _ Hb2).
        cbn [snd index set_embeddings set_df set_mem]. exact Hi2.
      * rewrite Hpre. unfold sc.
        cbn [index set_files set_df set_embeddings set_mem]. exact Hi1.
      * rewrite (load_cached_run _ _ _ Hb2).
        cbn [snd mem embeddings set_embeddings set_df set_mem]. apply load_valid.
      * rewrite Hpre. unfold sc.
        cbn [mem embeddings set_files set_df set_embeddings set_mem].
        intros l [= <-]. rewrite lookup_app_r by lia. rewrite Nat.sub_diag. eauto.
Qed.

Lemma main_rerun_same_outcome_witness :
  fst (main demo_forward demo_csv true (mkArgs "corpus.csv" "cache.pkl" 32 true) "a"
         (init []
            (files (snd (main demo_forward demo_csv true
                           (mkArgs "corpus.csv" "cache.pkl" 32 true) "a"
                           (init [] ∅))))))
    = fst (main demo_forward demo_csv true (mkArgs "corpus.csv" "cache.pkl" 32 true) "a"
             (init [] ∅)).
Proof.
  apply (main_rerun_same_outcome demo_forward demo_csv true
           (mkArgs "corpus.csv" "cache.pkl" 32 true) "a" [] [] ∅).
  discriminate.
Defined.

(** X14: while the cache file exists, the outcome of [main] does not
    depend on the data file, on the batch size or on the encoder used for
    the corpus: as long as the data file can be read, the table and the
    embeddings are those of the cache file, also when the data file has
    changed since the cache was written.  The data files and the cache
    file are different files. *)
Theorem main_cache_hit_ignores_data forward read1 read2 (faiss : bool)
    (args1 args2 : Args) (demo_text : string) (h1 h2 : heap)
    (fs : gmap string Pickle.blob) (b : Pickle.blob) (t1 t2 : DataFrame) :
  data_file args1 <> cache_file args1 ->
  data_file args2 <> cache_file args2 ->
  fs !! cache_file args1 = Some b ->
  cache_file args2 = cache_file args1 ->
  use_faiss args2 = use_faiss args1 ->
  fst (load_data read1 (data_file args1) (init h1 fs)) = inr t1 ->
  fst (load_data read2 (data_file args2) (init h2 fs)) = inr t2 ->
  fst (main forward read1 faiss args1 demo_text (init h1 fs))
    = fst (main forward read2 faiss args2 demo_text (init h2 fs)).
Proof.
  intros _ _ Hb Hcache Hflag Hl1 Hl2.
  destruct (load_data_frame read1 (data_file args1) (init h1 fs))
    as (_ & Hf1 & _ & Hi1 & _).
  destruct (load_data_frame read2 (data_file args2) (init h2 fs))
    as (_ & Hf2 & _ & Hi2 & _).
  rewrite !main_unfold. rewrite Hcache, Hflag.
  destruct (load_data read1 (data_file args1) (init h1 fs)) as [[e1|t1'] sa1];
    cbn [fst snd] in *; [discriminate|].
  destruct (load_data read2 (data_file args2) (init h2 fs)) as [[e2|t2'] sa2];
    cbn [fst snd] in *; [discriminate|].
  cbv zeta. cbn [files set_df]. rewrite Hf1, Hf2. cbn [files init]. rewrite Hb.
  assert (Hb1 : files (set_df (Some t1') sa1) !! cache_file args1 = Some b)
    by (cbn [files set_df]; rewrite Hf1; exact Hb).
  assert (Hb2 : files (set_df (Some t2') sa2) !! cache_file args1 = Some b)
    by (cbn [files set_df]; rewrite Hf2; exact Hb).
  apply build_then_search_ext.
  - rewrite (load_cached_corpus_value _ _ b Hb1),
      (load_cached_corpus_value _ _ b Hb2). reflexivity.
  - rewrite (load_cached_run _ _ b Hb1).
    cbn [snd index set_embeddings set_df set_mem]. exact Hi1.
  - rewrite (load_cached_run _ _ b Hb2).
    cbn [snd index set_embeddings set_df set_mem]. exact Hi2.
  - rewrite (load_cached_run _ _ b Hb1).
    cbn [snd mem embeddings set_embeddings set_df set_mem]. apply load_valid.
  - rewrite (load_cached_run _ _ b Hb2).
    cbn [snd mem embeddings set_embeddings set_df set_mem]. apply load_valid.
Qed.

Lemma main_cache_hit_ignores_data_witness :
  fst (main demo_forward demo_csv false (mkArgs "corpus.csv" "cache.pkl" 32 false) "a"
         (init [] (files (snd (cache_embeddings "cache.pkl" raw_state)))))
    = fst (main demo_forward dup_csv false (mkArgs "other.csv" "cache.pkl" 8 false) "a"
             (init [] (files (snd (cache_embeddings "cache.pkl" raw_state))))).
Proof.
  apply (main_cache_hit_ignores_data demo_forward demo_csv dup_csv false
           (mkArgs "corpus.csv" "cache.pkl" 32 false)
           (mkArgs "other.csv" "cache.pkl" 8 false) "a" [] []
           (files (snd (cache_embeddings "cache.pkl" raw_state)))
           (Pickle.dump (mem raw_state) (df raw_state) (embeddings raw_state))
           (drop_duplicates (dropna demo_table))
           (drop_duplicates (dropna dup_table))).
  - discriminate.
  - discriminate.
  - reflexivity.
  - reflexivity.
  - reflexivity.
  - reflexivity.
  - reflexivity.
Defined.

(* ================================================================= *)
(** ** Saved state and saved index *)

Lemma load_state_as_cache (path : string) (s : state) :
  Notebook.load_state path s = (inr tt, snd (load_cached_embeddings path s)).
Proof.
  unfold Notebook.load_state, load_cached_embeddings, bind, get, modify, ret.
  destruct (files s !! path) as [b|]; [|reflexivity].
  destruct (Pickle.load (mem s) b) as [[t e] h]. reflexivity.
Qed.

(** A new session that restores a state file holding the corpus of [s]
    and finds at the index path what [s] has as its index answers as
    [s] does. *)
Lemma restored_session_like forward (state_path index_path text : string)
    (k : Z) (s : state) (w0 : Notebook.session) :
  files (Notebook.finder w0) !! state_path
    = Some (Pickle.dump (mem s) (df s) (embeddings s)) ->
  Notebook.index_files w0 !! index_path = index s ->
  index (Notebook.finder w0) = None ->
  fst (find_similar_articles forward text k
         (Notebook.finder
            (snd (Notebook.load_index true index_path
                    (snd (Notebook.on_finder (Notebook.load_state state_path) w0))))))
    = fst (find_similar_articles forward text k s).
Proof.
  intros Hb Hi Hidx0.
  set (s3 := snd (load_cached_embeddings state_path (Notebook.finder w0))).
  assert (Hw3 : snd (Notebook.on_finder (Notebook.load_state state_path) w0)
                = Notebook.mkSession s3 (Notebook.index_files w0)).
  { unfold Notebook.on_finder. rewrite load_state_as_cache. reflexivity. }
  rewrite Hw3. unfold Notebook.load_index. cbn [Notebook.index_files Notebook.finder].
  rewrite Hi.
  pose proof (load_cached_corpus_value state_path (Notebook.finder w0) _ Hb) as Hcv.
  rewrite <- corpus_value_dump in Hcv. fold s3 in Hcv.
  destruct (corpus_value_fields _ _ (f_equal fst Hcv)) as [Hf Hc].
  assert (Hi3 : index s3 = None).
  { unfold s3. rewrite (load_cached_run _ _ _ Hb).
    cbn [snd index set_embeddings set_df set_mem]. exact Hidx0. }
  destruct (index s) as [idx|] eqn:E; cbn [snd Notebook.finder].
  - apply search_ext.
    + cbn [index set_index]. symmetry. exact E.
    + exact Hf.
    + cbn [index set_index]. discriminate.
  - apply search_ext; [congruence|exact Hf|intros _; exact Hc].
Qed.

(** X15: a new session that calls [load_state] and [load_index] on the
    files written by [save_index] and [save_state] answers every query,
    for every [top_k], as the session that saved does: through the saved
    index when there was one, by brute force over the restored vectors
    otherwise (no index file being left from before).  The state file
    and the index file are different files. *)
Theorem saved_session_answers_alike forward (state_path index_path text : string)
    (k : Z) (w w0 : Notebook.session) :
  state_path <> index_path ->
  (index (Notebook.finder w) = None ->
   Notebook.index_files w !! index_path = None) ->
  index (Notebook.finder w0) = None ->
  files (Notebook.finder w0)
    = files (Notebook.finder
               (snd (Notebook.on_finder (Notebook.save_state state_path)
                       (snd (Notebook.save_index true index_path w))))) ->
  Notebook.index_files w0
    = Notebook.index_files
        (snd (Notebook.on_finder (Notebook.save_state state_path)
                (snd (Notebook.save_index true index_path w)))) ->
  fst (find_similar_articles forward text k
         (Notebook.finder
            (snd (Notebook.load_index true index_path
                    (snd (Notebook.on_finder (Notebook.load_state state_path) w0))))))
    = fst (find_similar_articles forward text k (Notebook.finder w)).
Proof.
  intros _ Hstale Hidx0 Hfiles Hifiles.
  set (s := Notebook.finder w) in *.
  assert (Hsaved : Notebook.finder (snd (Notebook.save_index true index_path w)) = s).
  { unfold Notebook.save_index. fold s. destruct (index s); reflexivity. }
  apply restored_session_like; [| |exact Hidx0].
  - rewrite Hfiles. unfold Notebook.on_finder, Notebook.save_state, bind, get, modify.
    cbn [snd fst Notebook.finder]. rewrite Hsaved. cbn [files set_files].
    apply lookup_insert_eq.
  - rewrite Hifiles. unfold Notebook.on_finder. cbn [snd Notebook.index_files].
    unfold Notebook.save_index. fold s.
    destruct (index s) as [idx|] eqn:E; cbn [snd Notebook.index_files].
    + apply lookup_insert_eq.
    + apply Hstale. reflexivity.
Qed.

Lemma saved_session_answers_alike_witness :
  fst (find_similar_articles demo_forward "a" 5
         (Notebook.finder
            (snd (Notebook.load_index true "faiss_index.bin"
                    (snd (Notebook.on_finder (Notebook.load_state "custom_state.pkl")
                            new_session))))))
    = fst (find_similar_articles demo_forward "a" 5 indexed_state).
Proof.
  apply (saved_session_answers_alike demo_forward "custom_state.pkl" "faiss_index.bin"
           "a" 5 (Notebook.mkSession indexed_state ∅) new_session).
  - discriminate.
  - intros H. discriminate H.
  - reflexivity.
  - reflexivity.
  - reflexivity.
Defined.

(* ================================================================= *)
(** ** The notebook cells *)

(** The first statement of cell 4, stage by stage. *)
Lemma load_or_encode_unfold forward (cache_file : string) (batch_size : Z)
    (t : DataFrame) (sb : state) :
  df sb = Some t ->
  Notebook.load_or_encode forward cache_file batch_size sb =
    match files sb !! cache_file with
    | Some b => (inr tt, snd (load_cached_embeddings cache_file sb))
    | None =>
        match text_column t with
        | inl e => (inl e, sb)
        | inr texts =>
            match batch_encode_texts forward texts batch_size with
            | inl e => (inl e, sb)
            | inr m =>
                let sc := set_embeddings (Some (length (mem sb)))
                            (set_mem (mem sb ++ [m]) sb) in
                match assign_embedding (length (mem sb)) (length m) t with
                | inl e => (inl e, sc)
                | inr t' =>
                    (inr tt, snd (cache_embeddings cache_file (set_df (Some t') sc)))
                end
            end
        end
    end.
Proof.
  intros Hdf. unfold Notebook.load_or_encode. unfold bind at 1.
  destruct (files sb !! cache_file) as [b|] eqn:Hb.
  - rewrite (load_cached_run _ _ b Hb). reflexivity.
  - rewrite (load_cached_miss _ _ Hb).
    unfold bind at 1. unfold the_df at 1. rewrite Hdf.
    unfold bind at 1. unfold lift at 1.
    destruct (text_column t) as [e|texts]; [reflexivity|].
    unfold bind at 1. unfold Notebook.batch_encode_texts.
    unfold bind at 1. unfold lift at 1.
    destruct (batch_encode_texts forward texts batch_size) as [e|m]; [reflexivity|].
    unfold bind at 1. unfold alloc at 1.
    unfold bind at 1. unfold modify at 1. unfold ret at 1.
    unfold bind at 1. unfold get at 1.
    unfold bind at 1. unfold lift at 1.
    cbn [mem set_embeddings set_mem].
    rewrite lookup_app_r by lia. rewrite Nat.sub_diag. cbn [lookup list_lookup default].
    cbv zeta. change (Datatypes.id m) with m.
    destruct (assign_embedding (length (mem sb)) (length m) t) as [e|t']; [reflexivity|].
    unfold bind at 1. unfold modify at 1. reflexivity.
Qed.

(** X18: cells 3 to 5 of the notebook, whose [load_data] and
    [batch_encode_texts] store their results in the finder themselves,
    do what [main] does with the same file names, batch size and flag:
    the same outcome and the same final state, from every state. *)
Theorem notebook_cells_agree_with_main forward read (faiss : bool)
    (data_path cache_path : string) (size : Z) (flag : bool)
    (demo_text : string) (s : state) :
  Notebook.search_cells forward read faiss data_path cache_path size flag demo_text s
    = main forward read faiss (mkArgs data_path cache_path size flag) demo_text s.
Proof.
  rewrite main_unfold. cbn [data_file cache_file batch_size use_faiss].
  unfold Notebook.search_cells. unfold bind at 1.
  unfold Notebook.load_data. unfold bind at 1.
  destruct (load_data read data_path s) as [[e|t] sa]; [reflexivity|].
  unfold bind at 1. unfold modify at 1. unfold ret at 1.
  cbv zeta. unfold bind at 1.
  rewrite (load_or_encode_unfold forward cache_path size t (set_df (Some t) sa))
    by reflexivity.
  destruct (files (set_df (Some t) sa) !! cache_path) as [b|]; [reflexivity|].
  destruct (text_column t) as [e|texts]; [reflexivity|].
  destruct (batch_encode_texts forward texts size) as [e|m]; [reflexivity|].
  cbv zeta.
  destruct (assign_embedding _ (length m) t) as [e|t']; reflexivity.
Qed.

(** Cells 3 and 4 of the notebook with saved state, stage by stage. *)
Lemma prepare_unfold forward read (faiss : bool) (paths : Notebook.Paths)
    (size : Z) (flag : bool) (w : Notebook.session) :
  Notebook.prepare forward read faiss paths size flag w =
    match Notebook.load_data read (Notebook.p_data paths) (Notebook.finder w) with
    | (inl e, s1) => (inl e, Notebook.mkSession s1 (Notebook.index_files w))
    | (inr _, s1) =>
        match Notebook.load_or_encode forward (Notebook.p_cache paths) size s1 with
        | (inl e, s2) => (inl e, Notebook.mkSession s2 (Notebook.index_files w))
        | (inr _, s2) =>
            if flag then
              match build_index faiss s2 with
              | (inl e, s3) => (inl e, Notebook.mkSession s3 (Notebook.index_files w))
              | (inr _, s3) =>
                  Notebook.on_finder (Notebook.save_state (Notebook.p_state paths))
                    (snd (Notebook.save_index faiss (Notebook.p_index paths)
                            (Notebook.mkSession s3 (Notebook.index_files w))))
              end
            else
              Notebook.on_finder (Notebook.save_state (Notebook.p_state paths))
                (Notebook.mkSession s2 (Notebook.index_files w))
        end
    end.
Proof.
  unfold Notebook.prepare. unfold Notebook.sbind at 1. unfold Notebook.on_finder at 1.
  destruct (Notebook.load_data read (Notebook.p_data paths) (Notebook.finder w))
    as [[e|t] s1]; cbn [fst snd]; [reflexivity|].
  unfold Notebook.sbind at 1. unfold Notebook.on_finder at 1.
  cbn [Notebook.finder Notebook.index_files].
  destruct (Notebook.load_or_encode forward (Notebook.p_cache paths) size s1)
    as [[e|[]] s2]; cbn [fst snd]; [reflexivity|].
  unfold Notebook.sbind at 1.
  destruct flag; [|reflexivity].
  unfold Notebook.sbind at 1. unfold Notebook.on_finder at 1.
  cbn [Notebook.finder Notebook.index_files].
  destruct (build_index faiss s2) as [[e|[]] s3]; cbn [fst snd]; [reflexivity|].
  unfold Notebook.save_index. cbn [Notebook.finder Notebook.index_files].
  destruct (index s3), faiss; reflexivity.
Qed.

(** X19: when cells 3 and 4 of the notebook with saved state have run to
    their end, with faiss imported and [use_faiss] set, the four files
    being different files and no index file left from before, a new
    session that calls [load_state] and [load_index] on the files they
    wrote answers every query, for every [top_k], as the session that ran
    the cells does. *)
Theorem prepared_session_restores forward read (paths : Notebook.Paths) (size : Z)
    (text : string) (k : Z) (w w0 : Notebook.session) :
  Notebook.distinct_files paths ->
  fst (Notebook.prepare forward read true paths size true w) = inr tt ->
  Notebook.index_files w !! Notebook.p_index paths = None ->
  index (Notebook.finder w0) = None ->
  files (Notebook.finder w0)
    = files (Notebook.finder
               (snd (Notebook.prepare forward read true paths size true w))) ->
  Notebook.index_files w0
    = Notebook.index_files
        (snd (Notebook.prepare forward read true paths size true w)) ->
  fst (find_similar_articles forward text k
         (Notebook.finder
            (snd (Notebook.load_index true (Notebook.p_index paths)
                    (snd (Notebook.on_finder
                            (Notebook.load_state (Notebook.p_state paths)) w0))))))
    = fst (find_similar_articles forward text k
             (Notebook.finder
                (snd (Notebook.prepare forward read true paths size true w)))).
Proof.
  intros _ Hdone Hstale Hidx0 Hfiles Hifiles.
  rewrite prepare_unfold in Hdone, Hfiles, Hifiles |- *.
  destruct (Notebook.load_data read (Notebook.p_data paths) (Notebook.finder w))
    as [[e|t] s1]; [discriminate|].
  destruct (Notebook.load_or_encode forward (Notebook.p_cache paths) size s1)
    as [[e|[]] s2]; [discriminate|].
  destruct (build_index true s2) as [[e|[]] s3]; [discriminate|].
  clear Hdone.
  unfold Notebook.on_finder, Notebook.save_state, Notebook.save_index, bind, get, modify
    in Hfiles, Hifiles |- *.
  cbn [Notebook.finder Notebook.index_files] in Hfiles, Hifiles |- *.
  assert (Hsame : forall fs, fst (find_similar_articles forward text k (set_files fs s3))
                             = fst (find_similar_articles forward text k s3)).
  { intros fs. apply search_ext; reflexivity. }
  destruct (index s3) as [idx|] eqn:E3;
    cbn [fst snd Notebook.finder Notebook.index_files files set_files]
      in Hfiles, Hifiles |- *;
    rewrite Hsame;
    (apply restored_session_like; [| |exact Hidx0]).
  - rewrite Hfiles. apply lookup_insert_eq.
  - rewrite Hifiles, E3. apply lookup_insert_eq.
  - rewrite Hfiles. apply lookup_insert_eq.
  - rewrite Hifiles, E3. exact Hstale.
Qed.

Lemma prepared_session_restores_witness :
  fst (find_similar_articles demo_forward "a" 5
         (Notebook.finder
            (snd (Notebook.load_index true "faiss_index.bin"
                    (snd (Notebook.on_finder (Notebook.load_state "custom_state.pkl")
                            restoring_session))))))
    = fst (find_similar_articles demo_forward "a" 5
             (Notebook.finder prepared_session)).
Proof.
  apply (prepared_session_restores demo_forward demo_csv demo_paths 32 "a" 5
           (Notebook.mkSession (init [] ∅) ∅) restoring_session).
  - repeat split; discriminate.
  - reflexivity.
  - reflexivity.
  - reflexivity.
  - reflexivity.
  - reflexivity.
Defined.

(* ================================================================= *)
(** ** The index built after a cache hit *)

(** X20: after a cache hit, [build_index] succeeds and normalizes the
    embeddings matrix, and every embedding cell of the restored table
    still reads the vector it read before: the cells of a restored table
    are arrays of their own, for every cache file. *)
Theorem restored_cells_survive_build_index (path : string) (s0 : state)
    (b : Pickle.blob) (t : DataFrame) :
  files s0 !! path = Some b ->
  df (snd (load_cached_embeddings path s0)) = Some t ->
  fst (build_index true (snd (load_cached_embeddings path s0))) = inr tt /\
  df (snd (build_index true (snd (load_cached_embeddings path s0)))) = Some t /\
  embedding_column
      (mem (snd (build_index true (snd (load_cached_embeddings path s0))))) t
    = embedding_column (mem (snd (load_cached_embeddings path s0))) t /\
  forall l m,
    embeddings (snd (load_cached_embeddings path s0)) = Some l ->
    mem (snd (load_cached_embeddings path s0)) !! l = Some m ->
    mem (snd (build_index true (snd (load_cached_embeddings path s0)))) !! l
      = Some (Faiss.normalize_L2 m).
Proof.
  intros Hb Hdf. rewrite (load_cached_run path s0 b Hb) in *. cbn [snd] in *.
  set (s := set_embeddings _ _) in *.
  assert (Ht : (Pickle.load (mem s0) b).1.1 = Some t) by exact Hdf.
  destruct ((Pickle.load (mem s0) b).1.2) as [l|] eqn:El.
  - destruct (load_valid (mem s0) b l El) as [m Hm].
    assert (He : embeddings s = Some l) by reflexivity.
    assert (Hm' : mem s !! l = Some m) by exact Hm.
    rewrite (build_index_run s l m He Hm'). cbn [fst snd df mem set_index set_mem].
    split; [reflexivity|]. split; [exact Hdf|]. split.
    + apply (restored_rows_not_aliased (mem s0) b t l _ Ht El).
    + intros l' m' Hl' Hm''.
      assert (l' = l) by congruence. subst l'.
      assert (m' = m) by congruence. subst m'.
      apply list_lookup_insert_eq. eapply lookup_lt_Some. exact Hm.
  - assert (He : embeddings s = None) by reflexivity.
    rewrite (build_index_skip true s) by (right; exact He). cbn [fst snd].
    split; [reflexivity|]. split; [exact Hdf|]. split; [reflexivity|].
    intros l m Hl. congruence.
Qed.

Lemma restored_cells_survive_build_index_witness :
  fst (build_index true restored_state) = inr tt /\
  df (snd (build_index true restored_state))
    = Some [mkArticle (Some "Dieu 1") (Some "a") (Some (mkView 0 0))] /\
  embedding_column (mem (snd (build_index true restored_state)))
      [mkArticle (Some "Dieu 1") (Some "a") (Some (mkView 0 0))]
    = embedding_column (mem restored_state)
        [mkArticle (Some "Dieu 1") (Some "a") (Some (mkView 0 0))] /\
  forall l m,
    embeddings restored_state = Some l ->
    mem restored_state !! l = Some m ->
    mem (snd (build_index true restored_state)) !! l = Some (Faiss.normalize_L2 m).
Proof.
  apply (restored_cells_survive_build_index "cache.pkl"
           (set_files (files (snd (cache_embeddings "cache.pkl" raw_state)))
                      (init [] ∅))
           (Pickle.dump (mem raw_state) (df raw_state) (embeddings raw_state))
           [mkArticle (Some "Dieu 1") (Some "a") (Some (mkView 0 0))]).
  - reflexivity.
  - reflexivity.
Defined.

(* ================================================================= *)
(** ** The script and [main] *)

Lemma script_find_similar_articles forward (text : string) (k : Z) (s : state) :
  index s = None ->
  Script.find_similar_articles forward text k s
    = find_similar_articles forward text k s.
Proof.
  intros Hidx. unfold Script.find_similar_articles, find_similar_articles.
  cbv zeta. unfold bind at 3. unfold get at 1. cbv beta iota.
  rewrite Hidx. reflexivity.
Qed.

Lemma text_column_length (t : DataFrame) (texts : list string) :
  text_column t = inr texts -> length texts = length t.
Proof.
  revert texts. induction t as [|r t IH]; simpl; intros texts H.
  - injection H as <-. reflexivity.
  - destruct (truncated_text r) as [x|]; [|discriminate].
    destruct (text_column t) as [e|xs]; [discriminate|].
    injection H as <-. simpl. f_equal. apply IH. reflexivity.
Qed.

(** X21: with an encoder that works per item and gives vectors of one
    dimension, the script (steps 2 to 8) ends as [main] does when [main]
    finds no cache file, runs with the batch size 32 of the script and
    without an index: the same result rows with the same scores, or an
    exception of the same class. *)
Theorem script_agrees_with_main forward read (faiss : bool) (args : Args)
    (demo_text : string) (h : heap) (fs : gmap string Pickle.blob) :
  (forall batch, forward batch = map (encode_text forward) batch) ->
  (forall t1 t2, length (encode_text forward t1) = length (encode_text forward t2)) ->
  fs !! cache_file args = None ->
  batch_size args = 32%Z ->
  faiss = false \/ use_faiss args = false ->
  fst (Script.run forward read (data_file args) demo_text (init h fs))
    = fst (main forward read faiss args demo_text (init h fs)).
Proof.
  intros Hitem Hdim Hmiss Hsize Hnoindex.
  destruct (load_data_frame read (data_file args) (init h fs))
    as (_ & Hf1 & _ & Hi1 & _).
  rewrite main_unfold. unfold Script.run. unfold bind at 1.
  destruct (load_data read (data_file args) (init h fs)) as [[e|t] sa];
    cbn [fst snd] in *; [reflexivity|].
  unfold bind at 1. unfold modify at 1.
  cbv zeta. cbn [files set_df]. rewrite Hf1. cbn [files init]. rewrite Hmiss, Hsize.
  unfold bind at 1. unfold lift at 1.
  destruct (text_column t) as [e|texts] eqn:Et; [reflexivity|].
  pose proof (text_column_length t texts Et) as Hlen.
  unfold bind at 1. unfold lift at 1.
  assert (Hfinish : forall s,
             index s = None ->
             (_ <- (if use_faiss args then build_index faiss else ret tt) ;
              find_similar_articles forward demo_text 5) s
               = find_similar_articles forward demo_text 5 s).
  { intros s Hs. unfold bind.
    destruct (use_faiss args) eqn:Eu; [|reflexivity].
    destruct Hnoindex as [->|Hu]; [|discriminate].
    rewrite build_index_skip by (left; reflexivity). reflexivity. }
  destruct texts as [|text0 texts].
  - (* no text: the script fails in [np.stack], [main] in [np.concatenate] *)
    destruct t as [|r t]; [|discriminate].
    reflexivity.
  - rewrite (script_batch_encode_texts_map forward (text0 :: texts) 32 Hitem Hdim)
      by (discriminate || lia).
    rewrite (batch_encode_texts_map forward (text0 :: texts) 32 Hitem)
      by (discriminate || lia).
    unfold bind at 1. unfold alloc at 1.
    unfold bind at 1. unfold modify at 1.
    unfold bind at 1. unfold lift at 1.
    cbn [mem set_df set_embeddings set_mem].
    destruct (assign_embedding (length (mem sa)) _ t) as [e|t']; [reflexivity|].
    unfold bind at 1. unfold modify at 1.
    rewrite Hfinish
      by (unfold cache_embeddings, bind, get, modify;
          cbn [snd index set_files set_df set_embeddings set_mem]; exact Hi1).
    rewrite script_find_similar_articles
      by (cbn [index set_df set_embeddings set_mem]; exact Hi1).
    apply search_ext; reflexivity.
Qed.

Lemma script_agrees_with_main_witness :
  fst (Script.run demo_forward demo_csv "corpus.csv" "a" (init [] ∅))
    = fst (main demo_forward demo_csv false (mkArgs "corpus.csv" "cache.pkl" 32 true)
             "a" (init [] ∅)).
Proof.
  apply (script_agrees_with_main demo_forward demo_csv false
           (mkArgs "corpus.csv" "cache.pkl" 32 true) "a" [] ∅).
  - intros batch. reflexivity.
  - intros t1 t2. unfold encode_text, demo_forward. simpl.
    destruct (String.eqb t1 "a"), (String.eqb t2 "a"); reflexivity.
  - reflexivity.
  - reflexivity.
  - left. reflexivity.
Defined.

(* ================================================================= *)
(** ** Searching too early *)

(** X22: a search on a finder that has no table raises and leaves the
    finder as it was: without an index a TypeError (the table is
    subscripted first), with an index an AssertionError of the index
    search or, when that search succeeds, an AttributeError.  A search
    without an index on a table whose first row has no embedding cell, as
    after [load_data] alone, raises a KeyError. *)
Theorem search_too_early forward (text : string) (k : Z) (s : state) :
  df s = None \/
  (index s = None /\ exists r t, df s = Some (r :: t) /\ embedding r = None) ->
  exists e,
    find_similar_articles forward text k s = (inl e, s) /\
    match df s, index s with
    | None, None => e = TypeError
    | None, Some _ => e = AssertionError \/ e = AttributeError
    | Some _, _ => e = KeyError
    end.
Proof.
  intros [Hdf|(Hidx & r & t & Hdf & Hr)].
  - rewrite Hdf. unfold find_similar_articles, bind, get.
    destruct (index s) as [idx|].
    + unfold index_search, bind, lift, ret.
      unfold Faiss.search.
      destruct (k <=? 0)%Z; [exists AssertionError; split; [reflexivity|left; reflexivity]|].
      destruct (negb _);
        [exists AssertionError; split; [reflexivity|left; reflexivity]|].
      unfold the_df.
      destruct (Numpy.divide_by_norm _); cbn; rewrite Hdf;
        exists AttributeError; (split; [reflexivity|right; reflexivity]).
    + unfold exact_search, bind, get, the_df. rewrite Hdf.
      exists TypeError. split; reflexivity.
  - rewrite Hdf. unfold find_similar_articles, bind, get. rewrite Hidx.
    unfold exact_search, bind, get, the_df, lift. rewrite Hdf.
    cbn [embedding_column]. rewrite Hr.
    exists KeyError. split; reflexivity.
Qed.

Lemma search_too_early_witness :
  exists e,
    find_similar_articles demo_forward "a" 5 (init [] ∅) = (inl e, init [] ∅) /\
    e = TypeError.
Proof.
  apply (search_too_early demo_forward "a" 5 (init [] ∅)).
  left. reflexivity.
Defined.

(* ================================================================= *)
(** ** The files [main] writes *)

(** X25: [main] writes no file but the cache file, and it never
    overwrites a cache file that exists: every other pickle file is left
    as it was, whether [main] returns or raises, and when the cache file
    exists the files after the run are the files before it.  The data
    file and the cache file are different files. *)
Theorem main_writes_only_cache forward read (faiss : bool) (args : Args)
    (demo_text : string) (h : heap) (fs : gmap string Pickle.blob) :
  data_file args <> cache_file args ->
  (forall path, path <> cache_file args ->
     files (snd (main forward read faiss args demo_text (init h fs))) !! path
       = fs !! path) /\
  (forall b, fs !! cache_file args = Some b ->
     files (snd (main forward read faiss args demo_text (init h fs))) = fs).
Proof.
  intros _.
  destruct (load_data_frame read (data_file args) (init h fs))
    as (_ & Hf1 & _ & _ & _).
  rewrite main_unfold.
  destruct (load_data read (data_file args) (init h fs)) as [[e|t] sa];
    cbn [fst snd] in Hf1 |- *; cbn [files init] in Hf1.
  { rewrite Hf1. split; [reflexivity|]. intros b _. reflexivity. }
  cbv zeta. cbn [files set_df]. rewrite Hf1.
  destruct (fs !! cache_file args) as [b|] eqn:Hb.
  - rewrite build_then_search_files.
    rewrite (load_cached_run _ (set_df (Some t) sa) b)
      by (cbn [files set_df]; rewrite Hf1; exact Hb).
    cbn [snd files set_embeddings set_df set_mem]. rewrite Hf1.
    split; [reflexivity|]. intros b' _. reflexivity.
  - split; [|intros b' Hb'; discriminate].
    intros path Hpath.
    destruct (text_column t) as [e|texts];
      [cbn [snd files set_df]; rewrite Hf1; reflexivity|].
    destruct (batch_encode_texts forward texts (batch_size args)) as [e|m];
      [cbn [snd files set_df]; rewrite Hf1; reflexivity|].
    destruct (assign_embedding _ (length m) t) as [e|t'];
      [cbn [snd files set_df set_embeddings set_mem]; rewrite Hf1; reflexivity|].
    rewrite build_then_search_files.
    unfold cache_embeddings, bind, get, modify.
    cbn [snd files set_files set_df set_embeddings set_mem]. rewrite Hf1.
    apply lookup_insert_ne. congruence.
Qed.

Lemma main_writes_only_cache_witness :
  (forall path, path <> "cache.pkl" ->
     files (snd (main demo_forward demo_csv true
                   (mkArgs "corpus.csv" "cache.pkl" 32 true) "a" (init [] ∅)))
       !! path = (∅ : gmap string Pickle.blob) !! path) /\
  (forall b, (∅ : gmap string Pickle.blob) !! "cache.pkl" = Some b ->
     files (snd (main demo_forward demo_csv true
                   (mkArgs "corpus.csv" "cache.pkl" 32 true) "a" (init [] ∅)))
       = ∅).
Proof.
  apply (main_writes_only_cache demo_forward demo_csv true
           (mkArgs "corpus.csv" "cache.pkl" 32 true) "a" [] ∅).
  discriminate.
Defined.
